(** * Pigpiod emulator: virtual serial ports and the client session

    A shallow embedding of [virtual_hardware.py] (class [SerialPort], class
    [VirtualHardware]) and of [client_instances.py] (classes [PigpioClient]
    and [PigpioSerialInstance]), followed by the properties of the circular
    buffers and of the serial command family (SERO, SERC, SERW, SERR, SERDA).

    Conventions.
    - Python integers are [Z]; a [bytes] value and the contents of a buffer
      are [list byte]; a [str] is a [string].
    - A method of a mutable object is a function from the object's state to
      a result that carries the state left behind, also when the method
      raises.
    - The bound [SerialPort] of a [PigpioSerialInstance] is a reference: the
      position of the port in [VirtualHardware.serialports], which is only
      ever appended to.
    - [struct.pack] of four words is kept at the level of the words.
    - The main socket is the stream of the bytes the peer has sent, all of
      them arrived: [recv(n)] takes the first [n] of them, and an empty
      stream is a closed connection. Sending always succeeds.
    - One thread is modelled; the lock of a port is free between two calls
      and is left out, and so are [want_stop], which only another thread
      sets, and the closing of the sockets after the loop. *)

From Stdlib Require Import String Ascii.
From Stdlib Require Import Strings.Byte.
From Stdlib Require Import ZArith List Bool Lia.
Import ListNotations.
Open Scope Z_scope.

(** ** Python primitives *)

Module Py.

Inductive exn : Type :=
| ZeroDivisionError
| IndexError
| StructError
| UnicodeDecodeError
| UnboundLocalError
| AttributeError
| DanglingReference.

(** [DanglingReference] is not a Python exception: it is the model's answer
    to an object reference that denotes nothing, which no run produces (see
    [refs_ok] below). *)

(** A computation over a mutable state [S]: it returns a value and the new
    state, or raises with the state reached at that point. *)
Inductive res (S A : Type) : Type :=
| Ok (a : A) (s : S)
| Raise (e : exn) (s : S).
Arguments Ok {S A} a s.
Arguments Raise {S A} e s.

Definition M (S A : Type) : Type := S -> res S A.

Definition ret {S A} (a : A) : M S A := fun s => Ok a s.

Definition bind {S A B} (m : M S A) (k : A -> M S B) : M S B :=
  fun s => match m s with
           | Ok a s' => k a s'
           | Raise e s' => Raise e s'
           end.

Definition raise {S A} (e : exn) : M S A := fun s => Raise e s.
Definition gets {S A} (f : S -> A) : M S A := fun s => Ok (f s) s.
Definition modify {S} (f : S -> S) : M S unit := fun s => Ok tt (f s).

(** A pure step that may raise. *)
Definition lift {S A} (r : exn + A) : M S A :=
  fun s => match r with inl e => Raise e s | inr a => Ok a s end.

Definition len {A} (l : list A) : Z := Z.of_nat (length l).

(** [a % b]: the sign of the result follows the divisor, as [Z.modulo]
    does; a zero divisor raises. *)
Definition mod_ (a b : Z) : exn + Z :=
  if b =? 0 then inl ZeroDivisionError else inr (a mod b).

(** Slice bounds: a negative bound counts from the end, and every bound is
    clamped to the list. *)
Definition norm_index (n i : Z) : Z :=
  if i <? 0 then Z.max (n + i) 0 else Z.min i n.

(** [l[i:j]] *)
Definition slice {A} (l : list A) (i j : Z) : list A :=
  let a := norm_index (len l) i in
  let b := norm_index (len l) j in
  firstn (Z.to_nat (b - a)) (skipn (Z.to_nat a) l).

(** [l[i:]] *)
Definition slice_from {A} (l : list A) (i : Z) : list A :=
  skipn (Z.to_nat (norm_index (len l) i)) l.

(** [l[:j]] *)
Definition slice_to {A} (l : list A) (j : Z) : list A :=
  firstn (Z.to_nat (norm_index (len l) j)) l.

(** [l[i:j] = d]: the elements from [i] to [max i j] are replaced by [d];
    when [j] is below [i] nothing is removed and [d] is inserted at [i]. *)
Definition set_slice {A} (l : list A) (i j : Z) (d : list A) : list A :=
  let a := norm_index (len l) i in
  let b := norm_index (len l) j in
  firstn (Z.to_nat a) l ++ d ++ skipn (Z.to_nat (Z.max a b)) l.

(** [l[i:] = d] *)
Definition set_slice_from {A} (l : list A) (i : Z) (d : list A) : list A :=
  firstn (Z.to_nat (norm_index (len l) i)) l ++ d.

(** [l[i]] *)
Definition getitem {A} (l : list A) (i : Z) : exn + A :=
  let k := if i <? 0 then len l + i else i in
  if k <? 0 then inl IndexError
  else match nth_error l (Z.to_nat k) with
       | Some x => inr x
       | None => inl IndexError
       end.

Definition byte_val (b : byte) : Z := Z.of_N (Byte.to_N b).

(** [b.decode('ascii')] *)
Definition decode_ascii (b : list byte) : exn + string :=
  if forallb (fun x => byte_val x <? 128) b
  then inr (string_of_list_byte b)
  else inl UnicodeDecodeError.

(** Whether [b.decode('utf-8')] succeeds: the strict decoder accepts the
    well-formed sequences only (no overlong form, no surrogate, nothing
    above U+10FFFF). *)
Definition in_range (lo hi : Z) (b : byte) : bool :=
  (lo <=? byte_val b) && (byte_val b <=? hi).

Definition cont (b : byte) : bool := in_range 128 191 b.

Fixpoint utf8_wf_fuel (fuel : nat) (l : list byte) : bool :=
  match fuel with
  | O => match l with [] => true | _ => false end
  | S fuel' =>
    match l with
    | [] => true
    | b0 :: t =>
      if byte_val b0 <? 128 then utf8_wf_fuel fuel' t
      else if in_range 194 223 b0 then
        match t with
        | b1 :: t' => cont b1 && utf8_wf_fuel fuel' t'
        | _ => false
        end
      else if in_range 224 239 b0 then
        match t with
        | b1 :: b2 :: t' =>
          (if byte_val b0 =? 224 then in_range 160 191 b1
           else if byte_val b0 =? 237 then in_range 128 159 b1
           else cont b1)
          && cont b2 && utf8_wf_fuel fuel' t'
        | _ => false
        end
      else if in_range 240 244 b0 then
        match t with
        | b1 :: b2 :: b3 :: t' =>
          (if byte_val b0 =? 240 then in_range 144 191 b1
           else if byte_val b0 =? 244 then in_range 128 143 b1
           else cont b1)
          && cont b2 && cont b3 && utf8_wf_fuel fuel' t'
        | _ => false
        end
      else false
    end
  end.

Definition utf8_wf (l : list byte) : bool := utf8_wf_fuel (length l) l.

Definition decode_utf8 (b : list byte) : exn + unit :=
  if utf8_wf b then inr tt else inl UnicodeDecodeError.

End Py.

Import Py.

Declare Scope py_scope.
Delimit Scope py_scope with py.
Notation "x <- m ;; k" := (bind m (fun x => k))
  (at level 61, m at next level, right associativity) : py_scope.
Notation "m ;;; k" := (bind m (fun _ => k))
  (at level 61, right associativity) : py_scope.
Open Scope py_scope.

(** ** virtual_hardware.py: class SerialPort *)

Record SerialPort : Type := mkSerialPort {
  port : string;
  baudrate : Z;
  input_buffer_size : Z;
  output_buffer_size : Z;
  input_buffer_w_index : Z;
  output_buffer_w_index : Z;
  input_buffer : list byte;
  output_buffer : list byte
}.

(** [SerialPort.__init__]; [[0] * n] is empty for a negative [n]. *)
Definition SerialPort_init (port : string) (baudrate : Z)
    (input_buffer_size output_buffer_size : Z) : SerialPort :=
  {| port := port;
     baudrate := baudrate;
     input_buffer_size := input_buffer_size;
     output_buffer_size := output_buffer_size;
     input_buffer_w_index := 0;
     output_buffer_w_index := 0;
     input_buffer := repeat x00 (Z.to_nat input_buffer_size);
     output_buffer := repeat x00 (Z.to_nat output_buffer_size) |}.

Definition default_buffer_size : Z := 10000.

Definition set_input (b : list byte) (w : Z) (self : SerialPort) : SerialPort :=
  {| port := port self;
     baudrate := baudrate self;
     input_buffer_size := input_buffer_size self;
     output_buffer_size := output_buffer_size self;
     input_buffer_w_index := w;
     output_buffer_w_index := output_buffer_w_index self;
     input_buffer := b;
     output_buffer := output_buffer self |}.

Definition set_output (b : list byte) (w : Z) (self : SerialPort) : SerialPort :=
  {| port := port self;
     baudrate := baudrate self;
     input_buffer_size := input_buffer_size self;
     output_buffer_size := output_buffer_size self;
     input_buffer_w_index := input_buffer_w_index self;
     output_buffer_w_index := w;
     input_buffer := input_buffer self;
     output_buffer := b |}.

(** [bind] *)
Definition bind_port : M SerialPort (Z * Z) :=
  fun self => Ok (input_buffer_w_index self, output_buffer_w_index self) self.

(** The body shared by [put_output] and [put_input], which are the same
    text over the [output_*] and the [input_*] attributes: the new storage
    and the new write index. *)
Definition ring_put (size w_index : Z) (buffer data : list byte)
  : exn + (list byte * Z) :=
  match mod_ (w_index + len data) size with
  | inl e => inl e
  | inr goal_index =>
    if w_index + len data >? size then
      let buffer1 :=
        set_slice_from buffer w_index (slice_to data (size - w_index)) in
      let buffer2 :=
        set_slice buffer1 0 goal_index (slice_from data (size - w_index)) in
      inr (buffer2, goal_index)
    else
      inr (set_slice buffer w_index goal_index data, goal_index)
  end.

(** The body shared by [get_output] and [get_input]: the bytes read and
    the new read index. *)
Definition ring_get (size : Z) (buffer : list byte) (sz read_index : Z)
  : exn + (list byte * Z) :=
  match mod_ (read_index + sz) size with
  | inl e => inl e
  | inr goal_index =>
    if read_index + sz >? size then
      inr (slice buffer read_index size ++ slice buffer 0 goal_index,
           goal_index)
    else
      inr (slice buffer read_index goal_index, goal_index)
  end.

(** The body shared by [input_dat_avail] and [output_dat_avail]. *)
Definition ring_avail (size w_index read_index : Z) : Z :=
  if w_index >? read_index then w_index - read_index
  else if w_index <? read_index then size - read_index + w_index
  else 0.

Definition put_output (data : list byte) : M SerialPort unit :=
  fun self =>
    match ring_put (output_buffer_size self) (output_buffer_w_index self)
                   (output_buffer self) data with
    | inl e => Raise e self
    | inr (b, w) => Ok tt (set_output b w self)
    end.

Definition get_output (size read_index : Z) : M SerialPort (list byte * Z) :=
  fun self =>
    lift (ring_get (output_buffer_size self) (output_buffer self)
                   size read_index) self.

Definition put_input (data : list byte) : M SerialPort unit :=
  fun self =>
    match ring_put (input_buffer_size self) (input_buffer_w_index self)
                   (input_buffer self) data with
    | inl e => Raise e self
    | inr (b, w) => Ok tt (set_input b w self)
    end.

Definition get_input (size read_index : Z) : M SerialPort (list byte * Z) :=
  fun self =>
    lift (ring_get (input_buffer_size self) (input_buffer self)
                   size read_index) self.

Definition input_dat_avail (read_index : Z) : M SerialPort Z :=
  gets (fun self =>
    ring_avail (input_buffer_size self) (input_buffer_w_index self) read_index).

Definition output_dat_avail (read_index : Z) : M SerialPort Z :=
  gets (fun self =>
    ring_avail (output_buffer_size self) (output_buffer_w_index self)
               read_index).

(** ** virtual_hardware.py: class VirtualHardware *)

Record VirtualHardware : Type := mkVirtualHardware {
  serialports : list SerialPort
}.

Definition VirtualHardware_init : VirtualHardware :=
  {| serialports := [] |}.

Definition add_serialport (port : string) (baudrate : Z)
    (self : VirtualHardware) : VirtualHardware :=
  {| serialports :=
       serialports self
       ++ [SerialPort_init port baudrate default_buffer_size
                           default_buffer_size] |}.

(** ** client_instances.py *)

Definition _PI_CMD_SERO : Z := 76.
Definition _PI_CMD_SERC : Z := 77.
Definition _PI_CMD_SERRB : Z := 78.
Definition _PI_CMD_SERWB : Z := 79.
Definition _PI_CMD_SERR : Z := 80.
Definition _PI_CMD_SERW : Z := 81.
Definition _PI_CMD_SERDA : Z := 82.

(** What goes out on a socket: four packed words, or raw bytes. *)
Inductive packet : Type :=
| Words (w0 w1 w2 w3 : Z)
| Bytes (d : list byte).

(** The calls on the loggers, by message. *)
Inductive log_entry : Type :=
| Info_connection_lost (id : Z)
| Debug_new_frame (id : Z)
| Debug_cmd (cmd : Z)
| Debug_p1 (p1 : Z)
| Debug_p2 (p2 : list byte)
| Debug_p3 (p3 : Z)
| Error_does_not_exist (p2 : list byte)
| Warn_not_implemented (cmd : Z)
| Info_attached (handle_id : Z) (port : list byte) (baudrate : Z)
| Info_detached (handle_id : Z) (port : string)
| Info_written (handle_id : Z) (data : list byte)
| Info_read (handle_id : Z) (data : list byte).

(** [serialport] is the position of the bound port in
    [virtual_hardware.serialports]. *)
Record PigpioSerialInstance : Type := mkInstance {
  serialport : nat;
  handle_id : Z;
  input_buffer_r_index : Z;
  output_buffer_r_index : Z
}.

Definition PigpioSerialInstance_init (serialport : nat) (handle_id : Z)
  : PigpioSerialInstance :=
  {| serialport := serialport;
     handle_id := handle_id;
     input_buffer_r_index := 0;
     output_buffer_r_index := 0 |}.

(** The local variable [ext] of [PigpioClient.run]: it survives from one
    iteration of the loop to the next, and SERO rebinds it to a [str]. *)
Inductive local_ext : Type :=
| Unbound
| BytesVal (b : list byte)
| StrVal (s : string).

(** A client with what it shares: the hardware, and the two sockets.
    [main_conn_in] holds the bytes the peer has sent and the client has not
    received yet (an empty one is a closed connection); [main_conn_out] and
    [notification_conn_out] hold what was sent, oldest first. *)
Record PigpioClient : Type := mkClient {
  id : Z;
  virtual_hardware : VirtualHardware;
  serial_instances : list PigpioSerialInstance;
  ext : local_ext;
  main_conn_in : list byte;
  main_conn_out : list packet;
  notification_conn_out : list packet;
  log : list log_entry
}.

Definition PigpioClient_init (main_conn_in : list byte) (id : Z)
    (virtual_hardware : VirtualHardware) : PigpioClient :=
  {| id := id;
     virtual_hardware := virtual_hardware;
     serial_instances := [];
     ext := Unbound;
     main_conn_in := main_conn_in;
     main_conn_out := [];
     notification_conn_out := [];
     log := [] |}.

Definition set_hardware (h : VirtualHardware) (c : PigpioClient) :=
  mkClient (id c) h (serial_instances c) (ext c) (main_conn_in c)
           (main_conn_out c) (notification_conn_out c) (log c).
Definition set_instances (l : list PigpioSerialInstance) (c : PigpioClient) :=
  mkClient (id c) (virtual_hardware c) l (ext c) (main_conn_in c)
           (main_conn_out c) (notification_conn_out c) (log c).
Definition set_ext (e : local_ext) (c : PigpioClient) :=
  mkClient (id c) (virtual_hardware c) (serial_instances c) e (main_conn_in c)
           (main_conn_out c) (notification_conn_out c) (log c).
Definition set_main_conn_in (i : list byte) (c : PigpioClient) :=
  mkClient (id c) (virtual_hardware c) (serial_instances c) (ext c) i
           (main_conn_out c) (notification_conn_out c) (log c).
Definition set_main_conn_out (o : list packet) (c : PigpioClient) :=
  mkClient (id c) (virtual_hardware c) (serial_instances c) (ext c)
           (main_conn_in c) o (notification_conn_out c) (log c).
Definition set_notification_conn_out (o : list packet) (c : PigpioClient) :=
  mkClient (id c) (virtual_hardware c) (serial_instances c) (ext c)
           (main_conn_in c) (main_conn_out c) o (log c).
Definition set_log (l : list log_entry) (c : PigpioClient) :=
  mkClient (id c) (virtual_hardware c) (serial_instances c) (ext c)
           (main_conn_in c) (main_conn_out c) (notification_conn_out c) l.

(** [l[k] = x] for a position inside [l]. *)
Fixpoint update {A} (l : list A) (k : nat) (x : A) : list A :=
  match l, k with
  | [], _ => []
  | _ :: t, O => x :: t
  | h :: t, S k' => h :: update t k' x
  end.

(** The position [l[i]] reads. *)
Definition position {A} (l : list A) (i : Z) : nat :=
  Z.to_nat (if i <? 0 then len l + i else i).

(** [self.main_conn.recv(n)] *)
Definition recv (n : Z) : M PigpioClient (list byte) :=
  fun c => Ok (firstn (Z.to_nat n) (main_conn_in c))
              (set_main_conn_in (skipn (Z.to_nat n) (main_conn_in c)) c).

(** [self.main_conn.send(p)] *)
Definition send (p : packet) : M PigpioClient unit :=
  modify (fun c => set_main_conn_out (main_conn_out c ++ [p]) c).

Definition logger (e : log_entry) : M PigpioClient unit :=
  modify (fun c => set_log (log c ++ [e]) c).

(** A method of the [SerialPort] behind the reference [ref], run on the
    shared hardware of the client. *)
Definition on_port {A} (ref : nat) (m : M SerialPort A) : M PigpioClient A :=
  fun c =>
    let ports := serialports (virtual_hardware c) in
    match nth_error ports ref with
    | None => Raise DanglingReference c
    | Some sp =>
      match m sp with
      | Ok a sp' =>
        Ok a (set_hardware (mkVirtualHardware (update ports ref sp')) c)
      | Raise e sp' =>
        Raise e (set_hardware (mkVirtualHardware (update ports ref sp')) c)
      end
    end.

(** An attribute assignment on the [PigpioSerialInstance] at position [k]
    of [self.serial_instances]. *)
Definition on_instance (k : nat)
    (f : PigpioSerialInstance -> PigpioSerialInstance) : M PigpioClient unit :=
  modify (fun c =>
    match nth_error (serial_instances c) k with
    | Some i => set_instances (update (serial_instances c) k (f i)) c
    | None => c
    end).

Definition set_r_indexes (i o : Z) (self : PigpioSerialInstance) :=
  mkInstance (serialport self) (handle_id self) i o.
Definition set_input_r_index (i : Z) (self : PigpioSerialInstance) :=
  mkInstance (serialport self) (handle_id self) i (output_buffer_r_index self).

(** *** struct.unpack, for the formats the client uses (host of the
    reference deployment: little-endian) *)

Definition le32 (b : list byte) : Z :=
  fold_right (fun x acc => byte_val x + 256 * acc) 0 b.

(** ['I'] *)
Definition unpack_I (b : list byte) : exn + Z :=
  if len b =? 4 then inr (le32 b) else inl StructError.

(** ['II4sI'] *)
Definition unpack_II4sI (raw : list byte) : exn + (Z * Z * list byte * Z) :=
  if len raw =? 16
  then inr (le32 (firstn 4 raw), le32 (firstn 4 (skipn 4 raw)),
            firstn 4 (skipn 8 raw), le32 (skipn 12 raw))
  else inl StructError.

(** [f'{n}s'] *)
Definition unpack_s (n : Z) (b : list byte) : exn + list byte :=
  if len b =? n then inr b else inl StructError.

(** [f'I{len(data) - 4}s'], applied to [data] itself *)
Definition unpack_I_s (data : list byte) : exn + (Z * list byte) :=
  if len data <? 4 then inl StructError
  else inr (le32 (firstn 4 data), skipn 4 data).

(** *** class PigpioSerialInstance

    [k] is the position of [self] in [serial_instances]; [self] is the
    object as it is when the method is entered. *)

Definition open (k : nat) (self : PigpioSerialInstance)
    (port : list byte) (baudrate : Z) : M PigpioClient unit :=
  io <- on_port (serialport self) bind_port ;;
  on_instance k (set_r_indexes (fst io) (snd io)) ;;;
  send (Words 0 0 0 (handle_id self)) ;;;
  logger (Info_attached (handle_id self) port baudrate).

Definition close (self : PigpioSerialInstance) : M PigpioClient unit :=
  send (Words 0 0 0 (handle_id self)) ;;;
  name <- on_port (serialport self) (gets port) ;;
  logger (Info_detached (handle_id self) name).

Definition write_request (self : PigpioSerialInstance) (data : list byte)
  : M PigpioClient unit :=
  u <- lift (unpack_I_s data) ;;
  let to_add := snd u in
  on_port (serialport self) (put_output to_add) ;;;
  lift (decode_utf8 to_add) ;;;
  logger (Info_written (handle_id self) to_add) ;;;
  send (Words 0 0 0 (handle_id self)).

Definition read_request (k : nat) (self : PigpioSerialInstance) (size : Z)
  : M PigpioClient unit :=
  avail <- on_port (serialport self)
                   (input_dat_avail (input_buffer_r_index self)) ;;
  size <- (if size >? avail
           then on_port (serialport self)
                        (input_dat_avail (input_buffer_r_index self))
           else ret size) ;;
  r <- on_port (serialport self)
               (get_input size (input_buffer_r_index self)) ;;
  let to_send := fst r in
  on_instance k (set_input_r_index (snd r)) ;;;
  lift (decode_utf8 to_send) ;;;
  logger (Info_read (handle_id self) to_send) ;;;
  send (Words 0 0 0 (len to_send)) ;;;
  send (Bytes to_send).

Definition data_available_request (self : PigpioSerialInstance)
  : M PigpioClient unit :=
  data_available <- on_port (serialport self)
                            (input_dat_avail (input_buffer_r_index self)) ;;
  send (Words 0 0 0 data_available).

(** *** class PigpioClient *)

(** The [for serialport in self.virtual_hardware.serialports] of SERO: the
    position of the first port with this name and this baud rate. *)
Fixpoint find_port (ports : list SerialPort) (k : nat) (name : string)
    (p1 : Z) : option nat :=
  match ports with
  | [] => None
  | sp :: rest =>
    if String.eqb (port sp) name && (baudrate sp =? p1) then Some k
    else find_port rest (S k) name p1
  end.

(** The [if cmd == ... elif ... else] of [run], on a parsed frame. *)
Definition dispatch (cmd p1 : Z) (p2 : list byte) (p3 : Z)
  : M PigpioClient unit :=
  if cmd =? _PI_CMD_SERO then
    e <- gets ext ;;
    name <- match e with
            | Unbound => raise UnboundLocalError
            | StrVal _ => raise AttributeError
            | BytesVal b => lift (decode_ascii b)
            end ;;
    modify (set_ext (StrVal name)) ;;;
    hw <- gets virtual_hardware ;;
    match find_port (serialports hw) 0 name p1 with
    | Some ref =>
      insts <- gets serial_instances ;;
      modify (set_instances
                (insts ++ [PigpioSerialInstance_init ref (len insts)])) ;;;
      insts <- gets serial_instances ;;
      last <- lift (getitem insts (-1)) ;;
      open (position insts (-1)) last p2 p1
    | None =>
      send (Words 0 0 0 (-1)) ;;;
      logger (Error_does_not_exist p2)
    end
  else if cmd =? _PI_CMD_SERC then
    insts <- gets serial_instances ;;
    self <- lift (getitem insts p1) ;;
    close self
  else if cmd =? _PI_CMD_SERW then
    insts <- gets serial_instances ;;
    self <- lift (getitem insts p1) ;;
    write_request self p2
  else if cmd =? _PI_CMD_SERR then
    p2 <- lift (unpack_I p2) ;;
    insts <- gets serial_instances ;;
    self <- lift (getitem insts p1) ;;
    read_request (position insts p1) self p2
  else if cmd =? _PI_CMD_SERDA then
    insts <- gets serial_instances ;;
    self <- lift (getitem insts p1) ;;
    data_available_request self
  else
    logger (Warn_not_implemented cmd).

(** The body of the loop after the header is unpacked: the extension is
    received when [p3] is not zero, the frame is logged and dispatched. *)
Definition on_frame (cmd p1 : Z) (p2 : list byte) (p3 : Z)
  : M PigpioClient unit :=
  p2 <- (if p3 =? 0 then ret p2
         else
           chunk <- recv p3 ;;
           e <- lift (unpack_s p3 chunk) ;;
           modify (set_ext (BytesVal e)) ;;;
           ret (p2 ++ e)) ;;
  i <- gets id ;;
  logger (Debug_new_frame i) ;;;
  logger (Debug_cmd cmd) ;;;
  logger (Debug_p1 p1) ;;;
  logger (Debug_p2 p2) ;;;
  logger (Debug_p3 p3) ;;;
  dispatch cmd p1 p2 p3.

(** One turn of the [while] loop: [true] to go round again, [false] for
    [break].  No [socket.timeout] can come from [recv], the timeout of the
    connection being off; any other exception leaves [run]. *)
Definition iteration : M PigpioClient bool :=
  raw <- recv 16 ;;
  match raw with
  | [] =>
    i <- gets id ;;
    logger (Info_connection_lost i) ;;;
    ret false
  | _ =>
    h <- lift (unpack_II4sI raw) ;;
    let '(cmd, p1, p2, p3) := h in
    on_frame cmd p1 p2 p3 ;;;
    ret true
  end.

(** [run], for a client nobody stops from outside: the greeting, then the
    loop for at most [fuel] turns.  The result is [true] when the loop was
    left by [break]. *)
Fixpoint loop (fuel : nat) : M PigpioClient bool :=
  match fuel with
  | O => ret false
  | S fuel' =>
    go <- iteration ;;
    if go then loop fuel' else ret true
  end.

Definition run (fuel : nat) : M PigpioClient bool :=
  modify (fun c =>
    set_notification_conn_out (notification_conn_out c ++ [Words 10 0 0 0]) c) ;;;
  loop fuel.

(** ** Frames as the client library sends them *)

Definition byte_of (v : Z) : byte :=
  match Byte.of_N (Z.to_N (v mod 256)) with
  | Some b => b
  | None => x00
  end.

(** [struct.pack('I', v)] *)
Definition pack_I (v : Z) : list byte :=
  [byte_of v; byte_of (v / 256); byte_of (v / 65536); byte_of (v / 16777216)].

Definition bytes_of (s : string) : list byte := list_byte_of_string s.

(** The header [cmd, p1, p2, p3] followed by the extension. *)
Definition frame (cmd p1 : Z) (p2 : list byte) (extension : list byte)
  : list byte :=
  pack_I cmd ++ pack_I p1 ++ p2 ++ pack_I (len extension) ++ extension.

(** The hardware of [main]. *)
Definition main_hardware : VirtualHardware :=
  add_serialport "/dev/ttyUSBMotorCard" 115200
    (add_serialport "/dev/ttyAMA0" 115200 VirtualHardware_init).

(** The state a result leaves behind. *)
Definition state_of {S A} (r : res S A) : S :=
  match r with
  | Ok _ s => s
  | Raise _ s => s
  end.

(** ** Predicates on ports and clients, scenarios, and the sentences of
    the specification that the code refutes *)

(** The input side of a port: a positive capacity, a storage that holds at
    least that many bytes, a write index inside the capacity. *)
Definition input_wf (self : SerialPort) : Prop :=
  0 < input_buffer_size self /\
  input_buffer_size self <= len (input_buffer self) /\
  0 <= input_buffer_w_index self < input_buffer_size self.

Definition output_wf (self : SerialPort) : Prop :=
  0 < output_buffer_size self /\
  output_buffer_size self <= len (output_buffer self) /\
  0 <= output_buffer_w_index self < output_buffer_size self.

Definition port_wf (self : SerialPort) : Prop :=
  input_wf self /\ output_wf self.

(** The storage has exactly [capacity] elements, on both sides. *)
Definition storage_exact (self : SerialPort) : Prop :=
  len (input_buffer self) = input_buffer_size self /\
  len (output_buffer self) = output_buffer_size self.

(** The sentence on writing then reading, as the specification has it. *)
Definition write_then_read_claim : Prop :=
  forall (self : SerialPort) (s : list byte),
    port_wf self -> storage_exact self ->
    len s <= input_buffer_size self ->
    let r := input_buffer_w_index self in
    exists self' r',
      put_input s self = Ok tt self' /\
      get_input (len s) r self' = Ok (s, r') self' /\
      input_dat_avail r self' = Ok (len s) self'.

(** The sentence on a read that clamps by itself, as the specification
    has it. *)
Definition read_clamps_claim : Prop :=
  forall (self : SerialPort) (maxLen cursor : Z) (d : list byte) (c' : Z),
    port_wf self -> storage_exact self ->
    0 <= cursor < input_buffer_size self -> 0 <= maxLen ->
    get_input maxLen cursor self = Ok (d, c') self ->
    forall n, input_dat_avail cursor self = Ok n self -> len d <= n.

(** The handle of a binding is its position in the list. *)
Definition handles_ok (c : PigpioClient) : Prop :=
  forall k b, nth_error (serial_instances c) k = Some b ->
              handle_id b = Z.of_nat k.

(** Every binding refers to a port of the hardware. *)
Definition refs_ok (c : PigpioClient) : Prop :=
  forall b, In b (serial_instances c) ->
            (serialport b < length (serialports (virtual_hardware c)))%nat.

(** The sentence on closing, as the specification has it: the binding is
    taken out of the list, and the handle no longer addresses it. *)
Definition serc_claim : Prop :=
  forall (c : PigpioClient) (p1 : Z) (p2 : list byte)
         (b : PigpioSerialInstance),
    handles_ok c -> refs_ok c -> 0 <= p1 ->
    getitem (serial_instances c) p1 = inr b ->
    exists c',
      on_frame _PI_CMD_SERC p1 p2 0 c = Ok tt c' /\
      main_conn_out c' = main_conn_out c ++ [Words 0 0 0 p1] /\
      len (serial_instances c') = len (serial_instances c) - 1 /\
      getitem (serial_instances c') p1 <> inr b.

(** A small hardware and a client with one binding on it, as left by a
    SERO for [/dev/ttyAMA0]; [stream] is what the peer has sent since. *)
Definition demo_hardware : VirtualHardware :=
  {| serialports := [SerialPort_init "/dev/ttyAMA0" 115200 8 8] |}.

Definition demo_client (stream : list byte) : PigpioClient :=
  {| id := 0;
     virtual_hardware := demo_hardware;
     serial_instances := [PigpioSerialInstance_init 0 0];
     ext := StrVal "/dev/ttyAMA0";
     main_conn_in := stream;
     main_conn_out := [Words 0 0 0 0];
     notification_conn_out := [Words 10 0 0 0];
     log := [] |}.

(** The five debug lines of a frame. *)
Definition debug_lines (i cmd p1 : Z) (p2 : list byte) (p3 : Z)
  : list log_entry :=
  [Debug_new_frame i; Debug_cmd cmd; Debug_p1 p1; Debug_p2 p2; Debug_p3 p3].

(** The client when a frame without extension reaches the dispatch. *)
Definition at_dispatch (cmd p1 : Z) (p2 : list byte) (c : PigpioClient)
  : PigpioClient :=
  set_log (log c ++ debug_lines (id c) cmd p1 p2 0) c.

(** The client when a frame with the extension [e] reaches the dispatch,
    [rest] being what follows [e] on the socket. *)
Definition at_dispatch_ext (cmd p1 : Z) (p2 e rest : list byte)
    (c : PigpioClient) : PigpioClient :=
  set_log (log c ++ debug_lines (id c) cmd p1 (p2 ++ e) (len e))
          (set_ext (BytesVal e) (set_main_conn_in rest c)).

(** The sentence on opening, as the specification has it: the name is the
    [p2] field followed by the extension. *)
Definition sero_claim : Prop :=
  forall (c : PigpioClient) (p1 : Z) (p2 e rest : list byte) (name : string),
    len p2 = 4 ->
    main_conn_in c = e ++ rest -> e <> [] ->
    decode_ascii (p2 ++ e) = inr name ->
    let ports := serialports (virtual_hardware c) in
    let handle := len (serial_instances c) in
    ((exists sp, In sp ports /\ port sp = name /\ baudrate sp = p1) ->
     exists c' b,
       on_frame _PI_CMD_SERO p1 p2 (len e) c = Ok tt c' /\
       serial_instances c' = serial_instances c ++ [b] /\
       main_conn_out c' = main_conn_out c ++ [Words 0 0 0 handle])
    /\
    ((forall sp, In sp ports -> ~ (port sp = name /\ baudrate sp = p1)) ->
     exists c',
       on_frame _PI_CMD_SERO p1 p2 (len e) c = Ok tt c' /\
       serial_instances c' = serial_instances c /\
       main_conn_out c' = main_conn_out c ++ [Words 0 0 0 (-1)]).

(** The exception a result carries, if any. *)
Definition raised {S A} (r : res S A) : option exn :=
  match r with
  | Ok _ _ => None
  | Raise e _ => Some e
  end.

Definition value_of {S A} (r : res S A) : option A :=
  match r with
  | Ok a _ => Some a
  | Raise _ _ => None
  end.

(** The emulated device puts [data] into port [k] of the hardware of the
    client ([put_input] called by a tool or a test). *)
Definition device_sends (k : nat) (data : list byte) : M PigpioClient unit :=
  on_port k (put_input data).

(** The requests of the scenario below, as the device and the client
    make them: three bytes arrive before the client opens the port, and
    9997 after. *)
Definition boundary_scenario : M PigpioClient Z :=
  device_sends 0 (bytes_of "abc") ;;;
  iteration ;;;
  device_sends 0 (repeat "x"%byte (Z.to_nat 9997)) ;;;
  avail <- on_port 0 (input_dat_avail 3) ;;
  iteration ;;;
  ret avail.

(** Handles are positions and bindings refer to ports. *)
Definition client_ok (c : PigpioClient) : Prop := handles_ok c /\ refs_ok c.

(** A computation that keeps the invariant, whether it returns or
    raises. *)
Definition preserves {A} (m : M PigpioClient A) : Prop :=
  forall c, client_ok c -> client_ok (state_of (m c)).

(** pigpiod_pepino_interface.py, the body of the loop that forwards what
    the client wrote to the motor card: the availability on the output
    side at the cursor of the bridge and, when there is something, a read
    of that many bytes, which are sent on; the result is what is sent, if
    anything, and the cursor of the bridge afterwards. *)
Definition bridge_poll (motor_card_read_index : Z)
  : M SerialPort (option (list byte) * Z) :=
  motor_data_nb <- output_dat_avail motor_card_read_index ;;
  if motor_data_nb >? 0 then
    r <- get_output motor_data_nb motor_card_read_index ;;
    ret (Some (fst r), snd r)
  else ret (None, motor_card_read_index).

(** A computation whose final state, returned or raised with, is always
    related by [R] to the state it started from. *)
Definition keeps {A} (R : PigpioClient -> PigpioClient -> Prop)
    (m : M PigpioClient A) : Prop :=
  forall c, R c (state_of (m c)).

(** What the client never changes in a port: its name, bit rate and
    capacities, and its input side. *)
Definition input_side (sp : SerialPort)
  : string * Z * Z * Z * Z * list byte :=
  (port sp, baudrate sp, input_buffer_size sp, output_buffer_size sp,
   input_buffer_w_index sp, input_buffer sp).

Definition registry_kept (c c' : PigpioClient) : Prop :=
  map input_side (serialports (virtual_hardware c'))
  = map input_side (serialports (virtual_hardware c)).

Definition hardware_kept (c c' : PigpioClient) : Prop :=
  virtual_hardware c' = virtual_hardware c.

(** What identifies a binding: its port and its handle. *)
Definition binding_key (b : PigpioSerialInstance) : nat * Z :=
  (serialport b, handle_id b).

Definition bindings_extended (c c' : PigpioClient) : Prop :=
  exists more,
    map binding_key (serial_instances c')
    = map binding_key (serial_instances c) ++ more.

Definition stream_shrinks (c c' : PigpioClient) : Prop :=
  (length (main_conn_in c') <= length (main_conn_in c))%nat.

(** The client after the dispatch of a SERO that found the port [sp] at
    position [ref] under the name [name]. *)
Definition after_open (ref : nat) (sp : SerialPort) (name : string)
    (p1 : Z) (p2 : list byte) (c : PigpioClient) : PigpioClient :=
  let h := len (serial_instances c) in
  set_log (log c ++ [Info_attached h p2 p1])
    (set_main_conn_out (main_conn_out c ++ [Words 0 0 0 h])
       (set_instances
          (serial_instances c
             ++ [mkInstance ref h (input_buffer_w_index sp)
                            (output_buffer_w_index sp)])
          (set_ext (StrVal name) c))).

(** The client after the dispatch of a SERO that found no port. *)
Definition after_refusal (name : string) (p2 : list byte)
    (c : PigpioClient) : PigpioClient :=
  set_log (log c ++ [Error_does_not_exist p2])
    (set_main_conn_out (main_conn_out c ++ [Words 0 0 0 (-1)])
       (set_ext (StrVal name) c)).

(** The client after the dispatch of a SERW that wrote [to_add] through
    the binding [b], [sp'] being the port after the write. *)
Definition after_write (b : PigpioSerialInstance) (sp' : SerialPort)
    (to_add : list byte) (c : PigpioClient) : PigpioClient :=
  set_main_conn_out (main_conn_out c ++ [Words 0 0 0 (handle_id b)])
    (set_log (log c ++ [Info_written (handle_id b) to_add])
       (set_hardware
          (mkVirtualHardware
             (update (serialports (virtual_hardware c)) (serialport b) sp'))
          c)).

(** The client after the dispatch of a SERR that read [d] through the
    binding [b] at position [k], [r'] being the cursor after the read. *)
Definition after_read (k : nat) (b : PigpioSerialInstance) (d : list byte)
    (r' : Z) (c : PigpioClient) : PigpioClient :=
  set_main_conn_out (main_conn_out c ++ [Words 0 0 0 (len d); Bytes d])
    (set_log (log c ++ [Info_read (handle_id b) d])
       (set_instances
          (update (serial_instances c) k (set_input_r_index r' b)) c)).

(** What one frame of the command [cmd] is answered with, when it is
    answered: a header and the bytes for SERR, a header alone for the
    four other commands of the dispatch, nothing for any other command. *)
Definition answer_shape (cmd : Z) (answer : list packet) : Prop :=
  if cmd =? _PI_CMD_SERR then
    exists d, answer = [Words 0 0 0 (len d); Bytes d]
  else if (cmd =? _PI_CMD_SERO) || (cmd =? _PI_CMD_SERC)
          || (cmd =? _PI_CMD_SERW) || (cmd =? _PI_CMD_SERDA) then
    exists r, answer = [Words 0 0 0 r]
  else answer = [].

(** pigpiod_pepino_interface.py, [motor_card_recv_Thread.run], of which
    [user_card_recv_Thread.run] is a copy for the other port: what the
    card sends is received one byte at a time, and each byte is put into
    the input side of the port of the card.  [sent] is what the card
    sends. *)
Fixpoint motor_card_recv_Thread_run (sent : list byte) : M SerialPort unit :=
  match sent with
  | [] => ret tt
  | x :: rest => put_input [x] ;;; motor_card_recv_Thread_run rest
  end.

(** A client on a hardware without ports that has no binding and has
    sent nothing but refusals. *)
Definition refused_only (c : PigpioClient) : Prop :=
  serial_instances c = [] /\
  virtual_hardware c = VirtualHardware_init /\
  Forall (fun p => p = Words 0 0 0 (-1)) (main_conn_out c).

(** Running the client monad on an explicit client. *)
Ltac run_client :=
  cbv beta iota zeta delta
    [Py.bind gets modify ret lift raise send logger on_instance on_port
     open close write_request read_request data_available_request bind_port
     id virtual_hardware serial_instances ext main_conn_in main_conn_out
     notification_conn_out log set_hardware set_instances set_ext
     set_main_conn_in set_main_conn_out set_notification_conn_out set_log
     serialports fst snd serialport handle_id input_buffer_r_index
     output_buffer_r_index PigpioSerialInstance_init set_r_indexes
     set_input_r_index].

(** ** Slices of a list, for bounds inside it *)

Section Slices.

Context {A : Type}.
Implicit Types l d : list A.

Lemma norm_index_inside n i : 0 <= i <= n -> norm_index n i = i.
Proof.
  intros H. unfold norm_index.
  destruct (Z.ltb_spec i 0); lia.
Qed.

Lemma norm_index_beyond n i : 0 <= n <= i -> norm_index n i = n.
Proof.
  intros H. unfold norm_index.
  destruct (Z.ltb_spec i 0); lia.
Qed.

Lemma len_nonneg l : 0 <= len l.
Proof. unfold len. lia. Qed.

Lemma len_app l d : len (l ++ d) = len l + len d.
Proof. unfold len. rewrite length_app. lia. Qed.

Lemma slice_inside l i j :
  0 <= i -> i <= j -> j <= len l ->
  slice l i j = firstn (Z.to_nat (j - i)) (skipn (Z.to_nat i) l).
Proof.
  intros Hi Hij Hj. unfold slice.
  rewrite !norm_index_inside by lia. reflexivity.
Qed.

Lemma slice_backwards l i j : 0 <= j <= i -> slice l i j = [].
Proof.
  intros H. unfold slice, norm_index.
  destruct (Z.ltb_spec i 0); destruct (Z.ltb_spec j 0); try lia.
  replace (Z.to_nat (Z.min j (len l) - Z.min i (len l))) with O by lia.
  reflexivity.
Qed.

Lemma slice_to_inside d j :
  0 <= j <= len d -> slice_to d j = firstn (Z.to_nat j) d.
Proof.
  intros H. unfold slice_to. now rewrite norm_index_inside.
Qed.

Lemma slice_from_inside d i :
  0 <= i <= len d -> slice_from d i = skipn (Z.to_nat i) d.
Proof.
  intros H. unfold slice_from. now rewrite norm_index_inside.
Qed.

Lemma set_slice_inside l i j d :
  0 <= i -> i <= j -> j <= len l ->
  set_slice l i j d = firstn (Z.to_nat i) l ++ d ++ skipn (Z.to_nat j) l.
Proof.
  intros Hi Hij Hj. unfold set_slice.
  rewrite !norm_index_inside by lia.
  now rewrite Z.max_r by lia.
Qed.

(** A slice assignment whose upper bound is below its lower bound removes
    nothing: the new elements are inserted. *)
Lemma set_slice_backwards l i j d :
  0 <= j <= i -> i <= len l ->
  set_slice l i j d = firstn (Z.to_nat i) l ++ d ++ skipn (Z.to_nat i) l.
Proof.
  intros Hj Hi. unfold set_slice.
  rewrite !norm_index_inside by lia.
  now rewrite Z.max_l by lia.
Qed.

Lemma set_slice_from_inside l i d :
  0 <= i <= len l ->
  set_slice_from l i d = firstn (Z.to_nat i) l ++ d.
Proof.
  intros H. unfold set_slice_from. now rewrite norm_index_inside.
Qed.

Lemma len_firstn l (k : Z) : 0 <= k <= len l -> len (firstn (Z.to_nat k) l) = k.
Proof. unfold len. intros H. rewrite length_firstn. lia. Qed.

Lemma len_skipn l (k : Z) : 0 <= k <= len l -> len (skipn (Z.to_nat k) l) = len l - k.
Proof. unfold len. intros H. rewrite length_skipn. lia. Qed.

Lemma firstn_app_exact l d (k : nat) :
  k = length l -> firstn k (l ++ d) = l.
Proof.
  intros ->. rewrite firstn_app, Nat.sub_diag, firstn_all. simpl.
  apply app_nil_r.
Qed.

Lemma skipn_app_exact l d (k : nat) :
  k = length l -> skipn k (l ++ d) = d.
Proof.
  intros ->. rewrite skipn_app, Nat.sub_diag, skipn_all. reflexivity.
Qed.

End Slices.

(** ** Arithmetic of the cursors *)

Lemma mod_once C x : 0 < C -> C <= x < 2 * C -> x mod C = x - C.
Proof.
  intros HC Hx. symmetry. apply Z.mod_unique with (q := 1); lia.
Qed.

Lemma mod_exact C : 0 < C -> C mod C = 0.
Proof. intros. apply Z.mod_same. lia. Qed.

Lemma mod__ok a C : C <> 0 -> mod_ a C = inr (a mod C).
Proof.
  intros H. unfold mod_. destruct (Z.eqb_spec C 0); congruence.
Qed.

(** ** The circular buffer *)

Section Ring.

Variable C : Z.
Hypothesis C_pos : 0 < C.

Implicit Types buffer data : list byte.

(** The write index always moves to [(w + len data) % size]. *)
Lemma ring_put_cursor w buffer data :
  exists b, ring_put C w buffer data = inr (b, (w + len data) mod C).
Proof.
  unfold ring_put. rewrite mod__ok by lia.
  destruct (w + len data >? C); eauto.
Qed.

(** A write that stays below the end of the storage. *)
Lemma ring_put_inside w buffer data :
  0 <= w -> w + len data < C -> C <= len buffer ->
  ring_put C w buffer data =
  inr (firstn (Z.to_nat w) buffer ++ data
         ++ skipn (Z.to_nat (w + len data)) buffer,
       w + len data).
Proof.
  intros Hw Hn HL. pose proof (len_nonneg data).
  unfold ring_put. rewrite mod__ok by lia.
  rewrite Z.mod_small by lia.
  destruct (Z.gtb_spec (w + len data) C); [lia|].
  now rewrite set_slice_inside by lia.
Qed.

(** A write that ends exactly at the end of the storage: the goal index
    is [0], the slice [w:0] is empty, and the data are inserted. *)
Lemma ring_put_boundary w buffer data :
  0 <= w -> w + len data = C -> w <= len buffer ->
  ring_put C w buffer data =
  inr (firstn (Z.to_nat w) buffer ++ data ++ skipn (Z.to_nat w) buffer, 0).
Proof.
  intros Hw Hn HL.
  unfold ring_put. rewrite mod__ok by lia.
  rewrite Hn, mod_exact by lia.
  destruct (Z.gtb_spec C C); [lia|].
  now rewrite set_slice_backwards by lia.
Qed.

(** A write that goes round the end of the storage. *)
Lemma ring_put_wrap w buffer data :
  0 <= w < C -> C < w + len data -> len data <= C -> w <= len buffer ->
  ring_put C w buffer data =
  inr (skipn (Z.to_nat (C - w)) data
         ++ skipn (Z.to_nat (w + len data - C))
                  (firstn (Z.to_nat w) buffer
                     ++ firstn (Z.to_nat (C - w)) data),
       w + len data - C).
Proof.
  intros Hw Hn Hd HL.
  unfold ring_put. rewrite mod__ok by lia.
  rewrite mod_once by lia.
  destruct (Z.gtb_spec (w + len data) C); [|lia].
  rewrite set_slice_from_inside by lia.
  rewrite slice_to_inside, slice_from_inside by lia.
  rewrite set_slice_inside.
  - reflexivity.
  - lia.
  - lia.
  - rewrite len_app, !len_firstn by lia. lia.
Qed.

Lemma ring_get_cursor buffer sz r :
  exists d, ring_get C buffer sz r = inr (d, (r + sz) mod C).
Proof.
  unfold ring_get. rewrite mod__ok by lia.
  destruct (r + sz >? C); eauto.
Qed.

Lemma ring_get_inside buffer sz r :
  0 <= r -> 0 <= sz -> r + sz < C -> C <= len buffer ->
  ring_get C buffer sz r =
  inr (firstn (Z.to_nat sz) (skipn (Z.to_nat r) buffer), r + sz).
Proof.
  intros Hr Hs Hn HL.
  unfold ring_get. rewrite mod__ok by lia.
  rewrite Z.mod_small by lia.
  destruct (Z.gtb_spec (r + sz) C); [lia|].
  rewrite slice_inside by lia. do 3 f_equal. lia.
Qed.

(** A read that ends exactly at the end of the storage: the goal index is
    [0] and the slice [r:0] is empty. *)
Lemma ring_get_boundary buffer sz r :
  0 <= r -> r + sz = C -> ring_get C buffer sz r = inr ([], 0).
Proof.
  intros Hr Hn.
  unfold ring_get. rewrite mod__ok by lia.
  rewrite Hn, mod_exact by lia.
  destruct (Z.gtb_spec C C); [lia|].
  now rewrite slice_backwards by lia.
Qed.

Lemma ring_get_wrap buffer sz r :
  0 <= r < C -> C < r + sz -> sz <= C -> C <= len buffer ->
  ring_get C buffer sz r =
  inr (firstn (Z.to_nat (C - r)) (skipn (Z.to_nat r) buffer)
         ++ firstn (Z.to_nat (r + sz - C)) buffer,
       r + sz - C).
Proof.
  intros Hr Hn Hs HL.
  unfold ring_get. rewrite mod__ok by lia.
  rewrite mod_once by lia.
  destruct (Z.gtb_spec (r + sz) C); [|lia].
  rewrite !slice_inside by lia.
  rewrite Z.sub_0_r. reflexivity.
Qed.

(** Between two cursors in range, the availability is the distance from
    the reader to the writer round the ring. *)
Lemma ring_avail_mod w r :
  0 <= w < C -> 0 <= r < C -> ring_avail C w r = (w - r) mod C.
Proof.
  intros Hw Hr. unfold ring_avail.
  destruct (Z.gtb_spec w r).
  - now rewrite Z.mod_small by lia.
  - destruct (Z.ltb_spec w r).
    + apply Z.mod_unique with (q := -1); lia.
    + replace (w - r) with 0 by lia. now rewrite Z.mod_0_l by lia.
Qed.

Lemma ring_avail_same w : ring_avail C w w = 0.
Proof.
  unfold ring_avail.
  destruct (Z.gtb_spec w w); [lia|].
  destruct (Z.ltb_spec w w); [lia|reflexivity].
Qed.

Lemma ring_avail_range w r :
  0 <= w < C -> 0 <= r < C -> 0 <= ring_avail C w r < C.
Proof.
  intros Hw Hr. rewrite ring_avail_mod by assumption.
  apply Z.mod_pos_bound. lia.
Qed.

(** The lengths of the storage after a write. *)
Lemma ring_put_length w buffer data b w' :
  0 <= w < C -> len data <= C -> len buffer = C ->
  w + len data <> C ->
  ring_put C w buffer data = inr (b, w') -> len b = C.
Proof.
  intros Hw Hd HL Hne E. pose proof (len_nonneg data).
  destruct (Z.lt_ge_cases (w + len data) C).
  - rewrite ring_put_inside in E by lia. injection E as <- <-.
    rewrite !len_app, len_firstn, len_skipn by lia. lia.
  - rewrite ring_put_wrap in E by lia. injection E as <- <-.
    rewrite len_app, !len_skipn.
    + rewrite len_app, !len_firstn by lia. lia.
    + rewrite len_app, !len_firstn by lia. lia.
    + lia.
Qed.

Lemma ring_put_length_boundary w buffer data b w' :
  0 <= w -> w + len data = C -> len buffer = C ->
  ring_put C w buffer data = inr (b, w') -> len b = C + len data.
Proof.
  intros Hw Hn HL E. pose proof (len_nonneg data).
  rewrite ring_put_boundary in E by lia. injection E as <- <-.
  rewrite !len_app, len_firstn, len_skipn by lia. lia.
Qed.

(** Whatever is written, the storage never gets shorter than the
    capacity and the write index stays in range. *)
Lemma ring_put_keeps w buffer data b w' :
  0 <= w < C -> C <= len buffer ->
  ring_put C w buffer data = inr (b, w') ->
  C <= len b /\ 0 <= w' < C.
Proof.
  intros Hw HL E. pose proof (len_nonneg data) as Hd.
  split.
  2:{ destruct (ring_put_cursor w buffer data) as [b0 E0].
      rewrite E0 in E. injection E as _ <-.
      apply Z.mod_pos_bound. lia. }
  revert E. unfold ring_put. rewrite mod__ok by lia.
  pose proof (Z.mod_pos_bound (w + len data) C C_pos) as Hg.
  destruct (Z.gtb_spec (w + len data) C); intros E; injection E as <- <-.
  - rewrite set_slice_from_inside by lia.
    rewrite slice_to_inside, slice_from_inside by lia.
    assert (H1 : len (firstn (Z.to_nat w) buffer
                        ++ firstn (Z.to_nat (C - w)) data) = C).
    { rewrite len_app, !len_firstn by lia. lia. }
    unfold set_slice. rewrite H1.
    rewrite !norm_index_inside by lia. rewrite Z.max_r by lia.
    simpl. rewrite len_app, !len_skipn by lia.
    assert (C <= w + len data - (w + len data) mod C); [|lia].
    pose proof (Z.div_mod (w + len data) C ltac:(lia)) as Hdm.
    assert (1 <= (w + len data) / C).
    { apply Z.div_le_lower_bound; lia. }
    nia.
  - destruct (Z.eq_dec (w + len data) C) as [Heq|Hne].
    + rewrite Heq, mod_exact by lia.
      rewrite set_slice_backwards by lia.
      rewrite !len_app, len_firstn, len_skipn by lia. lia.
    + rewrite Z.mod_small by lia.
      rewrite set_slice_inside by lia.
      rewrite !len_app, len_firstn, len_skipn by lia. lia.
Qed.

(** What a write puts down is what a read of the same length takes up from
    the old write index, unless the write ends exactly at the end of the
    storage. *)
Lemma ring_round_trip w buffer data b w' :
  0 <= w < C -> len data <= C -> C <= len buffer ->
  w + len data <> C ->
  ring_put C w buffer data = inr (b, w') ->
  ring_get C b (len data) w = inr (data, w').
Proof.
  intros Hw Hd HL Hne E. pose proof (len_nonneg data) as Hn.
  assert (Hlw : length (firstn (Z.to_nat w) buffer) = Z.to_nat w).
  { rewrite length_firstn. unfold len in HL. lia. }
  destruct (Z.lt_ge_cases (w + len data) C) as [Hlt|Hge].
  - rewrite ring_put_inside in E by lia. injection E as <- <-.
    rewrite ring_get_inside.
    + rewrite skipn_app_exact by (now rewrite Hlw).
      rewrite firstn_app_exact; [reflexivity|]. unfold len. lia.
    + lia.
    + lia.
    + lia.
    + rewrite !len_app, len_firstn, len_skipn by lia. lia.
  - rewrite ring_put_wrap in E by lia. injection E as <- <-.
    set (head := skipn (Z.to_nat (C - w)) data).
    set (old := firstn (Z.to_nat w) buffer ++ firstn (Z.to_nat (C - w)) data).
    assert (Hhead : length head = Z.to_nat (w + len data - C)).
    { unfold head. rewrite length_skipn. unfold len in *. lia. }
    assert (Hold : len old = C).
    { unfold old. rewrite len_app, !len_firstn by lia. lia. }
    rewrite ring_get_wrap.
    + rewrite firstn_app_exact by (now rewrite Hhead).
      rewrite skipn_app, Hhead.
      rewrite (skipn_all2 head) by lia. simpl.
      rewrite skipn_skipn.
      replace (Z.to_nat w - Z.to_nat (w + len data - C)
               + Z.to_nat (w + len data - C))%nat
        with (Z.to_nat w) by lia.
      unfold old. rewrite skipn_app_exact by (now rewrite Hlw).
      rewrite firstn_firstn, Nat.min_id.
      unfold head. now rewrite firstn_skipn.
    + lia.
    + lia.
    + lia.
    + rewrite len_app, len_skipn by lia.
      unfold len at 1. rewrite Hhead. lia.
Qed.

(** A read hands out the stored bytes at [r], [r + 1], ... round the ring,
    as many as were asked for, wherever the write index is. *)
Lemma ring_get_elements buffer sz r d r' :
  0 <= r < C -> 0 <= sz <= C -> C <= len buffer ->
  r + sz <> C ->
  ring_get C buffer sz r = inr (d, r') ->
  r' = (r + sz) mod C /\ len d = sz /\
  forall i, 0 <= i < sz ->
    nth_error d (Z.to_nat i) = nth_error buffer (Z.to_nat ((r + i) mod C)).
Proof.
  intros Hr Hs HL Hne E.
  destruct (Z.lt_ge_cases (r + sz) C) as [Hlt|Hge].
  - rewrite ring_get_inside in E by lia. injection E as <- <-.
    split; [now rewrite Z.mod_small by lia|].
    split.
    + unfold len in *. rewrite length_firstn, length_skipn. lia.
    + intros i Hi. rewrite Z.mod_small by lia.
      rewrite nth_error_firstn.
      destruct (Nat.ltb_spec (Z.to_nat i) (Z.to_nat sz)); [|lia].
      rewrite nth_error_skipn. f_equal. lia.
  - rewrite ring_get_wrap in E by lia. injection E as <- <-.
    assert (Hl1 : length (firstn (Z.to_nat (C - r))
                                 (skipn (Z.to_nat r) buffer))
                  = Z.to_nat (C - r)).
    { rewrite length_firstn, length_skipn. unfold len in HL. lia. }
    split; [now rewrite mod_once by lia|].
    split.
    + unfold len in *. rewrite length_app, Hl1, length_firstn. lia.
    + intros i Hi.
      destruct (Z.lt_ge_cases (r + i) C) as [Hin|Hout].
      * rewrite Z.mod_small by lia.
        rewrite nth_error_app1 by lia.
        rewrite nth_error_firstn.
        destruct (Nat.ltb_spec (Z.to_nat i) (Z.to_nat (C - r))); [|lia].
        rewrite nth_error_skipn. f_equal. lia.
      * rewrite mod_once by lia.
        rewrite nth_error_app2 by lia.
        rewrite Hl1, nth_error_firstn.
        destruct (Nat.ltb_spec (Z.to_nat i - Z.to_nat (C - r))
                               (Z.to_nat (r + sz - C))); [|lia].
        f_equal. lia.
Qed.

End Ring.

(** ** Well-formed ports *)

Lemma SerialPort_init_wf name baud n m :
  0 < n -> 0 < m ->
  port_wf (SerialPort_init name baud n m) /\
  storage_exact (SerialPort_init name baud n m).
Proof.
  intros Hn Hm. unfold port_wf, input_wf, output_wf, storage_exact, len.
  simpl. rewrite !repeat_length. lia.
Qed.

(** Writes keep a port well formed, whatever their length. *)
Lemma put_input_wf self data :
  port_wf self ->
  exists self', put_input data self = Ok tt self' /\ port_wf self'.
Proof.
  intros [(Hc & HL & Hw) Ho]. unfold put_input.
  destruct (ring_put_cursor (input_buffer_size self) Hc
              (input_buffer_w_index self) (input_buffer self) data)
    as [b E].
  rewrite E. eexists. split; [reflexivity|].
  destruct (ring_put_keeps _ Hc _ _ _ _ _ Hw HL E) as [HL' Hw'].
  split; [|exact Ho]. unfold input_wf. simpl. auto.
Qed.

Lemma put_output_wf self data :
  port_wf self ->
  exists self', put_output data self = Ok tt self' /\ port_wf self'.
Proof.
  intros [Hi (Hc & HL & Hw)]. unfold put_output.
  destruct (ring_put_cursor (output_buffer_size self) Hc
              (output_buffer_w_index self) (output_buffer self) data)
    as [b E].
  rewrite E. eexists. split; [reflexivity|].
  destruct (ring_put_keeps _ Hc _ _ _ _ _ Hw HL E) as [HL' Hw'].
  split; [exact Hi|]. unfold output_wf. simpl. auto.
Qed.

(** ** The claims on the circular buffer *)

(** C5. For a read cursor [r] inside the capacity, the availability is
    [(writeCursor - r) mod capacity], and it is [0] when [r] is the write
    cursor; on the input side and on the output side alike. *)
Theorem dat_avail_distance (self : SerialPort) (r : Z) :
  port_wf self ->
  (0 <= r < input_buffer_size self ->
   input_dat_avail r self =
     Ok ((input_buffer_w_index self - r) mod input_buffer_size self) self
   /\ (r = input_buffer_w_index self -> input_dat_avail r self = Ok 0 self))
  /\
  (0 <= r < output_buffer_size self ->
   output_dat_avail r self =
     Ok ((output_buffer_w_index self - r) mod output_buffer_size self) self
   /\ (r = output_buffer_w_index self -> output_dat_avail r self = Ok 0 self)).
Proof.
  intros [(Hci & _ & Hwi) (Hco & _ & Hwo)].
  unfold input_dat_avail, output_dat_avail, gets.
  split; intros Hr; split.
  - now rewrite ring_avail_mod.
  - intros ->. now rewrite ring_avail_same.
  - now rewrite ring_avail_mod.
  - intros ->. now rewrite ring_avail_same.
Qed.

Lemma dat_avail_distance_witness :
  let p := SerialPort_init "/dev/ttyAMA0" 115200 8 8 in
  input_dat_avail 3 p = Ok ((0 - 3) mod 8) p /\
  output_dat_avail 0 p = Ok 0 p.
Proof.
  intro p.
  assert (W : port_wf p) by (apply SerialPort_init_wf; lia).
  destruct (dat_avail_distance p 3 W) as [Hi _].
  destruct (dat_avail_distance p 0 W) as [_ Ho].
  split.
  - apply Hi. simpl. lia.
  - apply Ho; [simpl; lia | reflexivity].
Defined.

(** C9. Reading and asking for the availability leave the port as it was,
    stored bytes and write indexes included, for every cursor and size; so
    two availability requests in a row at one cursor answer the same. *)
Theorem reads_leave_port_unchanged (self : SerialPort) (size r : Z) :
  state_of (get_input size r self) = self /\
  state_of (get_output size r self) = self /\
  state_of (input_dat_avail r self) = self /\
  state_of (output_dat_avail r self) = self /\
  (a <- input_dat_avail r ;; b <- input_dat_avail r ;; ret (a =? b)) self
    = Ok true self /\
  (a <- output_dat_avail r ;; b <- output_dat_avail r ;; ret (a =? b)) self
    = Ok true self.
Proof.
  repeat split.
  - unfold get_input, lift. now destruct ring_get.
  - unfold get_output, lift. now destruct ring_get.
  - unfold input_dat_avail, Py.bind, gets, ret. now rewrite Z.eqb_refl.
  - unfold output_dat_avail, Py.bind, gets, ret. now rewrite Z.eqb_refl.
Qed.

(** C3, as amended. A write of [s], no longer than the capacity and not
    ending exactly at the end of the storage, is read back whole by a read
    of [len s] bytes at the old write index, and the availability at that
    index is [len s], or [0] when [s] fills the whole capacity. *)
Theorem write_then_read (self : SerialPort) (s : list byte) :
  input_wf self ->
  len s <= input_buffer_size self ->
  input_buffer_w_index self + len s <> input_buffer_size self ->
  let r := input_buffer_w_index self in
  exists self',
    put_input s self = Ok tt self' /\
    get_input (len s) r self' = Ok (s, input_buffer_w_index self') self' /\
    input_dat_avail r self' =
      Ok (if len s =? input_buffer_size self then 0 else len s) self'.
Proof.
  intros (Hc & HL & Hw) Hs Hne r. subst r.
  pose proof (len_nonneg s) as Hn.
  destruct (ring_put_cursor (input_buffer_size self) Hc
              (input_buffer_w_index self) (input_buffer self) s) as [b E].
  exists (set_input b
            ((input_buffer_w_index self + len s) mod input_buffer_size self)
            self).
  split; [|split].
  - unfold put_input. now rewrite E.
  - unfold get_input, lift. simpl.
    now rewrite (ring_round_trip _ Hc _ _ _ _ _ Hw Hs HL Hne E).
  - unfold input_dat_avail, gets. simpl. f_equal.
    pose proof (Z.mod_pos_bound (input_buffer_w_index self + len s) _ Hc)
      as Hg.
    rewrite ring_avail_mod by (assumption || lia).
    rewrite Zminus_mod_idemp_l.
    replace (input_buffer_w_index self + len s - input_buffer_w_index self)
      with (len s) by lia.
    destruct (Z.eqb_spec (len s) (input_buffer_size self)) as [->|Hd].
    + now apply mod_exact.
    + apply Z.mod_small. lia.
Qed.

Lemma write_then_read_witness :
  let p := SerialPort_init "/dev/ttyAMA0" 115200 8 8 in
  exists p',
    put_input (bytes_of "abc") p = Ok tt p' /\
    get_input 3 0 p' = Ok (bytes_of "abc", input_buffer_w_index p') p' /\
    input_dat_avail 0 p' = Ok 3 p'.
Proof.
  intro p.
  apply (write_then_read p (bytes_of "abc")).
  - apply SerialPort_init_wf; lia.
  - simpl. vm_compute. discriminate.
  - simpl. vm_compute. discriminate.
Defined.

(** C3, as stated, fails: a write of [capacity] bytes brings the write
    index back to the reader, and the availability there is [0]. *)
Lemma write_then_read_counterexample : ~ write_then_read_claim.
Proof.
  intros H.
  pose (p := set_input (repeat x00 4) 1 (SerialPort_init "p" 9600 4 4)).
  destruct (H p (bytes_of "abcd")) as (p' & r' & Hput & _ & Hav).
  - unfold port_wf, input_wf, output_wf, len. simpl. lia.
  - split; reflexivity.
  - vm_compute. discriminate.
  - vm_compute in Hput. injection Hput as <-.
    vm_compute in Hav. discriminate.
Qed.

(** A write that ends exactly at the end of the storage inserts its data
    in front of the bytes it should have replaced. *)
Lemma put_input_boundary self data :
  input_wf self ->
  len (input_buffer self) = input_buffer_size self ->
  input_buffer_w_index self + len data = input_buffer_size self ->
  exists self',
    put_input data self = Ok tt self' /\
    input_buffer_w_index self' = 0 /\
    len (input_buffer self') = input_buffer_size self + len data.
Proof.
  intros (Hc & HL & Hw) Hex Hb. unfold put_input.
  rewrite (ring_put_boundary _ Hc) by lia.
  eexists. split; [reflexivity|]. simpl. split; [reflexivity|].
  rewrite !len_app, len_firstn, len_skipn by lia. lia.
Qed.

Lemma put_output_boundary self data :
  output_wf self ->
  len (output_buffer self) = output_buffer_size self ->
  output_buffer_w_index self + len data = output_buffer_size self ->
  exists self',
    put_output data self = Ok tt self' /\
    output_buffer_w_index self' = 0 /\
    len (output_buffer self') = output_buffer_size self + len data.
Proof.
  intros (Hc & HL & Hw) Hex Hb. unfold put_output.
  rewrite (ring_put_boundary _ Hc) by lia.
  eexists. split; [reflexivity|]. simpl. split; [reflexivity|].
  rewrite !len_app, len_firstn, len_skipn by lia. lia.
Qed.

(** Away from that case a write of at most [capacity] bytes keeps the
    storage at [capacity] elements. *)
Lemma put_input_keeps_length self data self' :
  input_wf self ->
  len (input_buffer self) = input_buffer_size self ->
  len data <= input_buffer_size self ->
  input_buffer_w_index self + len data <> input_buffer_size self ->
  put_input data self = Ok tt self' ->
  len (input_buffer self') = input_buffer_size self' /\
  input_buffer_w_index self' =
    (input_buffer_w_index self + len data) mod input_buffer_size self.
Proof.
  intros (Hc & HL & Hw) Hex Hd Hne. unfold put_input.
  destruct (ring_put_cursor _ Hc (input_buffer_w_index self)
              (input_buffer self) data) as [b E].
  rewrite E. intros H. injection H as <-. simpl. split; [|reflexivity].
  exact (ring_put_length _ Hc _ _ _ _ _ Hw Hd Hex Hne E).
Qed.

Lemma put_output_keeps_length self data self' :
  output_wf self ->
  len (output_buffer self) = output_buffer_size self ->
  len data <= output_buffer_size self ->
  output_buffer_w_index self + len data <> output_buffer_size self ->
  put_output data self = Ok tt self' ->
  len (output_buffer self') = output_buffer_size self' /\
  output_buffer_w_index self' =
    (output_buffer_w_index self + len data) mod output_buffer_size self.
Proof.
  intros (Hc & HL & Hw) Hex Hd Hne. unfold put_output.
  destruct (ring_put_cursor _ Hc (output_buffer_w_index self)
              (output_buffer self) data) as [b E].
  rewrite E. intros H. injection H as <-. simpl. split; [|reflexivity].
  exact (ring_put_length _ Hc _ _ _ _ _ Hw Hd Hex Hne E).
Qed.

(** C4, at the failing input. On a fresh port of the default capacity, a
    write of 10000 bytes (no longer than the capacity, ending exactly at
    the end of the storage) leaves the write index at
    [(0 + 10000) mod 10000 = 0], and a storage of 20000 elements; on the
    input side and on the output side alike. *)
Theorem put_to_the_boundary_grows_storage :
  let p := SerialPort_init "/dev/ttyAMA0" 115200 default_buffer_size
                           default_buffer_size in
  let data := repeat "a"%byte (Z.to_nat 10000) in
  len (input_buffer p) = 10000 /\ len (output_buffer p) = 10000 /\
  len data <= input_buffer_size p /\ len data <= output_buffer_size p /\
  (exists p', put_input data p = Ok tt p' /\
              input_buffer_w_index p' = 0 /\
              len (input_buffer p') = 20000) /\
  (exists p', put_output data p = Ok tt p' /\
              output_buffer_w_index p' = 0 /\
              len (output_buffer p') = 20000).
Proof.
  intros p data.
  assert (Hd : len data = 10000).
  { unfold len, data. rewrite repeat_length. lia. }
  assert (Hi : len (input_buffer p) = 10000).
  { unfold len, p. cbn [input_buffer SerialPort_init].
    rewrite repeat_length. unfold default_buffer_size. lia. }
  assert (Ho : len (output_buffer p) = 10000).
  { unfold len, p. cbn [output_buffer SerialPort_init].
    rewrite repeat_length. unfold default_buffer_size. lia. }
  assert (W : port_wf p).
  { apply SerialPort_init_wf; reflexivity. }
  destruct W as [Wi Wo].
  repeat split; try assumption.
  - rewrite Hd. discriminate.
  - rewrite Hd. discriminate.
  - destruct (put_input_boundary p data Wi Hi) as (p' & E & Hw & HL).
    + now rewrite Hd.
    + exists p'. rewrite Hd in HL. auto.
  - destruct (put_output_boundary p data Wo Ho) as (p' & E & Hw & HL).
    + now rewrite Hd.
    + exists p'. rewrite Hd in HL. auto.
Qed.

(** C6, as amended. A read does not look at the write index: for a cursor
    inside the capacity and a size of at most the capacity, the read not
    ending exactly at the end of the storage, it returns as many bytes as
    were asked for, the stored bytes at [cursor], [cursor + 1], ... round
    the ring, and the cursor moved on by the size modulo the capacity; on
    the input side and on the output side alike. *)
Theorem read_returns_what_is_asked (self : SerialPort) (maxLen cursor : Z) :
  port_wf self ->
  (0 <= cursor < input_buffer_size self ->
   0 <= maxLen <= input_buffer_size self ->
   cursor + maxLen <> input_buffer_size self ->
   exists d,
     get_input maxLen cursor self =
       Ok (d, (cursor + maxLen) mod input_buffer_size self) self /\
     len d = maxLen /\
     forall i, 0 <= i < maxLen ->
       nth_error d (Z.to_nat i) =
       nth_error (input_buffer self)
                 (Z.to_nat ((cursor + i) mod input_buffer_size self)))
  /\
  (0 <= cursor < output_buffer_size self ->
   0 <= maxLen <= output_buffer_size self ->
   cursor + maxLen <> output_buffer_size self ->
   exists d,
     get_output maxLen cursor self =
       Ok (d, (cursor + maxLen) mod output_buffer_size self) self /\
     len d = maxLen /\
     forall i, 0 <= i < maxLen ->
       nth_error d (Z.to_nat i) =
       nth_error (output_buffer self)
                 (Z.to_nat ((cursor + i) mod output_buffer_size self))).
Proof.
  intros [(Hci & HLi & _) (Hco & HLo & _)].
  split; intros Hr Hs Hne.
  - destruct (ring_get_cursor _ Hci (input_buffer self) maxLen cursor)
      as [d E].
    exists d. unfold get_input, lift. rewrite E.
    split; [reflexivity|].
    destruct (ring_get_elements _ Hci _ _ _ _ _ Hr Hs HLi Hne E)
      as (_ & Hl & Hel).
    auto.
  - destruct (ring_get_cursor _ Hco (output_buffer self) maxLen cursor)
      as [d E].
    exists d. unfold get_output, lift. rewrite E.
    split; [reflexivity|].
    destruct (ring_get_elements _ Hco _ _ _ _ _ Hr Hs HLo Hne E)
      as (_ & Hl & Hel).
    auto.
Qed.

Lemma read_returns_what_is_asked_witness :
  let p := SerialPort_init "/dev/ttyAMA0" 115200 8 8 in
  input_dat_avail 0 p = Ok 0 p /\
  exists d, get_input 3 0 p = Ok (d, 3) p /\ len d = 3.
Proof.
  intro p. split; [reflexivity|].
  assert (W : port_wf p) by (apply SerialPort_init_wf; lia).
  destruct (read_returns_what_is_asked p 3 0 W) as [Hi _].
  destruct Hi as (d & E & Hl & _).
  - simpl. lia.
  - simpl. lia.
  - simpl. lia.
  - exists d. split; [exact E | exact Hl].
Defined.

(** C6, as stated, fails: on a fresh port nothing is available, and a read
    of three bytes returns three bytes. *)
Lemma read_clamps_counterexample : ~ read_clamps_claim.
Proof.
  intros H.
  pose (p := SerialPort_init "p" 9600 4 4).
  assert (W : port_wf p /\ storage_exact p)
    by (apply SerialPort_init_wf; lia).
  destruct W as [W X].
  specialize (H p 3 0 [x00; x00; x00] 3 W X).
  assert (Hle : len [x00; x00; x00] <= 0).
  { apply H; try reflexivity; simpl; lia. }
  vm_compute in Hle. apply Hle. reflexivity.
Qed.

(** ** Lists: positions and updates *)

Section Lists.

Context {A : Type}.
Implicit Types l : list A.

Lemma update_same l k x : nth_error l k = Some x -> update l k x = l.
Proof.
  revert k. induction l as [|h t IH]; intros [|k] H; simpl in *;
    try discriminate.
  - now injection H as ->.
  - now rewrite IH.
Qed.

Lemma length_update l k x : length (update l k x) = length l.
Proof.
  revert k. induction l as [|h t IH]; intros [|k]; simpl; auto.
Qed.

Lemma nth_error_update l k x j :
  nth_error (update l k x) j =
  if (j =? k)%nat
  then match nth_error l j with Some _ => Some x | None => None end
  else nth_error l j.
Proof.
  revert k j. induction l as [|h t IH]; intros [|k] [|j]; simpl; auto.
  - now destruct (j =? k)%nat.
Qed.

Lemma getitem_nonneg l i x :
  0 <= i ->
  (getitem l i = inr x <-> nth_error l (Z.to_nat i) = Some x).
Proof.
  intros Hi. unfold getitem.
  destruct (Z.ltb_spec i 0); [lia|].
  destruct (Z.ltb_spec i 0); [lia|].
  destruct (nth_error l (Z.to_nat i)); split; intros E;
    try discriminate; congruence.
Qed.

Lemma getitem_beyond l i : len l <= i -> getitem l i = inl IndexError.
Proof.
  intros Hi. pose proof (len_nonneg l). unfold getitem.
  destruct (Z.ltb_spec i 0); [lia|].
  destruct (Z.ltb_spec i 0); [lia|].
  destruct (nth_error l (Z.to_nat i)) eqn:E; [|reflexivity].
  assert (nth_error l (Z.to_nat i) <> None) as Hn by congruence.
  apply nth_error_Some in Hn. unfold len in *. lia.
Qed.

Lemma getitem_last l x : getitem (l ++ [x]) (-1) = inr x.
Proof.
  unfold getitem. change (-1 <? 0) with true. cbv iota.
  rewrite len_app. change (len [x]) with 1.
  pose proof (len_nonneg l).
  destruct (Z.ltb_spec (len l + 1 + -1) 0); [lia|].
  replace (Z.to_nat (len l + 1 + -1)) with (length l) by (unfold len; lia).
  rewrite nth_error_app2, Nat.sub_diag by lia. reflexivity.
Qed.

Lemma position_last l x : position (l ++ [x]) (-1) = length l.
Proof.
  unfold position. change (-1 <? 0) with true. cbv iota.
  rewrite len_app. change (len [x]) with 1. unfold len. lia.
Qed.

Lemma position_nonneg l i : 0 <= i -> position l i = Z.to_nat i.
Proof.
  intros H. unfold position. now destruct (Z.ltb_spec i 0); [lia|].
Qed.

Lemma update_last l x y : update (l ++ [x]) (length l) y = l ++ [y].
Proof.
  induction l as [|h t IH]; simpl; [reflexivity|]. now rewrite IH.
Qed.

End Lists.

(** ** The search of SERO *)

Lemma find_port_some ports k name p1 ref :
  find_port ports k name p1 = Some ref ->
  (k <= ref)%nat /\
  exists sp, nth_error ports (ref - k) = Some sp /\
             port sp = name /\ baudrate sp = p1.
Proof.
  revert k. induction ports as [|sp rest IH]; intros k H; simpl in H.
  - discriminate.
  - destruct (String.eqb (port sp) name && (baudrate sp =? p1)) eqn:E.
    + injection H as <-. split; [lia|].
      rewrite Nat.sub_diag. exists sp.
      apply andb_true_iff in E. destruct E as [E1 E2].
      apply String.eqb_eq in E1. apply Z.eqb_eq in E2. auto.
    + destruct (IH _ H) as (Hk & sp' & Hn & Hp).
      split; [lia|]. exists sp'.
      replace (ref - k)%nat with (S (ref - S k)) by lia. auto.
Qed.

Lemma find_port_none ports k name p1 :
  find_port ports k name p1 = None <->
  forall sp, In sp ports -> ~ (port sp = name /\ baudrate sp = p1).
Proof.
  revert k. induction ports as [|sp rest IH]; intros k; simpl.
  - split; [intros _ sp []|reflexivity].
  - destruct (String.eqb (port sp) name && (baudrate sp =? p1)) eqn:E.
    + split; [discriminate|]. intros H. exfalso.
      apply andb_true_iff in E. destruct E as [E1 E2].
      apply String.eqb_eq in E1. apply Z.eqb_eq in E2.
      apply (H sp); auto.
    + rewrite IH. split.
      * intros H sp' [<-|Hin]; [|now apply H].
        intros [E1 E2]. apply String.eqb_eq in E1. apply Z.eqb_eq in E2.
        rewrite E1, E2 in E. discriminate.
      * intros H sp' Hin. apply H. now right.
Qed.

Lemma find_port_found ports name p1 :
  (exists sp, In sp ports /\ port sp = name /\ baudrate sp = p1) ->
  exists ref sp, find_port ports 0 name p1 = Some ref /\
                 nth_error ports ref = Some sp /\
                 port sp = name /\ baudrate sp = p1.
Proof.
  intros (sp & Hin & Hp & Hb).
  destruct (find_port ports 0 name p1) as [ref|] eqn:E.
  - destruct (find_port_some _ _ _ _ _ E) as (_ & sp' & Hn & Hq).
    rewrite Nat.sub_0_r in Hn. exists ref, sp'. auto.
  - exfalso. rewrite find_port_none in E. apply (E sp); auto.
Qed.

(** The search stops at the first port it finds: no port before the one
    it returns has this name and this bit rate. *)
Lemma find_port_first ports k name p1 ref :
  find_port ports k name p1 = Some ref ->
  forall j sp, (j < ref - k)%nat -> nth_error ports j = Some sp ->
               ~ (port sp = name /\ baudrate sp = p1).
Proof.
  revert k. induction ports as [|sp0 rest IH]; intros k H j sp Hj Hn;
    simpl in H.
  - discriminate.
  - destruct (String.eqb (port sp0) name && (baudrate sp0 =? p1)) eqn:E.
    + injection H as <-. lia.
    + destruct j as [|j]; cbn [nth_error] in Hn.
      * injection Hn as <-. intros [E1 E2].
        apply String.eqb_eq in E1. apply Z.eqb_eq in E2.
        rewrite E1, E2 in E. discriminate.
      * apply (IH _ H j sp); [|exact Hn].
        destruct (find_port_some _ _ _ _ _ H) as [Hk _]. lia.
Qed.

(** ** Calls on the bound port *)

Lemma on_port_ok {A} ref (m : M SerialPort A) c sp a sp' :
  nth_error (serialports (virtual_hardware c)) ref = Some sp ->
  m sp = Ok a sp' ->
  on_port ref m c =
  Ok a (set_hardware
          (mkVirtualHardware (update (serialports (virtual_hardware c)) ref sp'))
          c).
Proof.
  intros Hn Hm. unfold on_port. now rewrite Hn, Hm.
Qed.

Lemma set_hardware_same c ref sp :
  nth_error (serialports (virtual_hardware c)) ref = Some sp ->
  set_hardware
    (mkVirtualHardware (update (serialports (virtual_hardware c)) ref sp)) c
  = c.
Proof.
  intros Hn. rewrite (update_same _ _ _ Hn).
  destruct c as [i [ports] insts e mi mo no lg]. reflexivity.
Qed.

(** A call that leaves the port as it was leaves the client as it was. *)
Lemma on_port_read {A} ref (m : M SerialPort A) c sp a :
  nth_error (serialports (virtual_hardware c)) ref = Some sp ->
  m sp = Ok a sp ->
  on_port ref m c = Ok a c.
Proof.
  intros Hn Hm. rewrite (on_port_ok _ _ _ _ _ _ Hn Hm).
  now rewrite set_hardware_same.
Qed.

Lemma refs_ok_port c b :
  refs_ok c -> In b (serial_instances c) ->
  exists sp, nth_error (serialports (virtual_hardware c)) (serialport b)
             = Some sp.
Proof.
  intros R Hin. specialize (R b Hin).
  destruct (nth_error (serialports (virtual_hardware c)) (serialport b))
    eqn:E; [eauto|].
  apply nth_error_None in E. lia.
Qed.

(** ** SERC *)

(** What the code does with a SERC frame whose [p1] names an existing
    binding: the frame is answered by [{0,0,0,handle}] and the detachment
    is logged, and that is all. The list of bindings and the hardware are
    as they were, so the handle goes on addressing the same binding, where
    the docstring of [close] says that the client is unbound from the
    port. *)
Lemma serc_answers_and_keeps_binding
    (c : PigpioClient) (p1 : Z) (p2 : list byte) (b : PigpioSerialInstance) :
  handles_ok c -> refs_ok c -> 0 <= p1 ->
  getitem (serial_instances c) p1 = inr b ->
  exists c',
    on_frame _PI_CMD_SERC p1 p2 0 c = Ok tt c' /\
    main_conn_out c' = main_conn_out c ++ [Words 0 0 0 p1] /\
    serial_instances c' = serial_instances c /\
    getitem (serial_instances c') p1 = inr b /\
    virtual_hardware c' = virtual_hardware c /\
    exists name, last (log c') (Debug_p3 0) = Info_detached p1 name.
Proof.
  intros Hh Hr Hp Hg.
  pose proof Hg as Hn. rewrite getitem_nonneg in Hn by assumption.
  assert (Hid : handle_id b = p1).
  { rewrite (Hh _ _ Hn). lia. }
  destruct (refs_ok_port c b Hr (nth_error_In _ _ Hn)) as [sp Hsp].
  unfold on_frame, dispatch, Py.bind, ret, gets, logger, modify, lift.
  cbn. rewrite Hg. unfold close, Py.bind, send, logger, modify.
  cbn. unfold on_port. cbn. rewrite Hsp. cbn.
  rewrite (update_same _ _ _ Hsp).
  eexists. split; [reflexivity|]. cbn.
  rewrite Hid. repeat split; try assumption.
  - now destruct (virtual_hardware c).
  - exists (port sp). now rewrite last_last.
Qed.

Lemma demo_client_ok stream :
  handles_ok (demo_client stream) /\ refs_ok (demo_client stream).
Proof.
  split.
  - intros [|[|k]] b H; simpl in H; try discriminate.
    now injection H as <-.
  - intros b [<-|[]]. simpl. lia.
Qed.

Lemma serc_answers_and_keeps_binding_witness :
  exists c',
    on_frame _PI_CMD_SERC 0 (pack_I 0) 0 (demo_client []) = Ok tt c' /\
    main_conn_out c' = [Words 0 0 0 0; Words 0 0 0 0] /\
    serial_instances c' = [PigpioSerialInstance_init 0 0].
Proof.
  destruct (demo_client_ok []) as [Hh Hr].
  destruct (serc_answers_and_keeps_binding (demo_client []) 0 (pack_I 0)
              (PigpioSerialInstance_init 0 0) Hh Hr)
    as (c' & E & Ho & Hi & _).
  - lia.
  - reflexivity.
  - exists c'. auto.
Defined.

(** The sentence on closing does not hold of the code: after the SERC
    the list still holds the binding. *)
Lemma serc_counterexample : ~ serc_claim.
Proof.
  intros H.
  destruct (demo_client_ok []) as [Hh Hr].
  destruct (H (demo_client []) 0 (pack_I 0)
              (PigpioSerialInstance_init 0 0) Hh Hr)
    as (c' & E & _ & Hl & _).
  - lia.
  - reflexivity.
  - vm_compute in E. injection E as <-.
    vm_compute in Hl. discriminate.
Qed.

(** C8, at the failing input. On the hardware of [main] the client opens
    [/dev/ttyAMA0] (handle 0) and [/dev/ttyUSBMotorCard] (handle 1),
    closes handle 1 with SERC, and then writes [hi] to handle 1 with
    SERW. The SERC is answered by [{0,0,0,1}] and logged as a detachment,
    but the list of bindings is the one from before the SERC: handle 1
    still addresses the binding to the second port. The SERW that follows
    is served through it: it is answered by [{0,0,0,1}], and the bridge
    finds [hi] on the output side of the port. *)
Theorem serc_leaves_the_binding_in_use :
  let stream :=
    frame _PI_CMD_SERO 115200 (pack_I 0) (bytes_of "/dev/ttyAMA0")
    ++ frame _PI_CMD_SERO 115200 (pack_I 0) (bytes_of "/dev/ttyUSBMotorCard")
    ++ frame _PI_CMD_SERC 1 (pack_I 0) []
    ++ frame _PI_CMD_SERW 1 (pack_I 0) (bytes_of "hi") in
  let c := PigpioClient_init stream 0 main_hardware in
  let opened := state_of (run 2 c) in
  let closed := state_of (run 3 c) in
  let r := run 5 c in
  (* the SERC is acknowledged and logged *)
  main_conn_out closed = main_conn_out opened ++ [Words 0 0 0 1] /\
  last (log closed) (Debug_p3 0) = Info_detached 1 "/dev/ttyUSBMotorCard" /\
  (* and has removed nothing *)
  serial_instances closed = serial_instances opened /\
  map handle_id (serial_instances closed) = [0; 1] /\
  map serialport (serial_instances closed) = [0%nat; 1%nat] /\
  (* the closed handle is served afterwards *)
  value_of r = Some true /\
  main_conn_out (state_of r)
  = [Words 0 0 0 0; Words 0 0 0 1; Words 0 0 0 1; Words 0 0 0 1] /\
  map handle_id (serial_instances (state_of r)) = [0; 1] /\
  value_of (on_port 1 (bridge_poll 0) (state_of r))
  = Some (Some (bytes_of "hi"), 2).
Proof.
  cbv zeta.
  repeat match goal with |- _ /\ _ => split end; vm_compute; reflexivity.
Qed.

(** ** From a frame to its dispatch *)

Lemma app_assoc5 {A} (l : list A) a b c d e :
  ((((l ++ [a]) ++ [b]) ++ [c]) ++ [d]) ++ [e] = l ++ [a; b; c; d; e].
Proof. now rewrite <- !app_assoc. Qed.

Lemma on_frame_plain cmd p1 p2 c :
  on_frame cmd p1 p2 0 c = dispatch cmd p1 p2 0 (at_dispatch cmd p1 p2 c).
Proof.
  unfold on_frame, Py.bind, ret, gets, logger, modify. cbn.
  unfold at_dispatch, debug_lines. now rewrite app_assoc5.
Qed.

Lemma on_frame_ext cmd p1 p2 e rest c :
  main_conn_in c = e ++ rest -> e <> [] ->
  on_frame cmd p1 p2 (len e) c =
  dispatch cmd p1 (p2 ++ e) (len e) (at_dispatch_ext cmd p1 p2 e rest c).
Proof.
  intros Hin Hne.
  assert (Hl : len e <> 0).
  { destruct e; [congruence|]. unfold len. simpl. lia. }
  unfold on_frame, Py.bind.
  destruct (Z.eqb_spec (len e) 0) as [|_]; [contradiction|].
  unfold recv. rewrite Hin.
  replace (Z.to_nat (len e)) with (length e) by (unfold len; lia).
  rewrite firstn_app_exact, skipn_app_exact by reflexivity.
  unfold lift, unpack_s. rewrite Z.eqb_refl.
  unfold ret, gets, logger, modify. cbn.
  unfold at_dispatch_ext, debug_lines. now rewrite app_assoc5.
Qed.

(** ** SERO *)

(** C1, as amended. The name of a SERO frame is its extension, decoded as
    ASCII; the [p2] field is no part of it. When a port of the hardware
    has this name and the bit rate [p1], a binding to the first such port
    is appended: the port it refers to has the name and the bit rate, and
    no port before it in the registry has both. The cursors of the binding
    are at the write indexes of the port, its handle is its position in
    the list, and the answer is [{0,0,0,handle}]. When no port has both,
    the answer is [{0,0,0,-1}], the failure is logged and the list is as
    it was. *)
Theorem sero_opens_by_extension
    (c : PigpioClient) (p1 : Z) (p2 e rest : list byte) (name : string) :
  main_conn_in c = e ++ rest -> e <> [] ->
  decode_ascii e = inr name ->
  let ports := serialports (virtual_hardware c) in
  let handle := len (serial_instances c) in
  ((exists sp, In sp ports /\ port sp = name /\ baudrate sp = p1) ->
   exists c' b sp,
     on_frame _PI_CMD_SERO p1 p2 (len e) c = Ok tt c' /\
     serial_instances c' = serial_instances c ++ [b] /\
     getitem (serial_instances c') handle = inr b /\
     handle_id b = handle /\
     nth_error ports (serialport b) = Some sp /\
     port sp = name /\ baudrate sp = p1 /\
     (forall k sp', (k < serialport b)%nat -> nth_error ports k = Some sp' ->
                    ~ (port sp' = name /\ baudrate sp' = p1)) /\
     input_buffer_r_index b = input_buffer_w_index sp /\
     output_buffer_r_index b = output_buffer_w_index sp /\
     main_conn_out c' = main_conn_out c ++ [Words 0 0 0 handle] /\
     virtual_hardware c' = virtual_hardware c)
  /\
  ((forall sp, In sp ports -> ~ (port sp = name /\ baudrate sp = p1)) ->
   exists c',
     on_frame _PI_CMD_SERO p1 p2 (len e) c = Ok tt c' /\
     serial_instances c' = serial_instances c /\
     main_conn_out c' = main_conn_out c ++ [Words 0 0 0 (-1)] /\
     last (log c') (Debug_p3 0) = Error_does_not_exist (p2 ++ e) /\
     virtual_hardware c' = virtual_hardware c).
Proof.
  intros Hin Hne Hdec ports handle. subst ports handle.
  rewrite (on_frame_ext _ _ _ _ _ _ Hin Hne).
  destruct c as [i [ports] insts e0 mi mo no lg].
  cbn [serial_instances virtual_hardware serialports main_conn_out
       main_conn_in] in *.
  unfold dispatch. change (_PI_CMD_SERO =? _PI_CMD_SERO) with true. cbv iota.
  unfold at_dispatch_ext. run_client. rewrite Hdec. run_client.
  split.
  - intros Hex.
    destruct (find_port_found _ _ _ Hex) as (ref & sp & Hf & Hn & Hp & Hb).
    rewrite Hf. run_client.
    rewrite getitem_last, position_last. run_client.
    rewrite Hn. run_client.
    rewrite nth_error_app2, Nat.sub_diag by lia.
    cbn [nth_error]. rewrite update_last, (update_same _ _ _ Hn).
    eexists. eexists. exists sp.
    split; [reflexivity|]. run_client.
    split; [reflexivity|].
    split.
    { apply getitem_nonneg; [apply len_nonneg|].
      replace (Z.to_nat (len insts)) with (length insts)
        by (unfold len; lia).
      now rewrite nth_error_app2, Nat.sub_diag by lia. }
    split; [reflexivity|].
    split; [exact Hn|].
    split; [exact Hp|].
    split; [exact Hb|].
    split.
    { intros k sp' Hk. apply (find_port_first _ _ _ _ _ Hf).
      now rewrite Nat.sub_0_r. }
    repeat split; reflexivity.
  - intros Hno. apply find_port_none with (k := O) in Hno. rewrite Hno.
    run_client.
    eexists. split; [reflexivity|]. run_client.
    repeat split; try reflexivity.
    now rewrite last_last.
Qed.

Lemma main_hardware_ports :
  serialports main_hardware =
  [SerialPort_init "/dev/ttyAMA0" 115200 default_buffer_size
                   default_buffer_size;
   SerialPort_init "/dev/ttyUSBMotorCard" 115200 default_buffer_size
                   default_buffer_size].
Proof. reflexivity. Qed.

Lemma sero_opens_by_extension_witness :
  (exists c',
     on_frame _PI_CMD_SERO 115200 (pack_I 0) 12
       (PigpioClient_init (bytes_of "/dev/ttyAMA0") 0 main_hardware)
     = Ok tt c' /\
     main_conn_out c' = [Words 0 0 0 0]) /\
  (exists c',
     on_frame _PI_CMD_SERO 115200 (pack_I 0) 12
       (PigpioClient_init (bytes_of "/dev/ttyAMA9") 0 main_hardware)
     = Ok tt c' /\
     main_conn_out c' = [Words 0 0 0 (-1)]) /\
  (* a registry where the name is registered twice, after another port:
     the binding is to the first of the two *)
  (exists c' b,
     on_frame _PI_CMD_SERO 115200 (pack_I 0) 12
       (PigpioClient_init (bytes_of "/dev/ttyAMA0") 0
          (add_serialport "/dev/ttyAMA0" 115200
             (add_serialport "/dev/ttyAMA0" 115200
                (add_serialport "/dev/ttyS0" 115200 VirtualHardware_init))))
     = Ok tt c' /\
     serial_instances c' = [b] /\
     serialport b = 1%nat).
Proof.
  split; [|split].
  - destruct (sero_opens_by_extension
                (PigpioClient_init (bytes_of "/dev/ttyAMA0") 0 main_hardware)
                115200 (pack_I 0) (bytes_of "/dev/ttyAMA0") []
                "/dev/ttyAMA0") as [Hfound _].
    + reflexivity.
    + discriminate.
    + reflexivity.
    + destruct Hfound as (c' & b & sp & E & _ & _ & _ & _ & _ & _ & _ & _
                          & _ & Ho & _).
      * cbn [virtual_hardware PigpioClient_init].
        rewrite main_hardware_ports. eexists.
        split; [left; reflexivity|]. split; reflexivity.
      * exists c'. split; [exact E | exact Ho].
  - destruct (sero_opens_by_extension
                (PigpioClient_init (bytes_of "/dev/ttyAMA9") 0 main_hardware)
                115200 (pack_I 0) (bytes_of "/dev/ttyAMA9") []
                "/dev/ttyAMA9") as [_ Hnone].
    + reflexivity.
    + discriminate.
    + reflexivity.
    + destruct Hnone as (c' & E & _ & Ho & _).
      * cbn [virtual_hardware PigpioClient_init].
        rewrite main_hardware_ports.
        intros sp [<-|[<-|[]]] [Hp _]; discriminate Hp.
      * exists c'. split; [exact E | exact Ho].
  - set (hw := add_serialport "/dev/ttyAMA0" 115200
                 (add_serialport "/dev/ttyAMA0" 115200
                    (add_serialport "/dev/ttyS0" 115200
                       VirtualHardware_init))).
    destruct (sero_opens_by_extension
                (PigpioClient_init (bytes_of "/dev/ttyAMA0") 0 hw)
                115200 (pack_I 0) (bytes_of "/dev/ttyAMA0") []
                "/dev/ttyAMA0") as [Hfound _].
    + reflexivity.
    + discriminate.
    + reflexivity.
    + destruct Hfound as (c' & b & sp & E & Hi & _ & _ & Hn & Hp & _ & Hfirst
                          & _).
      * exists (SerialPort_init "/dev/ttyAMA0" 115200 default_buffer_size
                                default_buffer_size).
        split; [right; left; reflexivity|]. split; reflexivity.
      * exists c', b. split; [exact E|]. split; [exact Hi|].
        cbn [virtual_hardware PigpioClient_init] in Hn, Hfirst.
        destruct (serialport b) as [|[|n]].
        -- cbn in Hn. injection Hn as <-. discriminate Hp.
        -- reflexivity.
        -- exfalso.
           apply (Hfirst 1%nat
                    (SerialPort_init "/dev/ttyAMA0" 115200
                       default_buffer_size default_buffer_size)).
           ++ lia.
           ++ reflexivity.
           ++ split; reflexivity.
Defined.

(** The scenario, from the bytes on the wire: the greeting, then one
    SERO frame for [/dev/ttyAMA0] at 115200 on the hardware of [main]
    answered by [{0,0,0,0}], or by [{0,0,0,-1}] for a name that is not
    registered. *)
Lemma sero_on_the_wire :
  let open_frame name := frame _PI_CMD_SERO 115200 (pack_I 0) (bytes_of name) in
  let answer name :=
    main_conn_out
      (state_of (run 2 (PigpioClient_init (open_frame name) 0 main_hardware)))
  in
  answer "/dev/ttyAMA0"%string = [Words 0 0 0 0] /\
  answer "/dev/ttyS0"%string = [Words 0 0 0 (-1)].
Proof. split; vm_compute; reflexivity. Qed.

(** C1, as stated, fails: with [/dev] in the [p2] field and [/ttyAMA0] in
    the extension the frame carries the registered name, and the answer is
    [{0,0,0,-1}]. *)
Lemma sero_counterexample : ~ sero_claim.
Proof.
  intros H.
  destruct (H (PigpioClient_init (bytes_of "/ttyAMA0") 0 demo_hardware)
              115200 (bytes_of "/dev") (bytes_of "/ttyAMA0") []
              "/dev/ttyAMA0"%string) as [Hfound _].
  - reflexivity.
  - reflexivity.
  - discriminate.
  - reflexivity.
  - destruct Hfound as (c' & b & E & _ & Ho).
    + eexists. split; [left; reflexivity|]. split; reflexivity.
    + vm_compute in E. injection E as <-.
      vm_compute in Ho. discriminate.
Qed.

(** ** Frames that address no binding, frames of no known command *)

(** SERC, SERW and SERDA for a handle beyond the list raise [IndexError]
    out of the dispatch, and so does SERR once its [p2] is unpacked;
    nothing is sent. *)
Lemma absent_handle_raises c cmd p1 p2 :
  len (serial_instances c) <= p1 ->
  cmd = _PI_CMD_SERC \/ cmd = _PI_CMD_SERW \/ cmd = _PI_CMD_SERDA \/
  (cmd = _PI_CMD_SERR /\ len p2 = 4) ->
  exists c',
    on_frame cmd p1 p2 0 c = Raise IndexError c' /\
    main_conn_out c' = main_conn_out c /\
    serial_instances c' = serial_instances c.
Proof.
  intros Hp Hcmd. rewrite on_frame_plain.
  assert (Hg : getitem (serial_instances (at_dispatch cmd p1 p2 c)) p1
               = inl IndexError) by now apply getitem_beyond.
  unfold dispatch.
  destruct Hcmd as [->|[->|[->|[-> Hl]]]]; cbn [Z.eqb _PI_CMD_SERO _PI_CMD_SERC
    _PI_CMD_SERW _PI_CMD_SERR _PI_CMD_SERDA Pos.eqb];
    unfold Py.bind, gets, lift.
  - rewrite Hg. eexists. split; [reflexivity|]. split; reflexivity.
  - rewrite Hg. eexists. split; [reflexivity|]. split; reflexivity.
  - rewrite Hg. eexists. split; [reflexivity|]. split; reflexivity.
  - unfold unpack_I. rewrite Hl. cbn [Z.eqb Pos.eqb].
    rewrite Hg. eexists. split; [reflexivity|]. split; reflexivity.
Qed.

(** A frame of any other command, SERRB and SERWB included, is logged
    and nothing else. *)
Lemma unknown_command_is_logged c cmd p1 p2 :
  cmd <> _PI_CMD_SERO -> cmd <> _PI_CMD_SERC -> cmd <> _PI_CMD_SERW ->
  cmd <> _PI_CMD_SERR -> cmd <> _PI_CMD_SERDA ->
  on_frame cmd p1 p2 0 c =
  Ok tt (set_log (log c ++ debug_lines (id c) cmd p1 p2 0
                    ++ [Warn_not_implemented cmd]) c).
Proof.
  intros H1 H2 H3 H4 H5. rewrite on_frame_plain. unfold dispatch.
  destruct (Z.eqb_spec cmd _PI_CMD_SERO); [contradiction|].
  destruct (Z.eqb_spec cmd _PI_CMD_SERC); [contradiction|].
  destruct (Z.eqb_spec cmd _PI_CMD_SERW); [contradiction|].
  destruct (Z.eqb_spec cmd _PI_CMD_SERR); [contradiction|].
  destruct (Z.eqb_spec cmd _PI_CMD_SERDA); [contradiction|].
  unfold logger, modify, at_dispatch. destruct c. cbn.
  now rewrite <- app_assoc.
Qed.

(** C2, at the failing input. A client of the hardware of [main] that
    has opened nothing receives a SERC frame for handle 0 and then a SERO
    frame: [IndexError] leaves [run] at the first frame, nothing is sent,
    nothing beyond the debug lines is logged, and the second frame is
    never received. *)
Theorem serc_without_binding_ends_run :
  let second :=
    frame _PI_CMD_SERO 115200 (pack_I 0) (bytes_of "/dev/ttyAMA0") in
  let stream := frame _PI_CMD_SERC 0 (pack_I 0) [] ++ second in
  let r := run 3 (PigpioClient_init stream 7 main_hardware) in
  raised r = Some IndexError /\
  main_conn_out (state_of r) = [] /\
  log (state_of r) = debug_lines 7 _PI_CMD_SERC 0 (pack_I 0) 0 /\
  main_conn_in (state_of r) = second /\
  (* the same stream without the first frame is served *)
  main_conn_out
    (state_of (run 3 (PigpioClient_init second 7 main_hardware)))
  = [Words 0 0 0 0].
Proof. repeat split; vm_compute; reflexivity. Qed.

(** ** The steps of a read request *)

Lemma bind_ok {S A B} (m : M S A) (k : A -> M S B) s a s' :
  m s = Ok a s' -> Py.bind m k s = k a s'.
Proof. intros H. unfold Py.bind. now rewrite H. Qed.

(** The request is clamped to what is available, the bytes are read, and
    what is left is to move the cursor, to log and to answer. *)
Lemma read_request_steps k b size c sp avail d r' :
  nth_error (serialports (virtual_hardware c)) (serialport b) = Some sp ->
  input_dat_avail (input_buffer_r_index b) sp = Ok avail sp ->
  get_input (Z.min size avail) (input_buffer_r_index b) sp = Ok (d, r') sp ->
  read_request k b size c =
  (on_instance k (set_input_r_index r') ;;;
   lift (decode_utf8 d) ;;;
   logger (Info_read (handle_id b) d) ;;;
   send (Words 0 0 0 (len d)) ;;;
   send (Bytes d)) c.
Proof.
  intros Hsp Hav Hget. unfold read_request.
  rewrite (bind_ok _ _ _ _ _ (on_port_read _ _ _ _ _ Hsp Hav)).
  assert (Hclamp :
    (if size >? avail
     then on_port (serialport b) (input_dat_avail (input_buffer_r_index b))
     else ret size) c = Ok (Z.min size avail) c).
  { destruct (Z.gtb_spec size avail).
    - rewrite (on_port_read _ _ _ _ _ Hsp Hav). f_equal. lia.
    - unfold ret. f_equal. lia. }
  rewrite (bind_ok _ _ _ _ _ Hclamp).
  rewrite (bind_ok _ _ _ _ _ (on_port_read _ _ _ _ _ Hsp Hget)).
  reflexivity.
Qed.

(** ** SERW and SERR on bytes that are not UTF-8 *)

Lemma skipn_field (p2 e : list byte) : len p2 = 4 -> skipn 4 (p2 ++ e) = e.
Proof.
  intros H. apply skipn_app_exact. unfold len in H. lia.
Qed.

Lemma unpack_I_s_field (p2 e : list byte) :
  len p2 = 4 -> unpack_I_s (p2 ++ e) = inr (le32 (firstn 4 (p2 ++ e)), e).
Proof.
  intros H. unfold unpack_I_s. rewrite len_app.
  pose proof (len_nonneg e).
  destruct (Z.ltb_spec (len p2 + len e) 4); [lia|].
  now rewrite skipn_field.
Qed.

Lemma decode_utf8_fails e : utf8_wf e = false -> decode_utf8 e = inl UnicodeDecodeError.
Proof. intros H. unfold decode_utf8. now rewrite H. Qed.

(** Whatever the handle, a SERW whose extension does not decode is not
    answered. *)
Lemma serw_undecodable_no_answer c p1 p2 e rest :
  len p2 = 4 -> main_conn_in c = e ++ rest -> e <> [] ->
  utf8_wf e = false ->
  exists x c',
    on_frame _PI_CMD_SERW p1 p2 (len e) c = Raise x c' /\
    main_conn_out c' = main_conn_out c.
Proof.
  intros Hp Hin Hne Hu.
  rewrite (on_frame_ext _ _ _ _ _ _ Hin Hne).
  destruct c as [i [ports] insts e0 mi mo no lg].
  unfold dispatch, at_dispatch_ext.
  cbn [Z.eqb _PI_CMD_SERO _PI_CMD_SERC _PI_CMD_SERW Pos.eqb].
  run_client.
  destruct (getitem insts p1) as [x|[ref h ri ro]];
    [do 2 eexists; split; reflexivity|].
  rewrite (unpack_I_s_field _ _ Hp). run_client.
  destruct (nth_error ports ref) as [sp|];
    [|do 2 eexists; split; reflexivity].
  destruct (put_output e sp) as [[] sp'|x sp'];
    [|do 2 eexists; split; reflexivity].
  rewrite (decode_utf8_fails _ Hu).
  do 2 eexists; split; reflexivity.
Qed.

(** C10. With a binding at [p1], bound to the port [sp]: a SERW frame
    whose extension [e] is not UTF-8 is not answered ([no answer] holds
    whatever the handle), and with a working port the write is done and
    [UnicodeDecodeError] comes out of the logging before anything is
    sent; a SERR that reads bytes [d] that are not UTF-8 raises
    [UnicodeDecodeError] before its header is sent. *)
Theorem undecodable_payload_gets_no_answer
    (c : PigpioClient) (p1 : Z) (p2 e rest : list byte)
    (b : PigpioSerialInstance) (sp : SerialPort) :
  0 <= p1 ->
  getitem (serial_instances c) p1 = inr b ->
  nth_error (serialports (virtual_hardware c)) (serialport b) = Some sp ->
  (len p2 = 4 -> main_conn_in c = e ++ rest -> e <> [] ->
   utf8_wf e = false ->
   (exists x c',
      on_frame _PI_CMD_SERW p1 p2 (len e) c = Raise x c' /\
      main_conn_out c' = main_conn_out c) /\
   (forall sp',
      put_output e sp = Ok tt sp' ->
      exists c',
        on_frame _PI_CMD_SERW p1 p2 (len e) c = Raise UnicodeDecodeError c' /\
        main_conn_out c' = main_conn_out c /\
        nth_error (serialports (virtual_hardware c')) (serialport b)
          = Some sp'))
  /\
  (forall size avail d r',
     unpack_I p2 = inr size ->
     input_dat_avail (input_buffer_r_index b) sp = Ok avail sp ->
     get_input (Z.min size avail) (input_buffer_r_index b) sp
       = Ok (d, r') sp ->
     utf8_wf d = false ->
     exists c',
       on_frame _PI_CMD_SERR p1 p2 0 c = Raise UnicodeDecodeError c' /\
       main_conn_out c' = main_conn_out c).
Proof.
  intros Hp1 Hg Hsp. destruct b as [ref h ri ro].
  cbn [serialport input_buffer_r_index] in *. split.
  - intros Hp Hin Hne Hu.
    split; [now apply serw_undecodable_no_answer with (rest := rest)|].
    intros sp' Hput.
    rewrite (on_frame_ext _ _ _ _ _ _ Hin Hne).
    destruct c as [i [ports] insts e0 mi mo no lg].
    cbn [serial_instances virtual_hardware serialports] in Hg, Hsp.
    unfold dispatch, at_dispatch_ext.
    cbn [Z.eqb _PI_CMD_SERO _PI_CMD_SERC _PI_CMD_SERW Pos.eqb].
    run_client. rewrite Hg.
    rewrite (unpack_I_s_field _ _ Hp). run_client.
    rewrite Hsp, Hput, (decode_utf8_fails _ Hu).
    eexists. split; [reflexivity|]. run_client.
    split; [reflexivity|].
    rewrite nth_error_update, Nat.eqb_refl. now rewrite Hsp.
  - intros size avail d r' Hsz Hav Hget Hu.
    rewrite on_frame_plain.
    unfold dispatch.
    cbn [Z.eqb _PI_CMD_SERO _PI_CMD_SERC _PI_CMD_SERW _PI_CMD_SERR Pos.eqb].
    unfold Py.bind at 1. unfold lift at 1. rewrite Hsz.
    unfold Py.bind at 1. unfold gets at 1.
    unfold Py.bind at 1. unfold lift at 1.
    change (serial_instances (at_dispatch _PI_CMD_SERR p1 p2 c))
      with (serial_instances c).
    rewrite Hg.
    rewrite (read_request_steps _ (mkInstance ref h ri ro) size
               (at_dispatch _PI_CMD_SERR p1 p2 c) sp avail d r' Hsp Hav Hget).
    unfold Py.bind, on_instance, modify, lift.
    rewrite (decode_utf8_fails _ Hu).
    eexists. split; [reflexivity|].
    unfold at_dispatch.
    destruct (nth_error (serial_instances (set_log _ c)) _); reflexivity.
Qed.

Lemma undecodable_payload_gets_no_answer_witness :
  (exists c',
     on_frame _PI_CMD_SERW 0 (pack_I 0) 1 (demo_client [xff])
       = Raise UnicodeDecodeError c' /\
     main_conn_out c' = [Words 0 0 0 0] /\
     option_map output_buffer
                (nth_error (serialports (virtual_hardware c')) 0)
       = Some [xff; x00; x00; x00; x00; x00; x00; x00]) /\
  (exists c',
     on_frame _PI_CMD_SERR 0 (pack_I 4) 0
              (state_of (device_sends 0 [xff] (demo_client [])))
       = Raise UnicodeDecodeError c' /\
     main_conn_out c' = [Words 0 0 0 0]).
Proof.
  split.
  - pose (sp := SerialPort_init "/dev/ttyAMA0" 115200 8 8).
    destruct (undecodable_payload_gets_no_answer
                (demo_client [xff]) 0 (pack_I 0) [xff] []
                (PigpioSerialInstance_init 0 0) sp) as [Hw _].
    + lia.
    + reflexivity.
    + reflexivity.
    + destruct Hw as [_ Hw].
      * reflexivity.
      * reflexivity.
      * discriminate.
      * reflexivity.
      * destruct (Hw (state_of (put_output [xff] sp)) eq_refl)
          as (c' & E & Ho & Hport).
        exists c'. split; [exact E|]. split; [exact Ho|].
        cbn [serialport PigpioSerialInstance_init] in Hport.
        rewrite Hport. reflexivity.
  - pose (sp := state_of (put_input [xff]
                            (SerialPort_init "/dev/ttyAMA0" 115200 8 8))).
    destruct (undecodable_payload_gets_no_answer
                (state_of (device_sends 0 [xff] (demo_client [])))
                0 (pack_I 4) [] []
                (PigpioSerialInstance_init 0 0) sp) as [_ Hr].
    + lia.
    + reflexivity.
    + reflexivity.
    + destruct (Hr 4 1 [xff] 1) as (c' & E & Ho).
      * reflexivity.
      * reflexivity.
      * reflexivity.
      * reflexivity.
      * exists c'. split; [exact E | exact Ho].
Defined.

(** ** SERR *)

(** Away from the end of the storage and on bytes that decode, a SERR
    that asks for more than is available is answered by what is
    available, and the cursor of the binding moves on by as much. *)
Lemma serr_answers_what_is_available
    c p1 p2 size (b : PigpioSerialInstance) sp :
  0 <= p1 ->
  getitem (serial_instances c) p1 = inr b ->
  nth_error (serialports (virtual_hardware c)) (serialport b) = Some sp ->
  unpack_I p2 = inr size ->
  input_wf sp ->
  let r := input_buffer_r_index b in
  let avail := (input_buffer_w_index sp - r) mod input_buffer_size sp in
  0 <= r < input_buffer_size sp ->
  avail < size ->
  r + avail <> input_buffer_size sp ->
  exists d c',
    get_input avail r sp = Ok (d, input_buffer_w_index sp) sp /\
    len d = avail /\
    (utf8_wf d = true ->
     on_frame _PI_CMD_SERR p1 p2 0 c = Ok tt c' /\
     main_conn_out c' = main_conn_out c ++ [Words 0 0 0 avail; Bytes d] /\
     serial_instances c' =
       update (serial_instances c) (Z.to_nat p1)
              (set_input_r_index (input_buffer_w_index sp) b) /\
     virtual_hardware c' = virtual_hardware c).
Proof.
  intros Hp1 Hg Hsp Hsz Hwf r avail Hr Hlt Hne.
  pose proof Hwf as (Hc & HL & Hw).
  assert (Hav : input_dat_avail r sp = Ok avail sp).
  { unfold input_dat_avail, gets. now rewrite ring_avail_mod. }
  assert (Hrange : 0 <= avail < input_buffer_size sp).
  { apply Z.mod_pos_bound. lia. }
  destruct (ring_get_cursor _ Hc (input_buffer sp) avail r) as [d E].
  assert (Hs : 0 <= avail <= input_buffer_size sp) by lia.
  destruct (ring_get_elements _ Hc _ _ _ _ _ Hr Hs HL Hne E)
    as (_ & Hlen & _).
  assert (Hgoal : (r + avail) mod input_buffer_size sp
                  = input_buffer_w_index sp).
  { unfold avail. rewrite Zplus_mod_idemp_r.
    replace (r + (input_buffer_w_index sp - r))
      with (input_buffer_w_index sp) by lia.
    now apply Z.mod_small. }
  rewrite Hgoal in E.
  assert (Hget : get_input (Z.min size avail) r sp
                 = Ok (d, input_buffer_w_index sp) sp).
  { rewrite Z.min_r by lia. unfold get_input, lift. now rewrite E. }
  exists d.
  pose proof Hg as Hn. rewrite getitem_nonneg in Hn by assumption.
  eexists. split; [|split; [exact Hlen|]].
  { unfold get_input, lift. now rewrite E. }
  intros Hu.
  rewrite on_frame_plain. unfold dispatch.
  cbn [Z.eqb _PI_CMD_SERO _PI_CMD_SERC _PI_CMD_SERW _PI_CMD_SERR Pos.eqb].
  unfold Py.bind at 1. unfold lift at 1. rewrite Hsz.
  unfold Py.bind at 1. unfold gets at 1.
  unfold Py.bind at 1. unfold lift at 1.
  change (serial_instances (at_dispatch _PI_CMD_SERR p1 p2 c))
    with (serial_instances c).
  rewrite Hg.
  rewrite (read_request_steps _ b size
             (at_dispatch _PI_CMD_SERR p1 p2 c) sp avail d _ Hsp Hav Hget).
  rewrite position_nonneg by assumption.
  unfold Py.bind, on_instance, modify, lift, decode_utf8, logger, send.
  rewrite Hu.
  change (serial_instances (at_dispatch _PI_CMD_SERR p1 p2 c))
    with (serial_instances c).
  rewrite Hn.
  split; [reflexivity|].
  destruct c as [i hw insts e0 mi mo no lg].
  cbn [main_conn_out serial_instances virtual_hardware set_main_conn_out
       set_log set_instances at_dispatch].
  rewrite Hlen, <- app_assoc. repeat split; reflexivity.
Qed.

(** C7, at the failing input. On the hardware of [main], the device
    sends [abc], the client opens [/dev/ttyAMA0] (cursor 3), the device
    sends 9997 bytes more (up to the end of the storage), and the client
    asks for 10000 bytes with SERR: 9997 bytes are available, the answer
    is [{0,0,0,0}] with no byte after it, the cursor of the binding is
    moved to 0, and nothing is available there any more. *)
Theorem serr_at_the_boundary_returns_nothing :
  let stream :=
    frame _PI_CMD_SERO 115200 (pack_I 0) (bytes_of "/dev/ttyAMA0")
    ++ frame _PI_CMD_SERR 0 (pack_I 10000) [] in
  let r := boundary_scenario (PigpioClient_init stream 0 main_hardware) in
  value_of r = Some 9997 /\
  main_conn_out (state_of r) = [Words 0 0 0 0; Words 0 0 0 0; Bytes []] /\
  map input_buffer_r_index (serial_instances (state_of r)) = [0] /\
  value_of (on_port 0 (input_dat_avail 0) (state_of r)) = Some 0.
Proof. repeat split; vm_compute; reflexivity. Qed.

(** ** SERDA *)

(** A SERDA for an existing binding is answered by the availability at the
    cursor of the binding, and changes nothing else: asked twice, it
    answers the same twice. *)
Lemma serda_answers_availability c p1 p2 (b : PigpioSerialInstance) sp :
  0 <= p1 ->
  getitem (serial_instances c) p1 = inr b ->
  nth_error (serialports (virtual_hardware c)) (serialport b) = Some sp ->
  let n := ring_avail (input_buffer_size sp) (input_buffer_w_index sp)
                      (input_buffer_r_index b) in
  exists c',
    on_frame _PI_CMD_SERDA p1 p2 0 c = Ok tt c' /\
    main_conn_out c' = main_conn_out c ++ [Words 0 0 0 n] /\
    serial_instances c' = serial_instances c /\
    virtual_hardware c' = virtual_hardware c /\
    exists c'',
      on_frame _PI_CMD_SERDA p1 p2 0 c' = Ok tt c'' /\
      main_conn_out c'' = main_conn_out c ++ [Words 0 0 0 n; Words 0 0 0 n].
Proof.
  intros Hp1 Hg Hsp n.
  assert (Hav : input_dat_avail (input_buffer_r_index b) sp = Ok n sp)
    by reflexivity.
  assert (Hstep : forall c0,
    serial_instances c0 = serial_instances c ->
    virtual_hardware c0 = virtual_hardware c ->
    on_frame _PI_CMD_SERDA p1 p2 0 c0 =
    Ok tt (set_main_conn_out (main_conn_out c0 ++ [Words 0 0 0 n])
             (at_dispatch _PI_CMD_SERDA p1 p2 c0))).
  { intros c0 Hi Hh. rewrite on_frame_plain. unfold dispatch.
    cbn [Z.eqb _PI_CMD_SERO _PI_CMD_SERC _PI_CMD_SERW _PI_CMD_SERR
         _PI_CMD_SERDA Pos.eqb].
    unfold Py.bind at 1. unfold gets at 1.
    unfold Py.bind at 1. unfold lift at 1.
    change (serial_instances (at_dispatch _PI_CMD_SERDA p1 p2 c0))
      with (serial_instances c0).
    rewrite Hi, Hg. unfold data_available_request.
    assert (Hsp0 : nth_error
              (serialports
                 (virtual_hardware (at_dispatch _PI_CMD_SERDA p1 p2 c0)))
              (serialport b) = Some sp).
    { change (virtual_hardware (at_dispatch _PI_CMD_SERDA p1 p2 c0))
        with (virtual_hardware c0). now rewrite Hh. }
    rewrite (bind_ok _ _ _ _ _ (on_port_read _ _ _ _ _ Hsp0 Hav)).
    reflexivity. }
  eexists. split; [apply Hstep; reflexivity|].
  split; [destruct c; reflexivity|].
  split; [destruct c; reflexivity|].
  split; [destruct c; reflexivity|].
  eexists. split.
  - apply Hstep; destruct c; reflexivity.
  - destruct c. cbn. now rewrite <- app_assoc.
Qed.

(** ** The invariants are kept *)

Section Preservation.

Lemma client_ok_same c c' :
  serial_instances c' = serial_instances c ->
  length (serialports (virtual_hardware c'))
    = length (serialports (virtual_hardware c)) ->
  client_ok c -> client_ok c'.
Proof.
  intros Hi Hp [Hh Hr]. split.
  - unfold handles_ok. rewrite Hi. exact Hh.
  - unfold refs_ok. rewrite Hi, Hp. exact Hr.
Qed.

Lemma preserves_ret {A} (a : A) : preserves (ret a).
Proof. intros c H. exact H. Qed.

Lemma preserves_raise {A} e : preserves (@raise PigpioClient A e).
Proof. intros c H. exact H. Qed.

Lemma preserves_lift {A} (r : exn + A) : preserves (lift r).
Proof. intros c H. unfold lift. now destruct r. Qed.

Lemma preserves_gets {A} (f : PigpioClient -> A) : preserves (gets f).
Proof. intros c H. exact H. Qed.

Lemma preserves_bind {A B} (m : M PigpioClient A) (k : A -> M PigpioClient B) :
  preserves m -> (forall a, preserves (k a)) -> preserves (Py.bind m k).
Proof.
  intros Hm Hk c H. specialize (Hm c H). unfold Py.bind.
  destruct (m c) as [a c'|e c']; [|exact Hm].
  now apply Hk.
Qed.

Lemma preserves_send p : preserves (send p).
Proof.
  intros c H. apply (client_ok_same c); [destruct c; reflexivity ..|exact H].
Qed.

Lemma preserves_logger e : preserves (logger e).
Proof.
  intros c H. apply (client_ok_same c); [destruct c; reflexivity ..|exact H].
Qed.

Lemma preserves_recv n : preserves (recv n).
Proof.
  intros c H. apply (client_ok_same c); [destruct c; reflexivity ..|exact H].
Qed.

Lemma preserves_set_ext e : preserves (modify (set_ext e)).
Proof.
  intros c H. apply (client_ok_same c); [destruct c; reflexivity ..|exact H].
Qed.

Lemma preserves_on_port {A} ref (m : M SerialPort A) : preserves (on_port ref m).
Proof.
  intros c H. unfold on_port.
  destruct (nth_error (serialports (virtual_hardware c)) ref) as [sp|];
    [|exact H].
  destruct (m sp) as [a sp'|e sp'];
    (apply (client_ok_same c); [destruct c; reflexivity| |exact H]);
    destruct c; cbn; apply length_update.
Qed.

(** An assignment to the cursors of a binding keeps its handle and its
    port. *)
Lemma preserves_on_instance k f :
  (forall b, handle_id (f b) = handle_id b /\
             serialport (f b) = serialport b) ->
  preserves (on_instance k f).
Proof.
  intros Hf c [Hh Hr]. unfold on_instance, modify, state_of.
  destruct (nth_error (serial_instances c) k) as [b|] eqn:E;
    [|split; assumption].
  destruct c as [i hw insts e0 mi mo no lg].
  cbn [serial_instances set_instances] in *.
  split.
  - intros j b' Hj. cbn [serial_instances set_instances] in Hj.
    rewrite nth_error_update in Hj.
    destruct (Nat.eqb_spec j k) as [->|_].
    + rewrite E in Hj. injection Hj as <-.
      destruct (Hf b) as [-> _]. now apply (Hh k).
    + now apply (Hh j).
  - intros b' Hin.
    cbn [serial_instances virtual_hardware set_instances] in *.
    apply In_nth_error in Hin. destruct Hin as [n Hn].
    rewrite nth_error_update in Hn.
    destruct (Nat.eqb_spec n k) as [Enk|_].
    + rewrite Enk, E in Hn. injection Hn as <-.
      destruct (Hf b) as [_ ->].
      apply (Hr b). cbn. eapply nth_error_In. exact E.
    + apply (Hr b'). cbn. eapply nth_error_In. exact Hn.
Qed.

Lemma preserves_open k self p baud : preserves (open k self p baud).
Proof.
  unfold open.
  apply preserves_bind; [apply preserves_on_port|]. intros io.
  apply preserves_bind; [now apply preserves_on_instance|]. intros _.
  apply preserves_bind; [apply preserves_send|]. intros _.
  apply preserves_logger.
Qed.

Lemma preserves_close self : preserves (close self).
Proof.
  unfold close.
  apply preserves_bind; [apply preserves_send|]. intros _.
  apply preserves_bind; [apply preserves_on_port|]. intros name.
  apply preserves_logger.
Qed.

Lemma preserves_write_request self data : preserves (write_request self data).
Proof.
  unfold write_request.
  apply preserves_bind; [apply preserves_lift|]. intros u.
  apply preserves_bind; [apply preserves_on_port|]. intros _.
  apply preserves_bind; [apply preserves_lift|]. intros _.
  apply preserves_bind; [apply preserves_logger|]. intros _.
  apply preserves_send.
Qed.

Lemma preserves_read_request k self size : preserves (read_request k self size).
Proof.
  unfold read_request.
  apply preserves_bind; [apply preserves_on_port|]. intros avail.
  apply preserves_bind.
  { destruct (size >? avail);
      [apply preserves_on_port | apply preserves_ret]. }
  intros size'.
  apply preserves_bind; [apply preserves_on_port|]. intros r.
  apply preserves_bind; [now apply preserves_on_instance|]. intros _.
  apply preserves_bind; [apply preserves_lift|]. intros _.
  apply preserves_bind; [apply preserves_logger|]. intros _.
  apply preserves_bind; [apply preserves_send|]. intros _.
  apply preserves_send.
Qed.

Lemma preserves_data_available_request self :
  preserves (data_available_request self).
Proof.
  unfold data_available_request.
  apply preserves_bind; [apply preserves_on_port|]. intros n.
  apply preserves_send.
Qed.

(** The binding SERO appends has the next handle and refers to the port
    that was found. *)
Lemma client_ok_append c ref :
  (ref < length (serialports (virtual_hardware c)))%nat ->
  client_ok c ->
  client_ok
    (set_instances
       (serial_instances c
          ++ [PigpioSerialInstance_init ref (len (serial_instances c))]) c).
Proof.
  intros Href [Hh Hr]. destruct c as [i hw insts e0 mi mo no lg].
  cbn [serial_instances virtual_hardware set_instances] in *. split.
  - intros k b Hk. cbn [serial_instances set_instances] in Hk.
    destruct (Nat.lt_ge_cases k (length insts)) as [Hlt|Hge].
    + rewrite nth_error_app1 in Hk by assumption. now apply (Hh k).
    + rewrite nth_error_app2 in Hk by assumption.
      destruct (k - length insts)%nat as [|j] eqn:Ej.
      * injection Hk as <-. cbn. unfold len. lia.
      * destruct j; discriminate.
  - intros b Hin.
    cbn [serial_instances virtual_hardware set_instances] in *.
    apply in_app_iff in Hin. destruct Hin as [Hin|[<-|[]]].
    + now apply (Hr b).
    + exact Href.
Qed.

Lemma preserves_dispatch cmd p1 p2 p3 : preserves (dispatch cmd p1 p2 p3).
Proof.
  unfold dispatch.
  destruct (cmd =? _PI_CMD_SERO).
  { apply preserves_bind; [apply preserves_gets|]. intros e.
    apply preserves_bind.
    { destruct e; [apply preserves_raise | apply preserves_lift
                  | apply preserves_raise]. }
    intros name.
    apply preserves_bind; [apply preserves_set_ext|]. intros _.
    intros c H. unfold Py.bind at 1. unfold gets at 1.
    destruct (find_port (serialports (virtual_hardware c)) 0 name p1)
      as [ref|] eqn:Ef.
    - destruct (find_port_some _ _ _ _ _ Ef) as (_ & sp & Hn & _).
      rewrite Nat.sub_0_r in Hn.
      assert (Href : (ref < length (serialports (virtual_hardware c)))%nat).
      { apply nth_error_Some. congruence. }
      unfold Py.bind at 1. unfold gets at 1.
      unfold Py.bind at 1. unfold modify at 1.
      pose proof (client_ok_append c ref Href H) as H'.
      revert H'. generalize (set_instances
        (serial_instances c
           ++ [PigpioSerialInstance_init ref (len (serial_instances c))]) c).
      intros c1 H1.
      apply (preserves_bind (gets serial_instances)); [apply preserves_gets| |exact H1].
      intros insts.
      apply preserves_bind; [apply preserves_lift|]. intros last.
      apply preserves_open.
    - revert c H Ef. intros c H _.
      apply (preserves_bind (send (Words 0 0 0 (-1)))); [apply preserves_send| |exact H].
      intros _. apply preserves_logger. }
  destruct (cmd =? _PI_CMD_SERC).
  { apply preserves_bind; [apply preserves_gets|]. intros insts.
    apply preserves_bind; [apply preserves_lift|]. intros self.
    apply preserves_close. }
  destruct (cmd =? _PI_CMD_SERW).
  { apply preserves_bind; [apply preserves_gets|]. intros insts.
    apply preserves_bind; [apply preserves_lift|]. intros self.
    apply preserves_write_request. }
  destruct (cmd =? _PI_CMD_SERR).
  { apply preserves_bind; [apply preserves_lift|]. intros size.
    apply preserves_bind; [apply preserves_gets|]. intros insts.
    apply preserves_bind; [apply preserves_lift|]. intros self.
    apply preserves_read_request. }
  destruct (cmd =? _PI_CMD_SERDA).
  { apply preserves_bind; [apply preserves_gets|]. intros insts.
    apply preserves_bind; [apply preserves_lift|]. intros self.
    apply preserves_data_available_request. }
  apply preserves_logger.
Qed.

Lemma preserves_on_frame cmd p1 p2 p3 : preserves (on_frame cmd p1 p2 p3).
Proof.
  unfold on_frame.
  apply preserves_bind.
  { destruct (p3 =? 0); [apply preserves_ret|].
    apply preserves_bind; [apply preserves_recv|]. intros chunk.
    apply preserves_bind; [apply preserves_lift|]. intros e.
    apply preserves_bind; [apply preserves_set_ext|]. intros _.
    apply preserves_ret. }
  intros p2'.
  apply preserves_bind; [apply preserves_gets|]. intros i.
  do 5 (apply preserves_bind; [apply preserves_logger|]; intros _).
  apply preserves_dispatch.
Qed.

Lemma preserves_iteration : preserves iteration.
Proof.
  unfold iteration.
  apply preserves_bind; [apply preserves_recv|]. intros raw.
  destruct raw as [|x raw].
  - apply preserves_bind; [apply preserves_gets|]. intros i.
    apply preserves_bind; [apply preserves_logger|]. intros _.
    apply preserves_ret.
  - apply preserves_bind; [apply preserves_lift|].
    intros [[[cmd p1] p2] p3].
    apply preserves_bind; [apply preserves_on_frame|]. intros _.
    apply preserves_ret.
Qed.

Lemma preserves_loop fuel : preserves (loop fuel).
Proof.
  induction fuel as [|fuel IH]; simpl.
  - apply preserves_ret.
  - apply preserves_bind; [apply preserves_iteration|].
    intros [|]; [exact IH | apply preserves_ret].
Qed.

(** A new client is in order, and stays so along [run], also when the
    device writes to a port in between. *)
Lemma PigpioClient_init_ok stream i hw :
  client_ok (PigpioClient_init stream i hw).
Proof.
  split.
  - intros [|k] b H; discriminate H.
  - intros b [].
Qed.

Lemma run_keeps_client_ok fuel stream i hw :
  client_ok (state_of (run fuel (PigpioClient_init stream i hw))).
Proof.
  unfold run.
  apply preserves_bind.
  - intros c H. apply (client_ok_same c); [destruct c; reflexivity ..|exact H].
  - intros _. apply preserves_loop.
  - apply PigpioClient_init_ok.
Qed.

Lemma preserves_device_sends k data : preserves (device_sends k data).
Proof. apply preserves_on_port. Qed.

End Preservation.

(** ** The decoder, on samples *)

Example utf8_wf_samples :
  utf8_wf (bytes_of "abc") = true /\
  utf8_wf [xc3; xa9] = true /\
  utf8_wf [xe2; x82; xac] = true /\
  utf8_wf [xf0; x9f; x98; x80] = true /\
  utf8_wf [xff] = false /\
  utf8_wf [xc0; x80] = false /\
  utf8_wf [xe2; x82] = false /\
  utf8_wf [xed; xa0; x80] = false /\
  utf8_wf [xf4; x90; x80; x80] = false /\
  utf8_wf [x80] = false.
Proof. repeat split; reflexivity. Qed.

(** * Further properties *)

(** ** The circular buffer, byte by byte *)

Section RingBytes.

Variable C : Z.
Hypothesis C_pos : 0 < C.

Implicit Types buffer data : list byte.

(** The wrapping branch of a write, for data that may be longer than the
    capacity but do not go round twice. *)
Lemma ring_put_wrap_long w buffer data :
  0 <= w < C -> C < w + len data -> w + len data < 2 * C ->
  w <= len buffer ->
  ring_put C w buffer data =
  inr (skipn (Z.to_nat (C - w)) data
         ++ skipn (Z.to_nat (w + len data - C))
                  (firstn (Z.to_nat w) buffer
                     ++ firstn (Z.to_nat (C - w)) data),
       w + len data - C).
Proof.
  intros Hw Hn Hd HL.
  unfold ring_put. rewrite mod__ok by lia.
  rewrite mod_once by lia.
  destruct (Z.gtb_spec (w + len data) C); [|lia].
  rewrite set_slice_from_inside by lia.
  rewrite slice_to_inside, slice_from_inside by lia.
  rewrite set_slice_inside.
  - reflexivity.
  - lia.
  - lia.
  - rewrite len_app, !len_firstn by lia. lia.
Qed.

(** After a write of at most [C] bytes that does not end exactly at the
    end of the storage, position [i] holds the byte of the data that is
    [(i - w) mod C] bytes in, when there is one, and the byte it held
    before otherwise. *)
Lemma ring_put_elements w buffer data b w' :
  0 <= w < C -> len data <= C -> len buffer = C ->
  w + len data <> C ->
  ring_put C w buffer data = inr (b, w') ->
  forall i, 0 <= i < C ->
    nth_error b (Z.to_nat i) =
    if (i - w) mod C <? len data
    then nth_error data (Z.to_nat ((i - w) mod C))
    else nth_error buffer (Z.to_nat i).
Proof.
  intros Hw Hd HL Hne E i Hi. pose proof (len_nonneg data) as Hn.
  assert (Hlw : length (firstn (Z.to_nat w) buffer) = Z.to_nat w).
  { rewrite length_firstn. unfold len in HL. lia. }
  assert (Hmod : (i - w) mod C = if i <? w then i - w + C else i - w).
  { destruct (Z.ltb_spec i w).
    - symmetry. apply Z.mod_unique with (q := -1); lia.
    - apply Z.mod_small. lia. }
  rewrite Hmod. unfold len in Hd, Hn, HL.
  destruct (Z.lt_ge_cases (w + len data) C) as [Hlt|Hge].
  - rewrite ring_put_inside in E by (unfold len in *; lia).
    injection E as <- <-. unfold len in Hlt.
    destruct (Z.ltb_spec i w) as [Hiw|Hiw].
    + destruct (Z.ltb_spec (i - w + C) (len data)); [unfold len in *; lia|].
      rewrite nth_error_app1 by lia.
      rewrite nth_error_firstn.
      now destruct (Nat.ltb_spec (Z.to_nat i) (Z.to_nat w)); [|lia].
    + rewrite nth_error_app2 by lia. rewrite Hlw.
      destruct (Z.ltb_spec (i - w) (len data)) as [Hin|Hout];
        unfold len in *.
      * rewrite nth_error_app1 by lia. f_equal. lia.
      * rewrite nth_error_app2 by lia.
        rewrite nth_error_skipn. f_equal. lia.
  - rewrite ring_put_wrap in E by (unfold len in *; lia).
    injection E as <- <-. unfold len in Hge.
    assert (Hhead : length (skipn (Z.to_nat (C - w)) data)
                    = Z.to_nat (w + len data - C)).
    { rewrite length_skipn. unfold len. lia. }
    destruct (Z.ltb_spec i w) as [Hiw|Hiw].
    + destruct (Z.ltb_spec (i - w + C) (len data)) as [Hin|Hout];
        unfold len in *.
      * rewrite nth_error_app1 by lia.
        rewrite nth_error_skipn. f_equal. lia.
      * rewrite nth_error_app2 by lia. rewrite Hhead.
        rewrite nth_error_skipn.
        rewrite nth_error_app1 by lia.
        rewrite nth_error_firstn.
        destruct (Nat.ltb_spec
                    (Z.to_nat (w + Z.of_nat (length data) - C)
                     + (Z.to_nat i
                        - Z.to_nat (w + Z.of_nat (length data) - C)))
                    (Z.to_nat w)); [|lia].
        f_equal. lia.
    + destruct (Z.ltb_spec (i - w) (len data)); [|unfold len in *; lia].
      unfold len in *.
      rewrite nth_error_app2 by lia. rewrite Hhead.
      rewrite nth_error_skipn.
      rewrite nth_error_app2 by lia. rewrite Hlw.
      rewrite nth_error_firstn.
      destruct (Nat.ltb_spec
                  (Z.to_nat (w + Z.of_nat (length data) - C)
                   + (Z.to_nat i
                      - Z.to_nat (w + Z.of_nat (length data) - C))
                   - Z.to_nat w)
                  (Z.to_nat (C - w))); [|lia].
      f_equal. lia.
Qed.

(** Two reads in a row hand out what one read of both sizes hands out. *)
Lemma ring_get_twice buffer n1 n2 r d1 r1 d2 r2 :
  0 <= r < C -> 0 <= n1 -> 0 <= n2 -> n1 + n2 <= C -> C <= len buffer ->
  r + n1 <> C -> r + n1 + n2 <> C -> r1 + n2 <> C ->
  ring_get C buffer n1 r = inr (d1, r1) ->
  ring_get C buffer n2 r1 = inr (d2, r2) ->
  ring_get C buffer (n1 + n2) r = inr (d1 ++ d2, r2).
Proof.
  intros Hr H1 H2 Hs HL Ha Hb Hc E1 E2.
  assert (B1 : 0 <= n1 <= C) by lia.
  assert (B2 : 0 <= n2 <= C) by lia.
  assert (B : 0 <= n1 + n2 <= C) by lia.
  assert (Hb' : r + (n1 + n2) <> C) by lia.
  destruct (ring_get_elements _ C_pos _ _ _ _ _ Hr B1 HL Ha E1)
    as (Hr1 & Hl1 & He1).
  assert (Hr1' : 0 <= r1 < C).
  { rewrite Hr1. apply Z.mod_pos_bound. lia. }
  destruct (ring_get_elements _ C_pos _ _ _ _ _ Hr1' B2 HL Hc E2)
    as (Hr2 & Hl2 & He2).
  destruct (ring_get_cursor _ C_pos buffer (n1 + n2) r) as [d E].
  destruct (ring_get_elements _ C_pos _ _ _ _ _ Hr B HL Hb' E)
    as (_ & Hl & He).
  rewrite E. f_equal. f_equal.
  - apply nth_error_ext. intros k.
    destruct (Nat.lt_ge_cases k (Z.to_nat (n1 + n2))) as [Hk|Hk].
    + replace k with (Z.to_nat (Z.of_nat k)) by lia.
      rewrite He by lia.
      destruct (Nat.lt_ge_cases k (Z.to_nat n1)) as [Hk1|Hk1].
      * rewrite nth_error_app1 by (unfold len in Hl1; lia).
        rewrite He1 by lia. reflexivity.
      * rewrite nth_error_app2 by (unfold len in Hl1; lia).
        replace (Z.to_nat (Z.of_nat k) - length d1)%nat
          with (Z.to_nat (Z.of_nat k - n1)) by (unfold len in Hl1; lia).
        rewrite He2 by lia. f_equal. f_equal.
        rewrite Hr1, Zplus_mod_idemp_l. f_equal. lia.
    + transitivity (@None byte).
      * apply nth_error_None. unfold len in Hl. lia.
      * symmetry. apply nth_error_None. rewrite length_app.
        unfold len in Hl1, Hl2. lia.
  - rewrite Hr2, Hr1, Zplus_mod_idemp_l. f_equal. lia.
Qed.

End RingBytes.

(** ** Ports: what writes keep, what reads compose to *)

Lemma set_input_same self :
  set_input (input_buffer self) (input_buffer_w_index self) self = self.
Proof. now destruct self. Qed.

(** X1. A write of any length on either side of a well-formed port
    succeeds and leaves a well-formed port: the capacity is not above the
    length of the storage and the write index is inside the capacity. The
    write changes its own side only; name, bit rate and capacities stay. *)
Theorem writes_keep_ports_well_formed (self : SerialPort) (data : list byte) :
  port_wf self ->
  (exists self',
     put_input data self = Ok tt self' /\ port_wf self' /\
     output_buffer self' = output_buffer self /\
     output_buffer_w_index self' = output_buffer_w_index self /\
     port self' = port self /\ baudrate self' = baudrate self /\
     input_buffer_size self' = input_buffer_size self /\
     output_buffer_size self' = output_buffer_size self)
  /\
  (exists self',
     put_output data self = Ok tt self' /\ port_wf self' /\
     input_buffer self' = input_buffer self /\
     input_buffer_w_index self' = input_buffer_w_index self /\
     port self' = port self /\ baudrate self' = baudrate self /\
     input_buffer_size self' = input_buffer_size self /\
     output_buffer_size self' = output_buffer_size self).
Proof.
  intros W. split.
  - destruct (put_input_wf self data W) as (self' & E & W').
    exists self'. split; [exact E|]. split; [exact W'|].
    unfold put_input in E.
    destruct (ring_put _ _ _ _) as [x|[b w]]; [discriminate|].
    injection E as <-. repeat split.
  - destruct (put_output_wf self data W) as (self' & E & W').
    exists self'. split; [exact E|]. split; [exact W'|].
    unfold put_output in E.
    destruct (ring_put _ _ _ _) as [x|[b w]]; [discriminate|].
    injection E as <-. repeat split.
Qed.

Lemma writes_keep_ports_well_formed_witness :
  let p := SerialPort_init "/dev/ttyAMA0" 115200 4 4 in
  exists p',
    put_input (bytes_of "abcdefghijk") p = Ok tt p' /\ port_wf p' /\
    output_buffer p' = output_buffer p.
Proof.
  intro p.
  assert (W : port_wf p) by (apply SerialPort_init_wf; lia).
  destruct (writes_keep_ports_well_formed p (bytes_of "abcdefghijk") W)
    as [(p' & E & W' & Ho & _) _].
  exists p'. auto.
Defined.

(** X2. A write of at most [capacity] bytes that does not end exactly at
    the end of the storage keeps the storage at [capacity] elements, and
    afterwards position [i] holds the byte of the data that is
    [(i - w) mod capacity] bytes in, when the data are that long, and the
    byte it held before otherwise: the write fills its window round the
    ring and touches nothing else. On the input side and on the output
    side alike. *)
Theorem write_fills_its_window (self : SerialPort) (data : list byte) :
  port_wf self -> storage_exact self ->
  (len data <= input_buffer_size self ->
   input_buffer_w_index self + len data <> input_buffer_size self ->
   exists self',
     put_input data self = Ok tt self' /\
     len (input_buffer self') = input_buffer_size self /\
     forall i, 0 <= i < input_buffer_size self ->
       nth_error (input_buffer self') (Z.to_nat i) =
       if (i - input_buffer_w_index self) mod input_buffer_size self
          <? len data
       then nth_error data
              (Z.to_nat ((i - input_buffer_w_index self)
                           mod input_buffer_size self))
       else nth_error (input_buffer self) (Z.to_nat i))
  /\
  (len data <= output_buffer_size self ->
   output_buffer_w_index self + len data <> output_buffer_size self ->
   exists self',
     put_output data self = Ok tt self' /\
     len (output_buffer self') = output_buffer_size self /\
     forall i, 0 <= i < output_buffer_size self ->
       nth_error (output_buffer self') (Z.to_nat i) =
       if (i - output_buffer_w_index self) mod output_buffer_size self
          <? len data
       then nth_error data
              (Z.to_nat ((i - output_buffer_w_index self)
                           mod output_buffer_size self))
       else nth_error (output_buffer self) (Z.to_nat i)).
Proof.
  intros [(Hci & _ & Hwi) (Hco & _ & Hwo)] [Xi Xo]. split; intros Hd Hne.
  - destruct (ring_put_cursor _ Hci (input_buffer_w_index self)
                (input_buffer self) data) as [b E].
    unfold put_input. rewrite E. eexists. split; [reflexivity|].
    cbn [input_buffer set_input]. split.
    + exact (ring_put_length _ Hci _ _ _ _ _ Hwi Hd Xi Hne E).
    + exact (ring_put_elements _ Hci _ _ _ _ _ Hwi Hd Xi Hne E).
  - destruct (ring_put_cursor _ Hco (output_buffer_w_index self)
                (output_buffer self) data) as [b E].
    unfold put_output. rewrite E. eexists. split; [reflexivity|].
    cbn [output_buffer set_output]. split.
    + exact (ring_put_length _ Hco _ _ _ _ _ Hwo Hd Xo Hne E).
    + exact (ring_put_elements _ Hco _ _ _ _ _ Hwo Hd Xo Hne E).
Qed.

Lemma write_fills_its_window_witness :
  let p := set_input (bytes_of "01234567") 6
                     (SerialPort_init "/dev/ttyAMA0" 115200 8 8) in
  exists p',
    put_input (bytes_of "abc") p = Ok tt p' /\
    len (input_buffer p') = 8 /\
    nth_error (input_buffer p') 0 = Some "c"%byte /\
    nth_error (input_buffer p') 1 = Some "1"%byte /\
    nth_error (input_buffer p') 7 = Some "b"%byte.
Proof.
  intro p.
  assert (W : port_wf p).
  { unfold port_wf, input_wf, output_wf, len. simpl. lia. }
  assert (X : storage_exact p) by (split; reflexivity).
  destruct (write_fills_its_window p (bytes_of "abc") W X) as [Hi _].
  destruct Hi as (p' & E & Hl & Hel).
  - simpl. vm_compute. discriminate.
  - simpl. vm_compute. discriminate.
  - exists p'. split; [exact E|]. split; [exact Hl|].
    split; [|split].
    + apply (Hel 0). simpl. lia.
    + apply (Hel 1). simpl. lia.
    + apply (Hel 7). simpl. lia.
Defined.

(** X3. A write longer than the capacity that does not go round the ring
    twice ([capacity < len data] and [w + len data < 2 * capacity]) keeps
    the storage at [capacity] elements and overwrites its own beginning:
    a reader that stood at the write index is told that
    [len data - capacity] bytes are available, and reads the last
    [len data - capacity] bytes of the data; the bytes before them are
    lost to it. *)
Theorem overlong_write_keeps_the_tail (self : SerialPort) (data : list byte) :
  input_wf self ->
  input_buffer_size self < len data ->
  input_buffer_w_index self + len data < 2 * input_buffer_size self ->
  let C := input_buffer_size self in
  let r := input_buffer_w_index self in
  exists self',
    put_input data self = Ok tt self' /\
    len (input_buffer self') = C /\
    input_buffer_w_index self' = r + len data - C /\
    input_dat_avail r self' = Ok (len data - C) self' /\
    get_input (len data - C) r self'
      = Ok (skipn (Z.to_nat C) data, input_buffer_w_index self') self'.
Proof.
  intros (Hc & HL & Hw) Hlong Htwice C r. subst C r.
  set (C := input_buffer_size self) in *.
  set (w := input_buffer_w_index self) in *.
  assert (Hlw : length (firstn (Z.to_nat w) (input_buffer self))
                = Z.to_nat w).
  { rewrite length_firstn. unfold len in HL. lia. }
  assert (Hhead : length (skipn (Z.to_nat (C - w)) data)
                  = Z.to_nat (w + len data - C)).
  { rewrite length_skipn. unfold len. lia. }
  assert (Hold : length (firstn (Z.to_nat w) (input_buffer self)
                           ++ firstn (Z.to_nat (C - w)) data)
                 = Z.to_nat C).
  { rewrite length_app, Hlw, length_firstn. unfold len in Hlong. lia. }
  unfold put_input. fold C w.
  rewrite (ring_put_wrap_long C Hc) by lia.
  eexists. split; [reflexivity|].
  cbn [input_buffer input_buffer_w_index input_buffer_size set_input].
  fold C.
  assert (Hlen : len (skipn (Z.to_nat (C - w)) data
                        ++ skipn (Z.to_nat (w + len data - C))
                             (firstn (Z.to_nat w) (input_buffer self)
                                ++ firstn (Z.to_nat (C - w)) data)) = C).
  { unfold len. rewrite length_app, Hhead, length_skipn, Hold.
    unfold len in *. lia. }
  split; [exact Hlen|]. split; [reflexivity|]. split.
  - unfold input_dat_avail, gets.
    cbn [input_buffer_w_index input_buffer_size set_input]. fold C.
    f_equal. rewrite (ring_avail_mod C Hc) by lia.
    replace (w + len data - C - w) with (len data - C) by lia.
    apply Z.mod_small. lia.
  - unfold get_input, lift.
    cbn [input_buffer input_buffer_w_index input_buffer_size set_input].
    fold C.
    rewrite (ring_get_inside C Hc) by lia.
    replace (w + (len data - C)) with (w + len data - C) by lia.
    cbv beta iota. do 2 f_equal.
    rewrite skipn_app, Hhead.
    replace (Z.to_nat w - Z.to_nat (w + len data - C))%nat with O by lia.
    rewrite skipn_O, skipn_skipn.
    replace (Z.to_nat w + Z.to_nat (C - w))%nat with (Z.to_nat C) by lia.
    apply firstn_app_exact. rewrite length_skipn. unfold len. lia.
Qed.

Lemma overlong_write_keeps_the_tail_witness :
  let p := SerialPort_init "/dev/ttyAMA0" 115200 4 4 in
  exists p',
    put_input (bytes_of "abcdef") p = Ok tt p' /\
    input_dat_avail 0 p' = Ok 2 p' /\
    get_input 2 0 p' = Ok (bytes_of "ef", 2) p'.
Proof.
  intro p.
  destruct (overlong_write_keeps_the_tail p (bytes_of "abcdef"))
    as (p' & E & _ & Hw & Ha & Hg).
  - apply SerialPort_init_wf; lia.
  - simpl. vm_compute. reflexivity.
  - simpl. vm_compute. reflexivity.
  - exists p'. split; [exact E|]. split; [exact Ha|].
    rewrite Hw in Hg. exact Hg.
Defined.

(** X4. Reading [n1] bytes and then [n2] bytes from where the first read
    ended hands out, one after the other, what a single read of
    [n1 + n2] bytes hands out, and ends at the same cursor; for
    [n1 + n2] at most the capacity and none of the three reads ending
    exactly at the end of the storage. *)
Theorem reads_compose (self : SerialPort) (n1 n2 r : Z) :
  input_wf self ->
  let C := input_buffer_size self in
  0 <= r < C -> 0 <= n1 -> 0 <= n2 -> n1 + n2 <= C ->
  r + n1 <> C -> r + n1 + n2 <> C -> (r + n1) mod C + n2 <> C ->
  exists d1 r1 d2 r2,
    get_input n1 r self = Ok (d1, r1) self /\
    get_input n2 r1 self = Ok (d2, r2) self /\
    get_input (n1 + n2) r self = Ok (d1 ++ d2, r2) self.
Proof.
  intros (Hc & HL & _) C Hr H1 H2 Hs Ha Hb Hd. subst C.
  destruct (ring_get_cursor _ Hc (input_buffer self) n1 r) as [d1 E1].
  destruct (ring_get_cursor _ Hc (input_buffer self) n2
              ((r + n1) mod input_buffer_size self)) as [d2 E2].
  exists d1, ((r + n1) mod input_buffer_size self), d2.
  eexists. unfold get_input, lift.
  rewrite E1, E2.
  rewrite (ring_get_twice _ Hc _ _ _ _ _ _ _ _ Hr H1 H2 Hs HL Ha Hb Hd E1 E2).
  repeat split; reflexivity.
Qed.

Lemma reads_compose_witness :
  let p := set_input (bytes_of "01234567") 3
                     (SerialPort_init "/dev/ttyAMA0" 115200 8 8) in
  exists d1 r1 d2 r2,
    get_input 3 6 p = Ok (d1, r1) p /\
    get_input 2 r1 p = Ok (d2, r2) p /\
    get_input 5 6 p = Ok (d1 ++ d2, r2) p.
Proof.
  intro p.
  apply (reads_compose p 3 2 6).
  - unfold input_wf, len. simpl. lia.
  - simpl. lia.
  - lia.
  - lia.
  - simpl. lia.
  - simpl. lia.
  - simpl. lia.
  - simpl. vm_compute. discriminate.
Defined.

(** X5. A transfer that ends exactly at the end of the storage: the
    write leaves the write index at 0 and puts its data in front of the
    bytes it should have replaced, which stay in the storage behind them;
    the read returns no byte at all and moves the cursor to 0. *)
Theorem transfers_to_the_end_of_the_storage
    (self : SerialPort) (data : list byte) (size r : Z) :
  input_wf self ->
  let C := input_buffer_size self in
  let w := input_buffer_w_index self in
  (w + len data = C ->
   put_input data self =
     Ok tt (set_input (firstn (Z.to_nat w) (input_buffer self) ++ data
                         ++ skipn (Z.to_nat w) (input_buffer self))
                      0 self))
  /\
  (0 <= r -> r + size = C -> get_input size r self = Ok ([], 0) self).
Proof.
  intros (Hc & HL & Hw) C w. subst C w. split.
  - intros Hb. unfold put_input.
    now rewrite (ring_put_boundary _ Hc) by lia.
  - intros Hr Hb. unfold get_input, lift.
    now rewrite (ring_get_boundary _ Hc) by lia.
Qed.

Lemma transfers_to_the_end_of_the_storage_witness :
  let p := set_input (bytes_of "01234567") 5
                     (SerialPort_init "/dev/ttyAMA0" 115200 8 8) in
  put_input (bytes_of "abc") p
    = Ok tt (set_input (bytes_of "01234abc567") 0 p) /\
  get_input 3 5 p = Ok ([], 0) p.
Proof.
  intro p.
  destruct (transfers_to_the_end_of_the_storage p (bytes_of "abc") 3 5)
    as [Hput Hget].
  - unfold input_wf, len. simpl. lia.
  - split.
    + apply Hput. reflexivity.
    + apply Hget; [lia | reflexivity].
Defined.

(** X6. Transfers of nothing: a write of no byte leaves a well-formed
    port exactly as it was, and a read of no byte at a cursor inside the
    capacity returns no byte and the same cursor. *)
Theorem empty_transfers_change_nothing (self : SerialPort) (r : Z) :
  input_wf self ->
  put_input [] self = Ok tt self /\
  (0 <= r < input_buffer_size self -> get_input 0 r self = Ok ([], r) self).
Proof.
  intros (Hc & HL & Hw). split.
  - unfold put_input.
    rewrite (ring_put_inside _ Hc) by (change (len (@nil byte)) with 0; lia).
    change (len (@nil byte)) with 0. rewrite Z.add_0_r.
    cbn [app]. rewrite firstn_skipn. now rewrite set_input_same.
  - intros Hr. unfold get_input, lift.
    rewrite (ring_get_inside _ Hc) by lia.
    now rewrite Z.add_0_r.
Qed.

Lemma empty_transfers_change_nothing_witness :
  let p := SerialPort_init "/dev/ttyAMA0" 115200 8 8 in
  put_input [] p = Ok tt p /\ get_input 0 5 p = Ok ([], 5) p.
Proof.
  intro p.
  destruct (empty_transfers_change_nothing p 5) as [Hput Hget].
  - apply SerialPort_init_wf; lia.
  - split; [exact Hput|]. apply Hget. simpl. lia.
Defined.

(** ** The bridge: draining the output side *)

(** X7. One turn of the loop of the bridge, at a cursor inside the
    capacity of a well-formed port. When nothing is available it sends
    nothing and keeps its cursor. When something is available and the
    read does not end exactly at the end of the storage, it sends as many
    bytes as are available, the stored bytes from its cursor on round the
    ring, its cursor becomes the write index, and the next turn sends
    nothing. When the read ends exactly at the end of the storage (the
    write index is 0, the cursor is not) it sends an empty message and
    its cursor becomes 0: the available bytes are skipped. *)
Theorem bridge_poll_catches_up (self : SerialPort) (r : Z) :
  output_wf self ->
  let C := output_buffer_size self in
  let w := output_buffer_w_index self in
  let avail := (w - r) mod C in
  0 <= r < C ->
  (avail = 0 -> bridge_poll r self = Ok (None, r) self) /\
  (0 < avail -> r + avail <> C ->
   exists d,
     bridge_poll r self = Ok (Some d, w) self /\
     len d = avail /\
     (forall i, 0 <= i < avail ->
        nth_error d (Z.to_nat i) =
        nth_error (output_buffer self) (Z.to_nat ((r + i) mod C))) /\
     bridge_poll w self = Ok (None, w) self) /\
  (0 < avail -> r + avail = C ->
   bridge_poll r self = Ok (Some [], 0) self).
Proof.
  intros (Hc & HL & Hw) C w avail Hr.
  assert (Hrange : 0 <= avail < C) by (apply Z.mod_pos_bound; exact Hc).
  assert (Hav : output_dat_avail r self = Ok avail self).
  { unfold output_dat_avail, gets. fold C w.
    now rewrite (ring_avail_mod C Hc) by assumption. }
  unfold bridge_poll.
  split; [|split].
  - intros H0. rewrite (bind_ok _ _ _ _ _ Hav).
    destruct (Z.gtb_spec avail 0); [lia|reflexivity].
  - intros Hpos Hne.
    destruct (ring_get_cursor C Hc (output_buffer self) avail r) as [d E].
    assert (Hs : 0 <= avail <= C) by lia.
    destruct (ring_get_elements C Hc _ _ _ _ _ Hr Hs HL Hne E)
      as (_ & Hlen & Hel).
    assert (Hgoal : (r + avail) mod C = w).
    { unfold avail. rewrite Zplus_mod_idemp_r.
      replace (r + (w - r)) with w by lia.
      now apply Z.mod_small. }
    rewrite Hgoal in E.
    exists d. split; [|split; [exact Hlen|split; [exact Hel|]]].
    + rewrite (bind_ok _ _ _ _ _ Hav).
      destruct (Z.gtb_spec avail 0); [|lia].
      unfold Py.bind, get_output, lift, ret. fold C. now rewrite E.
    + unfold Py.bind, output_dat_avail, gets. fold C w.
      rewrite ring_avail_same.
      now destruct (Z.gtb_spec 0 0); [lia|].
  - intros Hpos Heq. rewrite (bind_ok _ _ _ _ _ Hav).
    destruct (Z.gtb_spec avail 0); [|lia].
    unfold Py.bind, get_output, lift, ret. fold C.
    now rewrite (ring_get_boundary C Hc) by lia.
Qed.

Lemma bridge_poll_catches_up_witness :
  let p := set_output (bytes_of "01234567") 3
                      (SerialPort_init "/dev/ttyAMA0" 115200 8 8) in
  exists d,
    bridge_poll 6 p = Ok (Some d, 3) p /\ len d = 5 /\
    bridge_poll 3 p = Ok (None, 3) p.
Proof.
  intro p.
  destruct (bridge_poll_catches_up p 6) as (_ & H & _).
  - unfold output_wf, len. simpl. lia.
  - simpl. lia.
  - destruct H as (d & E & Hl & _ & E').
    + simpl. vm_compute. reflexivity.
    + simpl. vm_compute. discriminate.
    + exists d. split; [exact E|]. split; [exact Hl | exact E'].
Defined.

(** A write to the output side, then one turn of the bridge. *)
Lemma put_output_then_poll (self : SerialPort) (s : list byte) :
  output_wf self ->
  0 < len s < output_buffer_size self ->
  output_buffer_w_index self + len s <> output_buffer_size self ->
  exists self',
    put_output s self = Ok tt self' /\
    bridge_poll (output_buffer_w_index self) self'
      = Ok (Some s, output_buffer_w_index self') self'.
Proof.
  intros (Hc & HL & Hw) Hs Hne.
  destruct (ring_put_cursor _ Hc (output_buffer_w_index self)
              (output_buffer self) s) as [b E].
  unfold put_output. rewrite E. eexists. split; [reflexivity|].
  assert (Hd : len s <= output_buffer_size self) by lia.
  pose proof (ring_round_trip _ Hc _ _ _ _ _ Hw Hd HL Hne E) as Hget.
  pose proof (Z.mod_pos_bound (output_buffer_w_index self + len s) _ Hc)
    as Hg.
  unfold bridge_poll, Py.bind, output_dat_avail, gets, get_output, lift, ret.
  cbn [output_buffer output_buffer_w_index output_buffer_size set_output].
  rewrite (ring_avail_mod _ Hc) by (assumption || lia).
  rewrite Zminus_mod_idemp_l.
  replace (output_buffer_w_index self + len s - output_buffer_w_index self)
    with (len s) by lia.
  rewrite (Z.mod_small (len s)) by lia.
  destruct (Z.gtb_spec (len s) 0); [|lia].
  cbn [output_buffer output_buffer_size set_output].
  now rewrite Hget.
Qed.

(** X8. What the client writes reaches the bridge: after a write to the
    output side of between 1 and [capacity - 1] bytes that does not end
    exactly at the end of the storage, a bridge whose cursor stood at the
    write index sends exactly these bytes on its next turn, and its
    cursor becomes the new write index. *)
Theorem client_write_reaches_the_bridge (self : SerialPort) (s : list byte) :
  output_wf self ->
  0 < len s < output_buffer_size self ->
  output_buffer_w_index self + len s <> output_buffer_size self ->
  exists self',
    put_output s self = Ok tt self' /\
    bridge_poll (output_buffer_w_index self) self'
      = Ok (Some s, output_buffer_w_index self') self'.
Proof. exact (put_output_then_poll self s). Qed.

Lemma client_write_reaches_the_bridge_witness :
  let p := set_output (bytes_of "01234567") 6
                      (SerialPort_init "/dev/ttyAMA0" 115200 8 8) in
  exists p',
    put_output (bytes_of "abc") p = Ok tt p' /\
    bridge_poll 6 p' = Ok (Some (bytes_of "abc"), 1) p'.
Proof.
  intro p.
  destruct (client_write_reaches_the_bridge p (bytes_of "abc"))
    as (p' & E & Hpoll).
  - unfold output_wf, len. simpl. lia.
  - simpl. vm_compute. split; reflexivity.
  - simpl. vm_compute. discriminate.
  - exists p'. split; [exact E|].
    vm_compute in E. injection E as <-. exact Hpoll.
Defined.

(** ** The registry of ports *)

Lemma find_port_app l l' k name p1 :
  find_port (l ++ l') k name p1 =
  match find_port l k name p1 with
  | Some r => Some r
  | None => find_port l' (k + length l) name p1
  end.
Proof.
  revert k. induction l as [|sp l IH]; intros k; simpl.
  - now rewrite Nat.add_0_r.
  - destruct (String.eqb (port sp) name && (baudrate sp =? p1));
      [reflexivity|].
    rewrite IH. now rewrite Nat.add_succ_r.
Qed.

(** X9. Registration and lookup. [add_serialport] appends one port of
    10000 bytes on each side and keeps the others; every name and bit
    rate that the search of SERO resolved before is resolved to the same
    position after; the registered name and bit rate are resolved after,
    to the new port when they were not resolved before, and to the port
    that was found before otherwise, so that a second registration of a
    name and bit rate is never reached by SERO. *)
Theorem registration_then_lookup
    (hw : VirtualHardware) (name : string) (baud : Z) :
  let ports := serialports hw in
  let ports' := serialports (add_serialport name baud hw) in
  let new := SerialPort_init name baud 10000 10000 in
  ports' = ports ++ [new] /\
  port_wf new /\ storage_exact new /\
  (forall n b r,
     find_port ports 0 n b = Some r -> find_port ports' 0 n b = Some r) /\
  (find_port ports 0 name baud = None ->
   find_port ports' 0 name baud = Some (length ports)) /\
  exists r sp,
    find_port ports' 0 name baud = Some r /\
    nth_error ports' r = Some sp /\ port sp = name /\ baudrate sp = baud.
Proof.
  intros ports ports' new.
  assert (Hp : ports' = ports ++ [new]) by reflexivity.
  assert (Hself : find_port [new] (length ports) name baud
                  = Some (length ports)).
  { simpl. now rewrite String.eqb_refl, Z.eqb_refl. }
  split; [exact Hp|].
  split; [apply SerialPort_init_wf; lia|].
  split; [apply SerialPort_init_wf; lia|].
  split; [|split].
  - intros n b r H. rewrite Hp, find_port_app. now rewrite H.
  - intros H. rewrite Hp, find_port_app, H. exact Hself.
  - apply find_port_found. exists new. rewrite Hp. split.
    + apply in_or_app. right. now left.
    + split; reflexivity.
Qed.

Lemma registration_then_lookup_witness :
  let hw := add_serialport "/dev/ttyAMA0" 115200
              (add_serialport "/dev/ttyAMA0" 115200 VirtualHardware_init) in
  length (serialports hw) = 2%nat /\
  find_port (serialports hw) 0 "/dev/ttyAMA0" 115200 = Some 0%nat.
Proof.
  intro hw.
  destruct (registration_then_lookup
              (add_serialport "/dev/ttyAMA0" 115200 VirtualHardware_init)
              "/dev/ttyAMA0" 115200) as (Hp & _ & _ & Hkeep & _).
  split.
  - unfold hw. rewrite Hp. reflexivity.
  - apply Hkeep. reflexivity.
Defined.

(** ** What every frame keeps *)

Section Keeps.

Variable R : PigpioClient -> PigpioClient -> Prop.
Hypothesis R_refl : forall c, R c c.
Hypothesis R_trans : forall a b c, R a b -> R b c -> R a c.
Hypothesis R_out : forall o c, R c (set_main_conn_out o c).
Hypothesis R_log : forall l c, R c (set_log l c).
Hypothesis R_in : forall n c,
  R c (set_main_conn_in (skipn n (main_conn_in c)) c).
Hypothesis R_ext : forall e c, R c (set_ext e c).
Hypothesis R_cursor : forall k f,
  (forall b, binding_key (f b) = binding_key b) -> keeps R (on_instance k f).
Hypothesis R_append : forall c ref,
  (ref < length (serialports (virtual_hardware c)))%nat ->
  R c (set_instances
         (serial_instances c
            ++ [PigpioSerialInstance_init ref (len (serial_instances c))]) c).

Lemma keeps_ret {A} (a : A) : keeps R (ret a).
Proof. intros c. apply R_refl. Qed.

Lemma keeps_raise {A} e : keeps R (@raise PigpioClient A e).
Proof. intros c. apply R_refl. Qed.

Lemma keeps_lift {A} (r : exn + A) : keeps R (lift r).
Proof. intros c. unfold lift. destruct r; apply R_refl. Qed.

Lemma keeps_gets {A} (f : PigpioClient -> A) : keeps R (gets f).
Proof. intros c. apply R_refl. Qed.

Lemma keeps_bind {A B} (m : M PigpioClient A) (k : A -> M PigpioClient B) :
  keeps R m -> (forall a, keeps R (k a)) -> keeps R (Py.bind m k).
Proof.
  intros Hm Hk c. specialize (Hm c). unfold Py.bind.
  destruct (m c) as [a c'|e c']; [|exact Hm].
  eapply R_trans; [exact Hm|]. apply Hk.
Qed.

(** The same, when what follows only has to keep [R] from the states the
    first part can end in. *)
Lemma keeps_bind_from {A B} (m : M PigpioClient A)
    (k : A -> M PigpioClient B) c :
  R c (state_of (m c)) ->
  (forall a c', m c = Ok a c' -> R c' (state_of (k a c'))) ->
  R c (state_of (Py.bind m k c)).
Proof.
  intros Hm Hk. unfold Py.bind.
  destruct (m c) as [a c'|e c'] eqn:E; [|exact Hm].
  eapply R_trans; [exact Hm|]. now apply Hk.
Qed.

Lemma keeps_send p : keeps R (send p).
Proof. intros c. apply R_out. Qed.

Lemma keeps_logger e : keeps R (logger e).
Proof. intros c. apply R_log. Qed.

Lemma keeps_recv n : keeps R (recv n).
Proof. intros c. apply R_in. Qed.

Lemma keeps_set_ext e : keeps R (modify (set_ext e)).
Proof. intros c. apply R_ext. Qed.

(** A call that leaves the port as it is leaves the client as it is. *)
Lemma keeps_on_port_read {A} ref (m : M SerialPort A) :
  (forall sp, state_of (m sp) = sp) -> keeps R (on_port ref m).
Proof.
  intros Hm c. unfold on_port.
  destruct (nth_error (serialports (virtual_hardware c)) ref) as [sp|] eqn:E;
    [|apply R_refl].
  specialize (Hm sp).
  destruct (m sp) as [a sp'|e sp']; simpl in Hm; subst sp';
    cbn [state_of]; rewrite (set_hardware_same _ _ _ E); apply R_refl.
Qed.

Lemma bind_port_reads sp : state_of (bind_port sp) = sp.
Proof. reflexivity. Qed.

Lemma input_dat_avail_reads r sp : state_of (input_dat_avail r sp) = sp.
Proof. reflexivity. Qed.

Lemma get_input_reads size r sp : state_of (get_input size r sp) = sp.
Proof. unfold get_input, lift. now destruct ring_get. Qed.

Lemma keeps_open k self p baud : keeps R (open k self p baud).
Proof.
  unfold open.
  apply keeps_bind; [apply keeps_on_port_read, bind_port_reads|]. intros io.
  apply keeps_bind; [now apply R_cursor|]. intros _.
  apply keeps_bind; [apply keeps_send|]. intros _.
  apply keeps_logger.
Qed.

Lemma keeps_close self : keeps R (close self).
Proof.
  unfold close.
  apply keeps_bind; [apply keeps_send|]. intros _.
  apply keeps_bind; [now apply keeps_on_port_read|]. intros name.
  apply keeps_logger.
Qed.

Lemma keeps_read_request k self size : keeps R (read_request k self size).
Proof.
  unfold read_request.
  apply keeps_bind; [apply keeps_on_port_read, input_dat_avail_reads|].
  intros avail.
  apply keeps_bind.
  { destruct (size >? avail);
      [apply keeps_on_port_read, input_dat_avail_reads | apply keeps_ret]. }
  intros size'.
  apply keeps_bind; [apply keeps_on_port_read, get_input_reads|]. intros r.
  apply keeps_bind; [now apply R_cursor|]. intros _.
  apply keeps_bind; [apply keeps_lift|]. intros _.
  apply keeps_bind; [apply keeps_logger|]. intros _.
  apply keeps_bind; [apply keeps_send|]. intros _.
  apply keeps_send.
Qed.

Lemma keeps_data_available_request self :
  keeps R (data_available_request self).
Proof.
  unfold data_available_request.
  apply keeps_bind; [apply keeps_on_port_read, input_dat_avail_reads|].
  intros n. apply keeps_send.
Qed.

(** Writing to the output side is the one thing that may not keep
    [R]. *)
Local Abbreviation put_kept :=
  (forall ref data, keeps R (on_port ref (put_output data))).

Lemma keeps_write_request self data :
  put_kept -> keeps R (write_request self data).
Proof.
  intros Hput. unfold write_request.
  apply keeps_bind; [apply keeps_lift|]. intros u.
  apply keeps_bind; [apply Hput|]. intros _.
  apply keeps_bind; [apply keeps_lift|]. intros _.
  apply keeps_bind; [apply keeps_logger|]. intros _.
  apply keeps_send.
Qed.

Lemma keeps_dispatch cmd p1 p2 p3 :
  (cmd = _PI_CMD_SERW -> put_kept) -> keeps R (dispatch cmd p1 p2 p3).
Proof.
  intros Hput. unfold dispatch.
  destruct (cmd =? _PI_CMD_SERO).
  { apply keeps_bind; [apply keeps_gets|]. intros e.
    apply keeps_bind.
    { destruct e; [apply keeps_raise | apply keeps_lift | apply keeps_raise]. }
    intros name.
    apply keeps_bind; [apply keeps_set_ext|]. intros _.
    intros c. unfold Py.bind at 1. unfold gets at 1.
    destruct (find_port (serialports (virtual_hardware c)) 0 name p1)
      as [ref|] eqn:Ef.
    - destruct (find_port_some _ _ _ _ _ Ef) as (_ & sp & Hn & _).
      rewrite Nat.sub_0_r in Hn.
      assert (Href : (ref < length (serialports (virtual_hardware c)))%nat).
      { apply nth_error_Some. congruence. }
      unfold Py.bind at 1. unfold gets at 1.
      unfold Py.bind at 1. unfold modify at 1.
      eapply R_trans; [apply (R_append c ref Href)|].
      apply keeps_bind; [apply keeps_gets|]. intros insts.
      apply keeps_bind; [apply keeps_lift|]. intros last.
      apply keeps_open.
    - apply keeps_bind; [apply keeps_send|]. intros _. apply keeps_logger. }
  destruct (Z.eqb_spec cmd _PI_CMD_SERC).
  { apply keeps_bind; [apply keeps_gets|]. intros insts.
    apply keeps_bind; [apply keeps_lift|]. intros self.
    apply keeps_close. }
  destruct (Z.eqb_spec cmd _PI_CMD_SERW).
  { apply keeps_bind; [apply keeps_gets|]. intros insts.
    apply keeps_bind; [apply keeps_lift|]. intros self.
    apply keeps_write_request. auto. }
  destruct (cmd =? _PI_CMD_SERR).
  { apply keeps_bind; [apply keeps_lift|]. intros size.
    apply keeps_bind; [apply keeps_gets|]. intros insts.
    apply keeps_bind; [apply keeps_lift|]. intros self.
    apply keeps_read_request. }
  destruct (cmd =? _PI_CMD_SERDA).
  { apply keeps_bind; [apply keeps_gets|]. intros insts.
    apply keeps_bind; [apply keeps_lift|]. intros self.
    apply keeps_data_available_request. }
  apply keeps_logger.
Qed.

Lemma keeps_on_frame cmd p1 p2 p3 :
  (cmd = _PI_CMD_SERW -> put_kept) -> keeps R (on_frame cmd p1 p2 p3).
Proof.
  intros Hput. unfold on_frame.
  apply keeps_bind.
  { destruct (p3 =? 0); [apply keeps_ret|].
    apply keeps_bind; [apply keeps_recv|]. intros chunk.
    apply keeps_bind; [apply keeps_lift|]. intros e.
    apply keeps_bind; [apply keeps_set_ext|]. intros _.
    apply keeps_ret. }
  intros p2'.
  apply keeps_bind; [apply keeps_gets|]. intros i.
  do 5 (apply keeps_bind; [apply keeps_logger|]; intros _).
  now apply keeps_dispatch.
Qed.

Lemma keeps_iteration : put_kept -> keeps R iteration.
Proof.
  intros Hput. unfold iteration.
  apply keeps_bind; [apply keeps_recv|]. intros raw.
  destruct raw as [|x raw].
  - apply keeps_bind; [apply keeps_gets|]. intros i.
    apply keeps_bind; [apply keeps_logger|]. intros _.
    apply keeps_ret.
  - apply keeps_bind; [apply keeps_lift|].
    intros [[[cmd p1] p2] p3].
    apply keeps_bind; [now apply keeps_on_frame|]. intros _.
    apply keeps_ret.
Qed.

Lemma keeps_loop fuel : put_kept -> keeps R (loop fuel).
Proof.
  intros Hput. induction fuel as [|fuel IH]; simpl.
  - apply keeps_ret.
  - apply keeps_bind; [now apply keeps_iteration|].
    intros [|]; [exact IH | apply keeps_ret].
Qed.

End Keeps.

(** *** The registry and the input sides *)

Lemma map_update {A B} (f : A -> B) (l : list A) k x y :
  nth_error l k = Some x -> f y = f x -> map f (update l k y) = map f l.
Proof.
  revert k. induction l as [|h t IH]; intros [|k] H E; simpl in *;
    try discriminate.
  - injection H as ->. now rewrite E.
  - now rewrite (IH k).
Qed.

Lemma registry_kept_same c c' :
  virtual_hardware c' = virtual_hardware c -> registry_kept c c'.
Proof. intros H. unfold registry_kept. now rewrite H. Qed.

Lemma put_output_input_side data sp :
  input_side (state_of (put_output data sp)) = input_side sp.
Proof.
  unfold put_output. destruct ring_put as [e|[b w]]; reflexivity.
Qed.

Lemma registry_kept_put ref data :
  keeps registry_kept (on_port ref (put_output data)).
Proof.
  intros c. unfold on_port, registry_kept.
  destruct (nth_error (serialports (virtual_hardware c)) ref) as [sp|] eqn:E;
    [|reflexivity].
  pose proof (put_output_input_side data sp) as H.
  destruct (put_output data sp) as [a sp'|e sp']; cbn [state_of] in *;
    destruct c as [i [ports] insts e0 mi mo no lg]; cbn in *;
    now apply map_update with sp.
Qed.

Lemma on_instance_hardware k f c :
  virtual_hardware (state_of (on_instance k f c)) = virtual_hardware c.
Proof.
  unfold on_instance, modify, state_of.
  destruct (nth_error (serial_instances c) k); now destruct c.
Qed.

Lemma registry_kept_frame cmd p1 p2 p3 :
  keeps registry_kept (on_frame cmd p1 p2 p3).
Proof.
  apply keeps_on_frame.
  - intros c. reflexivity.
  - intros a b c H1 H2. unfold registry_kept in *. congruence.
  - intros o c. apply registry_kept_same. now destruct c.
  - intros l c. apply registry_kept_same. now destruct c.
  - intros n c. apply registry_kept_same. now destruct c.
  - intros e c. apply registry_kept_same. now destruct c.
  - intros k f _ c. apply registry_kept_same, on_instance_hardware.
  - intros c ref _. apply registry_kept_same. now destruct c.
  - intros _. exact registry_kept_put.
Qed.

Lemma hardware_kept_frame cmd p1 p2 p3 :
  cmd <> _PI_CMD_SERW -> keeps hardware_kept (on_frame cmd p1 p2 p3).
Proof.
  intros Hcmd. apply keeps_on_frame.
  - intros c. reflexivity.
  - intros a b c H1 H2. unfold hardware_kept in *. congruence.
  - intros o c. now destruct c.
  - intros l c. now destruct c.
  - intros n c. now destruct c.
  - intros e c. now destruct c.
  - intros k f _ c. apply on_instance_hardware.
  - intros c ref _. now destruct c.
  - intros H. contradiction.
Qed.

Lemma registry_kept_loop fuel : keeps registry_kept (loop fuel).
Proof.
  apply keeps_loop.
  - intros c. reflexivity.
  - intros a b c H1 H2. unfold registry_kept in *. congruence.
  - intros o c. apply registry_kept_same. now destruct c.
  - intros l c. apply registry_kept_same. now destruct c.
  - intros n c. apply registry_kept_same. now destruct c.
  - intros e c. apply registry_kept_same. now destruct c.
  - intros k f _ c. apply registry_kept_same, on_instance_hardware.
  - intros c ref _. apply registry_kept_same. now destruct c.
  - exact registry_kept_put.
Qed.

(** X10. The client only ever writes to output sides. Whatever the frame
    and the state of the client, and whether the frame is served or an
    exception ends it, the ports afterwards are as many as before, with
    the same names, bit rates and capacities, the same input storage and
    the same input write index; a frame of any command but SERW leaves
    the whole hardware as it was. The same holds along the whole loop. *)
Theorem client_only_writes_output_sides
    (c : PigpioClient) (cmd p1 : Z) (p2 : list byte) (p3 : Z) (fuel : nat) :
  let c' := state_of (on_frame cmd p1 p2 p3 c) in
  map input_side (serialports (virtual_hardware c'))
    = map input_side (serialports (virtual_hardware c)) /\
  (cmd <> _PI_CMD_SERW -> virtual_hardware c' = virtual_hardware c) /\
  map input_side (serialports (virtual_hardware (state_of (loop fuel c))))
    = map input_side (serialports (virtual_hardware c)).
Proof.
  split; [|split].
  - apply registry_kept_frame.
  - intros H. now apply hardware_kept_frame.
  - apply registry_kept_loop.
Qed.

(** *** The bindings *)

Lemma bindings_extended_same c c' :
  serial_instances c' = serial_instances c -> bindings_extended c c'.
Proof.
  intros H. exists []. now rewrite H, app_nil_r.
Qed.

Lemma on_port_instances {A} ref (m : M SerialPort A) c :
  serial_instances (state_of (on_port ref m c)) = serial_instances c.
Proof.
  unfold on_port.
  destruct (nth_error (serialports (virtual_hardware c)) ref) as [sp|];
    [|reflexivity].
  destruct (m sp); now destruct c.
Qed.

Lemma bindings_extended_cursor k f :
  (forall b, binding_key (f b) = binding_key b) ->
  keeps bindings_extended (on_instance k f).
Proof.
  intros Hf c. unfold on_instance, modify, state_of.
  destruct (nth_error (serial_instances c) k) as [b|] eqn:E;
    [|now apply bindings_extended_same].
  exists []. rewrite app_nil_r.
  destruct c as [i hw insts e0 mi mo no lg]. cbn in *.
  now apply map_update with b.
Qed.

Section BindingsKept.

Let R := bindings_extended.

Lemma bindings_extended_refl c : R c c.
Proof. now apply bindings_extended_same. Qed.

Lemma bindings_extended_trans a b c : R a b -> R b c -> R a c.
Proof.
  intros [m1 H1] [m2 H2]. exists (m1 ++ m2).
  now rewrite H2, H1, app_assoc.
Qed.

Lemma bindings_extended_loop fuel : keeps R (loop fuel).
Proof.
  apply keeps_loop.
  - exact bindings_extended_refl.
  - exact bindings_extended_trans.
  - intros o c. apply bindings_extended_same. now destruct c.
  - intros l c. apply bindings_extended_same. now destruct c.
  - intros n c. apply bindings_extended_same. now destruct c.
  - intros e c. apply bindings_extended_same. now destruct c.
  - exact bindings_extended_cursor.
  - intros c ref _.
    exists [binding_key
              (PigpioSerialInstance_init ref (len (serial_instances c)))].
    destruct c. cbn. now rewrite map_app.
  - intros ref data c. apply bindings_extended_same, on_port_instances.
Qed.

End BindingsKept.

(** X11. No frame removes or renumbers a binding. Along the loop, for
    whatever stream, the bindings the client had keep their position,
    their handle and their port; only their cursors may move, and new
    bindings come after them. So a handle that addresses a binding
    addresses a binding of the same port for the rest of the session. *)
Theorem bindings_are_never_removed
    (c : PigpioClient) (fuel : nat) (h : nat) (b : PigpioSerialInstance) :
  nth_error (serial_instances c) h = Some b ->
  exists b',
    nth_error (serial_instances (state_of (loop fuel c))) h = Some b' /\
    serialport b' = serialport b /\ handle_id b' = handle_id b.
Proof.
  intros H.
  destruct (bindings_extended_loop fuel c) as [more E].
  assert (Hk : nth_error (map binding_key (serial_instances c)) h
               = Some (binding_key b)).
  { now rewrite nth_error_map, H. }
  assert (Hk' : nth_error
                  (map binding_key
                       (serial_instances (state_of (loop fuel c)))) h
                = Some (binding_key b)).
  { rewrite E. rewrite nth_error_app1; [exact Hk|].
    apply nth_error_Some. congruence. }
  rewrite nth_error_map in Hk'.
  destruct (nth_error (serial_instances (state_of (loop fuel c))) h)
    as [b'|]; [|discriminate].
  exists b'. split; [reflexivity|].
  injection Hk' as Hs Hh. auto.
Qed.

Lemma bindings_are_never_removed_witness :
  let stream := frame _PI_CMD_SERC 0 (pack_I 0) []
                ++ frame _PI_CMD_SERO 115200 (pack_I 0)
                         (bytes_of "/dev/ttyAMA0") in
  exists b',
    nth_error (serial_instances (state_of (loop 5 (demo_client stream)))) 0
      = Some b' /\
    serialport b' = 0%nat /\ handle_id b' = 0.
Proof.
  intro stream.
  apply (bindings_are_never_removed (demo_client stream) 5 0
           (PigpioSerialInstance_init 0 0)).
  reflexivity.
Defined.

(** *** The loop ends *)

Lemma stream_shrinks_same c c' :
  main_conn_in c' = main_conn_in c -> stream_shrinks c c'.
Proof. intros H. unfold stream_shrinks. now rewrite H. Qed.

Lemma on_port_stream {A} ref (m : M SerialPort A) c :
  main_conn_in (state_of (on_port ref m c)) = main_conn_in c.
Proof.
  unfold on_port.
  destruct (nth_error (serialports (virtual_hardware c)) ref) as [sp|];
    [|reflexivity].
  destruct (m sp); now destruct c.
Qed.

Lemma on_instance_stream k f c :
  main_conn_in (state_of (on_instance k f c)) = main_conn_in c.
Proof.
  unfold on_instance, modify, state_of.
  destruct (nth_error (serial_instances c) k); now destruct c.
Qed.

Lemma stream_shrinks_frame cmd p1 p2 p3 :
  keeps stream_shrinks (on_frame cmd p1 p2 p3).
Proof.
  apply keeps_on_frame.
  - intros c. apply Nat.le_refl.
  - intros a b c H1 H2. unfold stream_shrinks in *. lia.
  - intros o c. apply stream_shrinks_same. now destruct c.
  - intros l c. apply stream_shrinks_same. now destruct c.
  - intros n c. unfold stream_shrinks. destruct c. cbn.
    rewrite length_skipn. lia.
  - intros e c. apply stream_shrinks_same. now destruct c.
  - intros k f _ c. apply stream_shrinks_same, on_instance_stream.
  - intros c ref _. apply stream_shrinks_same. now destruct c.
  - intros _ ref data c. apply stream_shrinks_same, on_port_stream.
Qed.

(** A turn of the loop that asks for another turn has taken bytes off
    the stream. *)
Lemma iteration_consumes c c' :
  iteration c = Ok true c' ->
  (length (main_conn_in c') < length (main_conn_in c))%nat.
Proof.
  unfold iteration, Py.bind at 1. unfold recv at 1.
  destruct (main_conn_in c) as [|x rest] eqn:Ein.
  - cbn. intros H. discriminate.
  - change (firstn (Z.to_nat 16) (x :: rest))
      with (x :: firstn 15 rest).
    cbv iota.
    unfold Py.bind at 1. unfold lift at 1.
    destruct (unpack_II4sI (x :: firstn 15 rest)) as [e|[[[cmd p1] p2] p3]];
      [discriminate|].
    unfold Py.bind at 1.
    pose proof (stream_shrinks_frame cmd p1 p2 p3
                  (set_main_conn_in (skipn (Z.to_nat 16) (x :: rest)) c))
      as Hs.
    destruct (on_frame cmd p1 p2 p3 _) as [[] c1|e c1]; [|discriminate].
    unfold ret. intros H. injection H as <-.
    unfold stream_shrinks in Hs. cbn [state_of] in Hs.
    assert (Hlt : (length (main_conn_in
                     (set_main_conn_in (skipn (Z.to_nat 16) (x :: rest)) c))
                   < S (length rest))%nat).
    { destruct c. cbn [main_conn_in set_main_conn_in].
      rewrite length_skipn. cbn [length]. lia. }
    cbn [length]. lia.
Qed.

Lemma loop_with_enough_fuel fuel : forall c,
  (length (main_conn_in c) < fuel)%nat ->
  (forall c', loop fuel c <> Ok false c') /\
  forall fuel', (length (main_conn_in c) < fuel')%nat ->
                loop fuel' c = loop fuel c.
Proof.
  induction fuel as [|fuel IH]; intros c Hf; [lia|].
  split.
  - intros c'. simpl. unfold Py.bind.
    destruct (iteration c) as [[|] c1|e c1] eqn:E; try discriminate.
    apply iteration_consumes in E.
    apply IH. lia.
  - intros [|fuel'] Hf'; [lia|]. simpl. unfold Py.bind.
    destruct (iteration c) as [[|] c1|e c1] eqn:E; try reflexivity.
    apply iteration_consumes in E.
    destruct (IH c1 ltac:(lia)) as [_ H]. apply H. lia.
Qed.

(** X12. The loop of [run] ends on every finite stream: with more turns
    allowed than the stream has bytes it never stops for lack of turns,
    it is left by [break] (the connection is closed) or by an exception,
    and allowing still more turns changes nothing of the outcome or of
    the final state. *)
Theorem loop_ends_on_every_stream (c : PigpioClient) (fuel fuel' : nat) :
  (length (main_conn_in c) < fuel)%nat ->
  (length (main_conn_in c) < fuel')%nat ->
  (exists c', loop fuel c = Ok true c' \/ exists e, loop fuel c = Raise e c')
  /\ loop fuel' c = loop fuel c.
Proof.
  intros Hf Hf'.
  destruct (loop_with_enough_fuel fuel c Hf) as [Hend Hsame].
  split; [|now apply Hsame].
  destruct (loop fuel c) as [[|] c'|e c'] eqn:E.
  - exists c'. now left.
  - exfalso. now apply (Hend c').
  - exists c'. right. now exists e.
Qed.

Lemma loop_ends_on_every_stream_witness :
  let c := PigpioClient_init
             (frame _PI_CMD_SERO 115200 (pack_I 0) (bytes_of "/dev/ttyAMA0"))
             0 demo_hardware in
  (exists c', loop 29 c = Ok true c' \/ exists e, loop 29 c = Raise e c')
  /\ loop 100 c = loop 29 c.
Proof.
  intro c.
  apply (loop_ends_on_every_stream c 29 100).
  - vm_compute. lia.
  - vm_compute. lia.
Defined.

(** ** The dispatch, command by command *)

Lemma dispatch_sero_found c p1 p2 p3 e name ref sp :
  ext c = BytesVal e -> decode_ascii e = inr name ->
  find_port (serialports (virtual_hardware c)) 0 name p1 = Some ref ->
  nth_error (serialports (virtual_hardware c)) ref = Some sp ->
  dispatch _PI_CMD_SERO p1 p2 p3 c = Ok tt (after_open ref sp name p1 p2 c).
Proof.
  intros He Hdec Hf Hn.
  destruct c as [i [ports] insts e0 mi mo no lg].
  cbn [ext virtual_hardware serialports] in *. subst e0.
  unfold dispatch, after_open.
  change (_PI_CMD_SERO =? _PI_CMD_SERO) with true. cbv iota.
  run_client. rewrite Hdec. run_client. rewrite Hf. run_client.
  rewrite getitem_last, position_last. run_client.
  rewrite Hn. run_client.
  rewrite nth_error_app2, Nat.sub_diag by lia.
  cbn [nth_error]. rewrite update_last, (update_same _ _ _ Hn).
  reflexivity.
Qed.

Lemma dispatch_sero_refused c p1 p2 p3 e name :
  ext c = BytesVal e -> decode_ascii e = inr name ->
  find_port (serialports (virtual_hardware c)) 0 name p1 = None ->
  dispatch _PI_CMD_SERO p1 p2 p3 c = Ok tt (after_refusal name p2 c).
Proof.
  intros He Hdec Hf.
  destruct c as [i [ports] insts e0 mi mo no lg].
  cbn [ext virtual_hardware serialports] in *. subst e0.
  unfold dispatch, after_refusal.
  change (_PI_CMD_SERO =? _PI_CMD_SERO) with true. cbv iota.
  run_client. rewrite Hdec. run_client. rewrite Hf. run_client.
  reflexivity.
Qed.

(** Before the search: the three ways a SERO ends in an exception. *)
Lemma dispatch_sero_raises c p1 p2 p3 :
  match ext c with
  | Unbound => dispatch _PI_CMD_SERO p1 p2 p3 c = Raise UnboundLocalError c
  | StrVal _ => dispatch _PI_CMD_SERO p1 p2 p3 c = Raise AttributeError c
  | BytesVal e =>
    decode_ascii e = inl UnicodeDecodeError ->
    dispatch _PI_CMD_SERO p1 p2 p3 c = Raise UnicodeDecodeError c
  end.
Proof.
  assert (Hd : dispatch _PI_CMD_SERO p1 p2 p3 c =
    Py.bind
      (match ext c with
       | Unbound => raise UnboundLocalError
       | StrVal _ => raise AttributeError
       | BytesVal b => lift (decode_ascii b)
       end)
      (fun name =>
         modify (set_ext (StrVal name)) ;;;
         hw <- gets virtual_hardware ;;
         match find_port (serialports hw) 0 name p1 with
         | Some ref =>
           insts <- gets serial_instances ;;
           modify (set_instances
                     (insts ++ [PigpioSerialInstance_init ref (len insts)])) ;;;
           insts <- gets serial_instances ;;
           last <- lift (getitem insts (-1)) ;;
           open (position insts (-1)) last p2 p1
         | None =>
           send (Words 0 0 0 (-1)) ;;;
           logger (Error_does_not_exist p2)
         end) c) by reflexivity.
  rewrite Hd. clear Hd.
  destruct (ext c) as [|e|s]; try reflexivity.
  intros H. unfold Py.bind at 1. unfold lift at 1. now rewrite H.
Qed.

Lemma dispatch_serw c p1 p2 p3 (b : PigpioSerialInstance) sp sp' :
  getitem (serial_instances c) p1 = inr b ->
  nth_error (serialports (virtual_hardware c)) (serialport b) = Some sp ->
  4 <= len p2 ->
  put_output (skipn 4 p2) sp = Ok tt sp' ->
  utf8_wf (skipn 4 p2) = true ->
  dispatch _PI_CMD_SERW p1 p2 p3 c
  = Ok tt (after_write b sp' (skipn 4 p2) c).
Proof.
  intros Hg Hn Hl Hput Hu.
  destruct c as [i [ports] insts e0 mi mo no lg].
  destruct b as [ref h ri ro].
  cbn [serial_instances virtual_hardware serialports serialport] in *.
  unfold dispatch, after_write.
  cbn [Z.eqb _PI_CMD_SERO _PI_CMD_SERC _PI_CMD_SERW Pos.eqb].
  run_client. rewrite Hg. run_client.
  unfold unpack_I_s. destruct (Z.ltb_spec (len p2) 4); [lia|].
  run_client. rewrite Hn, Hput. run_client.
  unfold decode_utf8. rewrite Hu. reflexivity.
Qed.

Lemma dispatch_serr c p1 p2 p3 size (b : PigpioSerialInstance) sp avail d r' :
  0 <= p1 ->
  getitem (serial_instances c) p1 = inr b ->
  nth_error (serialports (virtual_hardware c)) (serialport b) = Some sp ->
  unpack_I p2 = inr size ->
  input_dat_avail (input_buffer_r_index b) sp = Ok avail sp ->
  get_input (Z.min size avail) (input_buffer_r_index b) sp = Ok (d, r') sp ->
  utf8_wf d = true ->
  dispatch _PI_CMD_SERR p1 p2 p3 c
  = Ok tt (after_read (Z.to_nat p1) b d r' c).
Proof.
  intros Hp1 Hg Hsp Hsz Hav Hget Hu.
  pose proof Hg as Hn. rewrite getitem_nonneg in Hn by assumption.
  unfold dispatch.
  cbn [Z.eqb _PI_CMD_SERO _PI_CMD_SERC _PI_CMD_SERW _PI_CMD_SERR Pos.eqb].
  unfold Py.bind at 1. unfold lift at 1. rewrite Hsz.
  unfold Py.bind at 1. unfold gets at 1.
  unfold Py.bind at 1. unfold lift at 1.
  rewrite Hg.
  rewrite (read_request_steps _ b size c sp avail d r' Hsp Hav Hget).
  rewrite position_nonneg by assumption.
  unfold Py.bind, on_instance, modify, lift, decode_utf8, logger, send.
  rewrite Hu, Hn. unfold after_read, modify.
  destruct c. cbn. now rewrite <- app_assoc.
Qed.

Lemma dispatch_serda c p1 p2 p3 (b : PigpioSerialInstance) sp :
  getitem (serial_instances c) p1 = inr b ->
  nth_error (serialports (virtual_hardware c)) (serialport b) = Some sp ->
  dispatch _PI_CMD_SERDA p1 p2 p3 c
  = Ok tt (set_main_conn_out
             (main_conn_out c
                ++ [Words 0 0 0
                      (ring_avail (input_buffer_size sp)
                                  (input_buffer_w_index sp)
                                  (input_buffer_r_index b))]) c).
Proof.
  intros Hg Hsp. unfold dispatch.
  cbn [Z.eqb _PI_CMD_SERO _PI_CMD_SERC _PI_CMD_SERW _PI_CMD_SERR
       _PI_CMD_SERDA Pos.eqb].
  unfold Py.bind at 1. unfold gets at 1.
  unfold Py.bind at 1. unfold lift at 1.
  rewrite Hg. unfold data_available_request.
  assert (Hav : input_dat_avail (input_buffer_r_index b) sp
                = Ok (ring_avail (input_buffer_size sp)
                                 (input_buffer_w_index sp)
                                 (input_buffer_r_index b)) sp)
    by reflexivity.
  rewrite (bind_ok _ _ _ _ _ (on_port_read _ _ _ _ _ Hsp Hav)).
  reflexivity.
Qed.

(** ** SERO and the variable [ext] *)

(** X13. The ways a SERO frame ends in an exception before any port is
    looked for. Without extension ([p3 = 0]) the name is read from the
    variable [ext] of [run], which holds what an earlier frame left: on a
    client that has received no extension yet the frame raises
    [UnboundLocalError], and after an earlier SERO, which left a [str]
    there, it raises [AttributeError]. With an extension that is not
    ASCII it raises [UnicodeDecodeError]. In the three cases nothing is
    sent and no binding is made. *)
Theorem sero_ends_in_an_exception
    (c : PigpioClient) (p1 : Z) (p2 e rest : list byte) :
  (ext c = Unbound ->
   exists c',
     on_frame _PI_CMD_SERO p1 p2 0 c = Raise UnboundLocalError c' /\
     main_conn_out c' = main_conn_out c /\
     serial_instances c' = serial_instances c) /\
  ((exists s, ext c = StrVal s) ->
   exists c',
     on_frame _PI_CMD_SERO p1 p2 0 c = Raise AttributeError c' /\
     main_conn_out c' = main_conn_out c /\
     serial_instances c' = serial_instances c) /\
  (main_conn_in c = e ++ rest -> e <> [] ->
   forallb (fun x => byte_val x <? 128) e = false ->
   exists c',
     on_frame _PI_CMD_SERO p1 p2 (len e) c = Raise UnicodeDecodeError c' /\
     main_conn_out c' = main_conn_out c /\
     serial_instances c' = serial_instances c).
Proof.
  split; [|split].
  - intros He. rewrite on_frame_plain.
    pose proof (dispatch_sero_raises (at_dispatch _PI_CMD_SERO p1 p2 c)
                  p1 p2 0) as H.
    change (ext (at_dispatch _PI_CMD_SERO p1 p2 c)) with (ext c) in H.
    rewrite He in H. rewrite H.
    eexists. split; [reflexivity|]. split; now destruct c.
  - intros [s He]. rewrite on_frame_plain.
    pose proof (dispatch_sero_raises (at_dispatch _PI_CMD_SERO p1 p2 c)
                  p1 p2 0) as H.
    change (ext (at_dispatch _PI_CMD_SERO p1 p2 c)) with (ext c) in H.
    rewrite He in H. rewrite H.
    eexists. split; [reflexivity|]. split; now destruct c.
  - intros Hin Hne Hna. rewrite (on_frame_ext _ _ _ _ _ _ Hin Hne).
    pose proof (dispatch_sero_raises
                  (at_dispatch_ext _PI_CMD_SERO p1 p2 e rest c)
                  p1 (p2 ++ e) (len e)) as H.
    change (ext (at_dispatch_ext _PI_CMD_SERO p1 p2 e rest c))
      with (BytesVal e) in H.
    cbv iota in H. rewrite H.
    + eexists. split; [reflexivity|]. split; now destruct c.
    + unfold decode_ascii. now rewrite Hna.
Qed.

Lemma sero_ends_in_an_exception_witness :
  (exists c',
     on_frame _PI_CMD_SERO 115200 (pack_I 0) 0
              (PigpioClient_init [] 0 demo_hardware)
       = Raise UnboundLocalError c' /\ main_conn_out c' = []) /\
  (exists c',
     on_frame _PI_CMD_SERO 115200 (pack_I 0) 0 (demo_client [])
       = Raise AttributeError c' /\ main_conn_out c' = [Words 0 0 0 0]) /\
  (exists c',
     on_frame _PI_CMD_SERO 115200 (pack_I 0) 2 (demo_client [xc3; xa9])
       = Raise UnicodeDecodeError c' /\ main_conn_out c' = [Words 0 0 0 0]).
Proof.
  split; [|split].
  - destruct (sero_ends_in_an_exception
                (PigpioClient_init [] 0 demo_hardware) 115200 (pack_I 0)
                [] []) as (H & _ & _).
    destruct (H eq_refl) as (c' & E & Ho & _).
    exists c'. split; [exact E | exact Ho].
  - destruct (sero_ends_in_an_exception
                (demo_client []) 115200 (pack_I 0) [] []) as (_ & H & _).
    destruct H as (c' & E & Ho & _).
    + now eexists.
    + exists c'. split; [exact E | exact Ho].
  - destruct (sero_ends_in_an_exception
                (demo_client [xc3; xa9]) 115200 (pack_I 0) [xc3; xa9] [])
      as (_ & _ & H).
    destruct H as (c' & E & Ho & _).
    + reflexivity.
    + discriminate.
    + reflexivity.
    + exists c'. split; [exact E | exact Ho].
Defined.

(** X14. A SERO frame without extension that comes after a frame of
    another command with an extension takes that older extension for its
    name: when it is ASCII and a port has this name and the bit rate
    [p1], the port is opened, under the next handle, and the answer is
    [{0,0,0,handle}]; when no port has both, the answer is
    [{0,0,0,-1}]. *)
Theorem sero_without_extension_reuses_the_last_one
    (c : PigpioClient) (p1 : Z) (p2 e : list byte) (name : string) :
  ext c = BytesVal e ->
  decode_ascii e = inr name ->
  let ports := serialports (virtual_hardware c) in
  ((exists sp, In sp ports /\ port sp = name /\ baudrate sp = p1) ->
   exists ref sp,
     nth_error ports ref = Some sp /\ port sp = name /\ baudrate sp = p1 /\
     on_frame _PI_CMD_SERO p1 p2 0 c
       = Ok tt (after_open ref sp name p1 p2
                           (at_dispatch _PI_CMD_SERO p1 p2 c))) /\
  ((forall sp, In sp ports -> ~ (port sp = name /\ baudrate sp = p1)) ->
   on_frame _PI_CMD_SERO p1 p2 0 c
     = Ok tt (after_refusal name p2 (at_dispatch _PI_CMD_SERO p1 p2 c))).
Proof.
  intros He Hdec ports. subst ports. split.
  - intros Hex.
    destruct (find_port_found _ _ _ Hex) as (ref & sp & Hf & Hn & Hp & Hb).
    exists ref, sp. repeat split; try assumption.
    rewrite on_frame_plain.
    now apply dispatch_sero_found with e.
  - intros Hno. apply find_port_none with (k := O) in Hno.
    rewrite on_frame_plain.
    now apply dispatch_sero_refused with e.
Qed.

Lemma sero_without_extension_reuses_the_last_one_witness :
  let c := set_ext (BytesVal (bytes_of "/dev/ttyAMA0")) (demo_client []) in
  exists c',
    on_frame _PI_CMD_SERO 115200 (pack_I 0) 0 c = Ok tt c' /\
    main_conn_out c' = [Words 0 0 0 0; Words 0 0 0 1] /\
    map serialport (serial_instances c') = [0%nat; 0%nat].
Proof.
  intro c.
  destruct (sero_without_extension_reuses_the_last_one
              c 115200 (pack_I 0) (bytes_of "/dev/ttyAMA0") "/dev/ttyAMA0")
    as [H _].
  - reflexivity.
  - reflexivity.
  - destruct H as (ref & sp & Hn & Hp & Hb & E).
    + eexists. split; [left; reflexivity|]. split; reflexivity.
    + eexists. split; [exact E|].
      destruct ref as [|[|ref]]; try discriminate Hn.
      split; reflexivity.
Defined.

(** ** Bytes on their way: device, port, client, bridge *)

Lemma nth_error_update_same {A} (l : list A) k x y :
  nth_error l k = Some x -> nth_error (update l k y) k = Some y.
Proof.
  intros H. rewrite nth_error_update, Nat.eqb_refl. now rewrite H.
Qed.

(** A write to the input side, then the availability and a read at the
    old write index. *)
Lemma put_input_then_read sp s :
  input_wf sp ->
  len s < input_buffer_size sp ->
  input_buffer_w_index sp + len s <> input_buffer_size sp ->
  exists sp',
    put_input s sp = Ok tt sp' /\
    input_dat_avail (input_buffer_w_index sp) sp' = Ok (len s) sp' /\
    get_input (len s) (input_buffer_w_index sp) sp'
      = Ok (s, input_buffer_w_index sp') sp'.
Proof.
  intros (Hc & HL & Hw) Hs Hne. pose proof (len_nonneg s) as Hn.
  destruct (ring_put_cursor _ Hc (input_buffer_w_index sp)
              (input_buffer sp) s) as [b E].
  unfold put_input. rewrite E. eexists. split; [reflexivity|].
  assert (Hd : len s <= input_buffer_size sp) by lia.
  pose proof (ring_round_trip _ Hc _ _ _ _ _ Hw Hd HL Hne E) as Hget.
  pose proof (Z.mod_pos_bound (input_buffer_w_index sp + len s) _ Hc) as Hg.
  split.
  - unfold input_dat_avail, gets.
    cbn [input_buffer_w_index input_buffer_size set_input]. f_equal.
    rewrite (ring_avail_mod _ Hc) by (assumption || lia).
    rewrite Zminus_mod_idemp_l.
    replace (input_buffer_w_index sp + len s - input_buffer_w_index sp)
      with (len s) by lia.
    apply Z.mod_small. lia.
  - unfold get_input, lift.
    cbn [input_buffer input_buffer_w_index input_buffer_size set_input].
    now rewrite Hget.
Qed.

(** A SERR whose clamped read is known. *)
Lemma on_frame_serr c p1 p2 size (b : PigpioSerialInstance) sp d r' :
  0 <= p1 ->
  getitem (serial_instances c) p1 = inr b ->
  nth_error (serialports (virtual_hardware c)) (serialport b) = Some sp ->
  unpack_I p2 = inr size -> len d <= size ->
  input_dat_avail (input_buffer_r_index b) sp = Ok (len d) sp ->
  get_input (len d) (input_buffer_r_index b) sp = Ok (d, r') sp ->
  utf8_wf d = true ->
  on_frame _PI_CMD_SERR p1 p2 0 c
  = Ok tt (after_read (Z.to_nat p1) b d r' (at_dispatch _PI_CMD_SERR p1 p2 c)).
Proof.
  intros Hp1 Hg Hsp Hsz Hle Hav Hget Hu.
  rewrite on_frame_plain.
  apply dispatch_serr with size sp (len d); try assumption.
  now rewrite Z.min_r by lia.
Qed.

(** X15. What the client writes with SERW reaches the bridge. For a
    handle that addresses a binding, an extension of between 1 and
    [capacity - 1] bytes that is UTF-8, and a write that does not end
    exactly at the end of the output storage: the frame is answered by
    [{0,0,0,handle}], the bindings stay as they were, and a bridge whose
    cursor stood at the write index of the output side sends exactly the
    extension on its next turn. *)
Theorem serw_reaches_the_bridge
    (c : PigpioClient) (p1 : Z) (p2 e rest : list byte)
    (b : PigpioSerialInstance) (sp : SerialPort) :
  handles_ok c -> 0 <= p1 ->
  getitem (serial_instances c) p1 = inr b ->
  nth_error (serialports (virtual_hardware c)) (serialport b) = Some sp ->
  output_wf sp ->
  len p2 = 4 -> main_conn_in c = e ++ rest ->
  0 < len e < output_buffer_size sp ->
  output_buffer_w_index sp + len e <> output_buffer_size sp ->
  utf8_wf e = true ->
  exists c' sp',
    on_frame _PI_CMD_SERW p1 p2 (len e) c = Ok tt c' /\
    main_conn_out c' = main_conn_out c ++ [Words 0 0 0 p1] /\
    serial_instances c' = serial_instances c /\
    nth_error (serialports (virtual_hardware c')) (serialport b) = Some sp' /\
    bridge_poll (output_buffer_w_index sp) sp'
      = Ok (Some e, output_buffer_w_index sp') sp'.
Proof.
  intros Hh Hp1 Hg Hsp Hwf Hp2 Hin Hlen Hne Hu.
  assert (He : e <> []).
  { intros ->. change (len (@nil byte)) with 0 in Hlen. lia. }
  assert (Hid : handle_id b = p1).
  { pose proof Hg as Hn. rewrite getitem_nonneg in Hn by assumption.
    rewrite (Hh _ _ Hn). lia. }
  destruct (put_output_then_poll sp e Hwf Hlen Hne) as (sp' & Hput & Hpoll).
  exists (after_write b sp' e (at_dispatch_ext _PI_CMD_SERW p1 p2 e rest c)),
         sp'.
  split.
  - rewrite (on_frame_ext _ _ _ _ _ _ Hin He).
    pose proof (dispatch_serw
                  (at_dispatch_ext _PI_CMD_SERW p1 p2 e rest c)
                  p1 (p2 ++ e) (len e) b sp sp' Hg Hsp) as H.
    rewrite (skipn_field p2 e Hp2) in H. apply H.
    + rewrite len_app. pose proof (len_nonneg e). lia.
    + exact Hput.
    + exact Hu.
  - rewrite <- Hid.
    destruct c as [i [ports] insts e0 mi mo no lg].
    cbn [serial_instances virtual_hardware serialports] in *.
    split; [reflexivity|]. split; [reflexivity|].
    split; [|exact Hpoll].
    cbn. now apply nth_error_update_same with sp.
Qed.

Lemma serw_reaches_the_bridge_witness :
  exists c' sp',
    on_frame _PI_CMD_SERW 0 (pack_I 0) 3 (demo_client (bytes_of "abc"))
      = Ok tt c' /\
    main_conn_out c' = [Words 0 0 0 0; Words 0 0 0 0] /\
    nth_error (serialports (virtual_hardware c')) 0 = Some sp' /\
    bridge_poll 0 sp' = Ok (Some (bytes_of "abc"), 3) sp'.
Proof.
  destruct (demo_client_ok (bytes_of "abc")) as [Hh _].
  destruct (serw_reaches_the_bridge
              (demo_client (bytes_of "abc")) 0 (pack_I 0) (bytes_of "abc") []
              (PigpioSerialInstance_init 0 0)
              (SerialPort_init "/dev/ttyAMA0" 115200 8 8) Hh)
    as (c' & sp' & E & Ho & _ & Hn & Hpoll).
  - lia.
  - reflexivity.
  - reflexivity.
  - apply SerialPort_init_wf; lia.
  - reflexivity.
  - reflexivity.
  - simpl. vm_compute. split; reflexivity.
  - simpl. vm_compute. discriminate.
  - reflexivity.
  - exists c', sp'. split; [exact E|]. split; [exact Ho|].
    split; [exact Hn|].
    vm_compute in E. injection E as <-.
    vm_compute in Hn. injection Hn as <-. exact Hpoll.
Defined.

(** X16. What the device sends reaches the client. The binding at [p1]
    has read everything (its input cursor is the write index of its
    port); the device then puts [s] into the port, fewer than [capacity]
    bytes that are UTF-8, not ending exactly at the end of the storage; a
    SERR for at least [len s] bytes is then answered by [{0,0,0,len s}]
    followed by exactly [s], and the binding has read everything
    again. *)
Theorem device_bytes_reach_the_client
    (c : PigpioClient) (p1 : Z) (p2 : list byte) (size : Z)
    (b : PigpioSerialInstance) (sp : SerialPort) (s : list byte) :
  0 <= p1 ->
  getitem (serial_instances c) p1 = inr b ->
  nth_error (serialports (virtual_hardware c)) (serialport b) = Some sp ->
  input_wf sp ->
  input_buffer_r_index b = input_buffer_w_index sp ->
  len s < input_buffer_size sp ->
  input_buffer_w_index sp + len s <> input_buffer_size sp ->
  utf8_wf s = true ->
  unpack_I p2 = inr size -> len s <= size ->
  exists c' b' sp',
    (device_sends (serialport b) s ;;; on_frame _PI_CMD_SERR p1 p2 0) c
      = Ok tt c' /\
    main_conn_out c' = main_conn_out c ++ [Words 0 0 0 (len s); Bytes s] /\
    getitem (serial_instances c') p1 = inr b' /\
    nth_error (serialports (virtual_hardware c')) (serialport b') = Some sp' /\
    input_buffer_r_index b' = input_buffer_w_index sp'.
Proof.
  intros Hp1 Hg Hsp Hwf Hr Hlen Hne Hu Hsz Hle.
  destruct (put_input_then_read sp s Hwf Hlen Hne)
    as (sp' & Hput & Hav & Hget).
  rewrite <- Hr in Hav, Hget.
  pose proof Hg as Hn. rewrite getitem_nonneg in Hn by assumption.
  set (c1 := set_hardware
               (mkVirtualHardware
                  (update (serialports (virtual_hardware c))
                          (serialport b) sp')) c).
  assert (Hdev : device_sends (serialport b) s c = Ok tt c1).
  { unfold device_sends. now apply on_port_ok with sp. }
  assert (Hsp1 : nth_error (serialports (virtual_hardware c1)) (serialport b)
                 = Some sp').
  { unfold c1. destruct c as [i [ports] insts e0 mi mo no lg]. cbn.
    now apply nth_error_update_same with sp. }
  assert (Hg1 : getitem (serial_instances c1) p1 = inr b).
  { unfold c1. now destruct c. }
  exists (after_read (Z.to_nat p1) b s (input_buffer_w_index sp')
                     (at_dispatch _PI_CMD_SERR p1 p2 c1)),
         (set_input_r_index (input_buffer_w_index sp') b), sp'.
  split.
  - rewrite (bind_ok _ _ _ _ _ Hdev).
    now apply on_frame_serr with size sp'.
  - unfold c1. destruct c as [i [ports] insts e0 mi mo no lg].
    cbn [serial_instances virtual_hardware serialports] in *.
    split; [reflexivity|]. split; [|split].
    + apply getitem_nonneg; [assumption|]. cbn.
      now apply nth_error_update_same with b.
    + cbn. now apply nth_error_update_same with sp.
    + reflexivity.
Qed.

Lemma device_bytes_reach_the_client_witness :
  exists c',
    (device_sends 0 (bytes_of "abc") ;;;
     on_frame _PI_CMD_SERR 0 (pack_I 100) 0) (demo_client [])
      = Ok tt c' /\
    main_conn_out c'
      = [Words 0 0 0 0; Words 0 0 0 3; Bytes (bytes_of "abc")].
Proof.
  destruct (device_bytes_reach_the_client
              (demo_client []) 0 (pack_I 100) 100
              (PigpioSerialInstance_init 0 0)
              (SerialPort_init "/dev/ttyAMA0" 115200 8 8) (bytes_of "abc"))
    as (c' & b' & sp' & E & Ho & _).
  - lia.
  - reflexivity.
  - reflexivity.
  - apply SerialPort_init_wf; lia.
  - reflexivity.
  - simpl. vm_compute. reflexivity.
  - simpl. vm_compute. discriminate.
  - reflexivity.
  - reflexivity.
  - vm_compute. discriminate.
  - exists c'. split; [exact E | exact Ho].
Defined.

Lemma set_input_r_index_same (b : PigpioSerialInstance) :
  set_input_r_index (input_buffer_r_index b) b = b.
Proof. now destruct b. Qed.

(** X17. A SERR with nothing to read: when the request is for 0 bytes, or
    when the cursor of the binding is the write index of its port, the
    answer is [{0,0,0,0}] followed by an empty payload, and neither the
    bindings nor the hardware change. *)
Theorem serr_with_nothing_to_read
    (c : PigpioClient) (p1 : Z) (p2 : list byte) (size : Z)
    (b : PigpioSerialInstance) (sp : SerialPort) :
  0 <= p1 ->
  getitem (serial_instances c) p1 = inr b ->
  nth_error (serialports (virtual_hardware c)) (serialport b) = Some sp ->
  input_wf sp ->
  0 <= input_buffer_r_index b < input_buffer_size sp ->
  unpack_I p2 = inr size -> 0 <= size ->
  size = 0 \/ input_buffer_r_index b = input_buffer_w_index sp ->
  exists c',
    on_frame _PI_CMD_SERR p1 p2 0 c = Ok tt c' /\
    main_conn_out c' = main_conn_out c ++ [Words 0 0 0 0; Bytes []] /\
    serial_instances c' = serial_instances c /\
    virtual_hardware c' = virtual_hardware c.
Proof.
  intros Hp1 Hg Hsp (Hc & HL & Hw) Hr Hsz Hsize Hcase.
  pose proof Hg as Hn. rewrite getitem_nonneg in Hn by assumption.
  pose proof (ring_avail_range _ Hc _ _ Hw Hr) as Hav.
  set (avail := ring_avail (input_buffer_size sp) (input_buffer_w_index sp)
                           (input_buffer_r_index b)) in *.
  assert (Hmin : Z.min size avail = 0).
  { destruct Hcase as [->|Heq]; [lia|].
    unfold avail. rewrite Heq, ring_avail_same. lia. }
  assert (Hget : get_input (Z.min size avail) (input_buffer_r_index b) sp
                 = Ok ([], input_buffer_r_index b) sp).
  { rewrite Hmin. unfold get_input, lift.
    rewrite (ring_get_inside _ Hc) by lia. now rewrite Z.add_0_r. }
  exists (after_read (Z.to_nat p1) b [] (input_buffer_r_index b)
                     (at_dispatch _PI_CMD_SERR p1 p2 c)).
  split.
  - rewrite on_frame_plain.
    now apply dispatch_serr with size sp avail.
  - unfold after_read. rewrite set_input_r_index_same.
    change (serial_instances (at_dispatch _PI_CMD_SERR p1 p2 c))
      with (serial_instances c).
    rewrite (update_same _ _ _ Hn).
    destruct c. repeat split.
Qed.

Lemma serr_with_nothing_to_read_witness :
  exists c',
    on_frame _PI_CMD_SERR 0 (pack_I 5) 0 (demo_client []) = Ok tt c' /\
    main_conn_out c' = [Words 0 0 0 0; Words 0 0 0 0; Bytes []].
Proof.
  destruct (serr_with_nothing_to_read
              (demo_client []) 0 (pack_I 5) 5
              (PigpioSerialInstance_init 0 0)
              (SerialPort_init "/dev/ttyAMA0" 115200 8 8))
    as (c' & E & Ho & _).
  - lia.
  - reflexivity.
  - reflexivity.
  - apply SerialPort_init_wf; lia.
  - simpl. lia.
  - reflexivity.
  - lia.
  - right. reflexivity.
  - exists c'. split; [exact E | exact Ho].
Defined.

(** X18. A binding does not see what was written before it was made:
    whatever the device has put into the port, a SERDA for the handle a
    SERO has just returned is answered by [{0,0,0,0}]. *)
Theorem late_binding_sees_nothing
    (c : PigpioClient) (p1 : Z) (p2 p2' e rest : list byte) (name : string) :
  main_conn_in c = e ++ rest -> e <> [] ->
  decode_ascii e = inr name ->
  (exists sp, In sp (serialports (virtual_hardware c)) /\
              port sp = name /\ baudrate sp = p1) ->
  let handle := len (serial_instances c) in
  exists c',
    (on_frame _PI_CMD_SERO p1 p2 (len e) ;;;
     on_frame _PI_CMD_SERDA handle p2' 0) c = Ok tt c' /\
    main_conn_out c'
      = main_conn_out c ++ [Words 0 0 0 handle; Words 0 0 0 0].
Proof.
  intros Hin Hne Hdec Hex handle. subst handle.
  destruct (find_port_found _ _ _ Hex) as (ref & sp & Hf & Hn & _).
  set (c1 := at_dispatch_ext _PI_CMD_SERO p1 p2 e rest c).
  set (c2 := after_open ref sp name p1 (p2 ++ e) c1).
  assert (H1 : on_frame _PI_CMD_SERO p1 p2 (len e) c = Ok tt c2).
  { rewrite (on_frame_ext _ _ _ _ _ _ Hin Hne).
    now apply dispatch_sero_found with e. }
  set (newb := mkInstance ref (len (serial_instances c))
                          (input_buffer_w_index sp)
                          (output_buffer_w_index sp)).
  set (c3 := at_dispatch _PI_CMD_SERDA (len (serial_instances c)) p2' c2).
  assert (Hg : getitem (serial_instances c3) (len (serial_instances c))
               = inr newb).
  { apply getitem_nonneg; [apply len_nonneg|].
    change (serial_instances c3) with (serial_instances c ++ [newb]).
    replace (Z.to_nat (len (serial_instances c)))
      with (length (serial_instances c)) by (unfold len; lia).
    now rewrite nth_error_app2, Nat.sub_diag by lia. }
  assert (Hsp : nth_error (serialports (virtual_hardware c3))
                          (serialport newb) = Some sp) by exact Hn.
  eexists. split.
  - rewrite (bind_ok _ _ _ _ _ H1). rewrite on_frame_plain. fold c3.
    apply (dispatch_serda c3 _ p2' 0 newb sp Hg Hsp).
  - cbn [input_buffer_r_index newb]. rewrite ring_avail_same.
    destruct c. cbn. now rewrite <- app_assoc.
Qed.

Lemma late_binding_sees_nothing_witness :
  let c := state_of (device_sends 0 (bytes_of "abc")
                       (PigpioClient_init (bytes_of "/dev/ttyAMA0") 0
                                          demo_hardware)) in
  exists c',
    (on_frame _PI_CMD_SERO 115200 (pack_I 0) 12 ;;;
     on_frame _PI_CMD_SERDA 0 (pack_I 0) 0) c = Ok tt c' /\
    main_conn_out c' = [Words 0 0 0 0; Words 0 0 0 0].
Proof.
  intro c.
  apply (late_binding_sees_nothing c 115200 (pack_I 0) (pack_I 0)
           (bytes_of "/dev/ttyAMA0") [] "/dev/ttyAMA0").
  - reflexivity.
  - discriminate.
  - reflexivity.
  - eexists. split; [left; reflexivity|]. split; reflexivity.
Defined.

(** X19. Two bindings on one port read independently. Two handles
    address bindings of the same port that have both read everything; the
    device puts [s] into the port (fewer than [capacity] bytes, UTF-8,
    not ending exactly at the end of the storage); a SERR on the first
    handle is answered by [s], and a SERR on the second handle afterwards
    is answered by [s] as well: the read of one binding takes nothing
    away from the other. *)
Theorem two_bindings_read_independently
    (c : PigpioClient) (p1 q1 : Z) (p2 : list byte) (size : Z)
    (b1 b2 : PigpioSerialInstance) (sp : SerialPort) (s : list byte) :
  0 <= p1 -> 0 <= q1 -> p1 <> q1 ->
  getitem (serial_instances c) p1 = inr b1 ->
  getitem (serial_instances c) q1 = inr b2 ->
  serialport b2 = serialport b1 ->
  nth_error (serialports (virtual_hardware c)) (serialport b1) = Some sp ->
  input_wf sp ->
  input_buffer_r_index b1 = input_buffer_w_index sp ->
  input_buffer_r_index b2 = input_buffer_w_index sp ->
  len s < input_buffer_size sp ->
  input_buffer_w_index sp + len s <> input_buffer_size sp ->
  utf8_wf s = true ->
  unpack_I p2 = inr size -> len s <= size ->
  exists c',
    (device_sends (serialport b1) s ;;;
     on_frame _PI_CMD_SERR p1 p2 0 ;;;
     on_frame _PI_CMD_SERR q1 p2 0) c = Ok tt c' /\
    main_conn_out c'
      = main_conn_out c
        ++ [Words 0 0 0 (len s); Bytes s; Words 0 0 0 (len s); Bytes s].
Proof.
  intros Hp1 Hq1 Hpq Hg1 Hg2 Hsame Hsp Hwf Hr1 Hr2 Hlen Hne Hu Hsz Hle.
  destruct (put_input_then_read sp s Hwf Hlen Hne)
    as (sp' & Hput & Hav & Hget).
  pose proof Hg1 as Hn1. rewrite getitem_nonneg in Hn1 by assumption.
  pose proof Hg2 as Hn2. rewrite getitem_nonneg in Hn2 by assumption.
  set (c1 := set_hardware
               (mkVirtualHardware
                  (update (serialports (virtual_hardware c))
                          (serialport b1) sp')) c).
  assert (Hdev : device_sends (serialport b1) s c = Ok tt c1).
  { unfold device_sends. now apply on_port_ok with sp. }
  assert (Hsp1 : nth_error (serialports (virtual_hardware c1))
                           (serialport b1) = Some sp').
  { unfold c1. destruct c as [i [ports] insts e0 mi mo no lg]. cbn.
    now apply nth_error_update_same with sp. }
  set (c2 := after_read (Z.to_nat p1) b1 s (input_buffer_w_index sp')
                        (at_dispatch _PI_CMD_SERR p1 p2 c1)).
  assert (Hserr1 : on_frame _PI_CMD_SERR p1 p2 0 c1 = Ok tt c2).
  { apply (on_frame_serr c1 p1 p2 size b1 sp' s (input_buffer_w_index sp')
             Hp1 Hg1 Hsp1 Hsz Hle).
    - now rewrite Hr1.
    - now rewrite Hr1.
    - exact Hu. }
  assert (Hg2' : getitem (serial_instances c2) q1 = inr b2).
  { apply getitem_nonneg; [assumption|].
    unfold c2, c1. destruct c as [i [ports] insts e0 mi mo no lg].
    cbn in *. rewrite nth_error_update.
    destruct (Nat.eqb_spec (Z.to_nat q1) (Z.to_nat p1)); [lia|exact Hn2]. }
  assert (Hsp2 : nth_error (serialports (virtual_hardware c2))
                           (serialport b2) = Some sp').
  { rewrite Hsame. exact Hsp1. }
  eexists. split.
  - rewrite (bind_ok _ _ _ _ _ Hdev).
    rewrite (bind_ok _ _ _ _ _ Hserr1).
    apply (on_frame_serr c2 q1 p2 size b2 sp' s (input_buffer_w_index sp')
             Hq1 Hg2' Hsp2 Hsz Hle).
    + now rewrite Hr2.
    + now rewrite Hr2.
    + exact Hu.
  - unfold c2, c1. destruct c. cbn.
    now rewrite <- app_assoc.
Qed.

Lemma two_bindings_read_independently_witness :
  let c := set_instances [PigpioSerialInstance_init 0 0;
                          PigpioSerialInstance_init 0 1] (demo_client []) in
  exists c',
    (device_sends 0 (bytes_of "abc") ;;;
     on_frame _PI_CMD_SERR 0 (pack_I 100) 0 ;;;
     on_frame _PI_CMD_SERR 1 (pack_I 100) 0) c = Ok tt c' /\
    main_conn_out c'
      = [Words 0 0 0 0; Words 0 0 0 3; Bytes (bytes_of "abc");
         Words 0 0 0 3; Bytes (bytes_of "abc")].
Proof.
  intro c.
  apply (two_bindings_read_independently
           c 0 1 (pack_I 100) 100
           (PigpioSerialInstance_init 0 0) (PigpioSerialInstance_init 0 1)
           (SerialPort_init "/dev/ttyAMA0" 115200 8 8) (bytes_of "abc")).
  - lia.
  - lia.
  - lia.
  - reflexivity.
  - reflexivity.
  - reflexivity.
  - reflexivity.
  - apply SerialPort_init_wf; lia.
  - reflexivity.
  - reflexivity.
  - simpl. vm_compute. reflexivity.
  - simpl. vm_compute. discriminate.
  - reflexivity.
  - reflexivity.
  - vm_compute. discriminate.
Defined.

(** X20. A SERR for no more than is available, then a SERDA. With
    [avail] bytes available at the cursor of the binding and a request
    for [size <= avail] bytes that does not end exactly at the end of the
    storage, the read hands out exactly [size] bytes; when they are
    UTF-8 the SERR is answered by [{0,0,0,size}] and these bytes, and a
    SERDA on the same handle is then answered by
    [{0,0,0,avail - size}]. *)
Theorem serr_then_serda
    (c : PigpioClient) (p1 : Z) (p2 p2' : list byte) (size : Z)
    (b : PigpioSerialInstance) (sp : SerialPort) :
  0 <= p1 ->
  getitem (serial_instances c) p1 = inr b ->
  nth_error (serialports (virtual_hardware c)) (serialport b) = Some sp ->
  input_wf sp ->
  let C := input_buffer_size sp in
  let r := input_buffer_r_index b in
  let avail := (input_buffer_w_index sp - r) mod C in
  0 <= r < C ->
  unpack_I p2 = inr size -> 0 <= size <= avail ->
  r + size <> C ->
  exists d,
    get_input size r sp = Ok (d, (r + size) mod C) sp /\
    len d = size /\
    (utf8_wf d = true ->
     exists c',
       (on_frame _PI_CMD_SERR p1 p2 0 ;;;
        on_frame _PI_CMD_SERDA p1 p2' 0) c = Ok tt c' /\
       main_conn_out c'
         = main_conn_out c
           ++ [Words 0 0 0 size; Bytes d; Words 0 0 0 (avail - size)]).
Proof.
  intros Hp1 Hg Hsp Hwf C r avail Hr Hsz Hsize Hne.
  pose proof Hwf as (Hc & HL & Hw).
  pose proof Hg as Hn. rewrite getitem_nonneg in Hn by assumption.
  assert (Hrange : 0 <= avail < C) by (apply Z.mod_pos_bound; exact Hc).
  assert (Hav : input_dat_avail r sp = Ok avail sp).
  { unfold input_dat_avail, gets. fold C.
    now rewrite (ring_avail_mod C Hc) by assumption. }
  destruct (ring_get_cursor C Hc (input_buffer sp) size r) as [d E].
  assert (Hs : 0 <= size <= C) by lia.
  destruct (ring_get_elements C Hc _ _ _ _ _ Hr Hs HL Hne E)
    as (_ & Hlen & _).
  assert (Hget : get_input size r sp = Ok (d, (r + size) mod C) sp).
  { unfold get_input, lift. fold C. now rewrite E. }
  exists d. split; [exact Hget|]. split; [exact Hlen|].
  intros Hu.
  set (r' := (r + size) mod C).
  set (c2 := after_read (Z.to_nat p1) b d r'
                        (at_dispatch _PI_CMD_SERR p1 p2 c)).
  assert (H1 : on_frame _PI_CMD_SERR p1 p2 0 c = Ok tt c2).
  { rewrite on_frame_plain.
    apply dispatch_serr with size sp avail; try assumption.
    now rewrite Z.min_l by lia. }
  set (c3 := at_dispatch _PI_CMD_SERDA p1 p2' c2).
  assert (Hg3 : getitem (serial_instances c3) p1
                = inr (set_input_r_index r' b)).
  { apply getitem_nonneg; [assumption|].
    unfold c3, c2. destruct c. cbn in *.
    now apply nth_error_update_same with b. }
  assert (Hsp3 : nth_error (serialports (virtual_hardware c3))
                           (serialport (set_input_r_index r' b)) = Some sp).
  { unfold c3, c2. destruct c. exact Hsp. }
  eexists. split.
  - rewrite (bind_ok _ _ _ _ _ H1). rewrite on_frame_plain. fold c3.
    apply (dispatch_serda c3 p1 p2' 0 _ sp Hg3 Hsp3).
  - cbn [input_buffer_r_index set_input_r_index]. fold C.
    assert (Hr' : 0 <= r' < C) by (apply Z.mod_pos_bound; exact Hc).
    rewrite (ring_avail_mod C Hc) by assumption.
    assert (Hleft : (input_buffer_w_index sp - r') mod C = avail - size).
    { unfold r'. rewrite Zminus_mod_idemp_r.
      replace (input_buffer_w_index sp - (r + size))
        with (input_buffer_w_index sp - r - size) by lia.
      rewrite <- Zminus_mod_idemp_l. fold avail.
      apply Z.mod_small. lia. }
    rewrite Hleft.
    unfold c3, c2. destruct c. cbn. rewrite Hlen.
    now rewrite <- app_assoc.
Qed.

Lemma serr_then_serda_witness :
  let c := state_of (device_sends 0 (bytes_of "abcde") (demo_client [])) in
  exists d c',
    len d = 2 /\
    (on_frame _PI_CMD_SERR 0 (pack_I 2) 0 ;;;
     on_frame _PI_CMD_SERDA 0 (pack_I 0) 0) c = Ok tt c' /\
    main_conn_out c'
      = [Words 0 0 0 0; Words 0 0 0 2; Bytes d; Words 0 0 0 3].
Proof.
  intro c.
  destruct (serr_then_serda
              c 0 (pack_I 2) (pack_I 0) 2 (PigpioSerialInstance_init 0 0)
              (state_of (put_input (bytes_of "abcde")
                           (SerialPort_init "/dev/ttyAMA0" 115200 8 8))))
    as (d & Hget & Hlen & H).
  - lia.
  - reflexivity.
  - reflexivity.
  - vm_compute. repeat split; try reflexivity; discriminate.
  - vm_compute. split; [discriminate | reflexivity].
  - reflexivity.
  - vm_compute. split; discriminate.
  - vm_compute. discriminate.
  - vm_compute in Hget. injection Hget as <-.
    destruct (H eq_refl) as (c' & E & Ho).
    exists (bytes_of "ab"), c'.
    split; [exact Hlen|]. split; [exact E | exact Ho].
Defined.

(** ** Frames on the wire *)

Lemma byte_val_byte_of v : byte_val (byte_of v) = v mod 256.
Proof.
  pose proof (Z.mod_pos_bound v 256 ltac:(lia)) as Hb.
  unfold byte_val, byte_of.
  destruct (Byte.of_N (Z.to_N (v mod 256))) as [b|] eqn:E.
  - apply Byte.to_of_N in E. rewrite E. lia.
  - apply Byte.of_N_None_iff in E. lia.
Qed.

(** Packing a word and unpacking it gives the word back. *)
Lemma le32_pack_I v : 0 <= v < 4294967296 -> le32 (pack_I v) = v.
Proof.
  intros Hv. unfold le32, pack_I. cbn [fold_right].
  rewrite !byte_val_byte_of.
  assert (H3 : v / 16777216 = v / 256 / 256 / 256).
  { rewrite !Z.div_div by lia. reflexivity. }
  assert (H2 : v / 65536 = v / 256 / 256).
  { rewrite !Z.div_div by lia. reflexivity. }
  rewrite H3, H2.
  pose proof (Z.div_mod v 256 ltac:(lia)) as D0.
  pose proof (Z.div_mod (v / 256) 256 ltac:(lia)) as D1.
  pose proof (Z.div_mod (v / 256 / 256) 256 ltac:(lia)) as D2.
  assert (Hsmall : 0 <= v / 256 / 256 / 256 < 256).
  { split.
    - repeat apply Z.div_pos; lia.
    - rewrite !Z.div_div by lia. apply Z.div_lt_upper_bound; lia. }
  rewrite (Z.mod_small (v / 256 / 256 / 256)) by exact Hsmall.
  pose proof (Z.div_mod (v / 256 / 256 / 256) 256 ltac:(lia)) as D3.
  lia.
Qed.

Lemma len_4 {A} (l : list A) :
  len l = 4 -> exists a b c d, l = [a; b; c; d].
Proof.
  unfold len. destruct l as [|a [|b [|c [|d [|x l]]]]]; cbn; try lia.
  intros _. now exists a, b, c, d.
Qed.

(** The header of a frame, unpacked. *)
Lemma unpack_header cmd p1 p2 p3 :
  0 <= cmd < 4294967296 -> 0 <= p1 < 4294967296 ->
  0 <= p3 < 4294967296 -> len p2 = 4 ->
  unpack_II4sI (pack_I cmd ++ pack_I p1 ++ p2 ++ pack_I p3)
  = inr (cmd, p1, p2, p3).
Proof.
  intros Hc Hp1 Hp3 Hp2.
  destruct (len_4 p2 Hp2) as (a & b & c & d & ->).
  unfold unpack_II4sI.
  change (len (pack_I cmd ++ pack_I p1 ++ [a; b; c; d] ++ pack_I p3) =? 16)
    with true.
  cbv iota.
  change (firstn 4 (pack_I cmd ++ pack_I p1 ++ [a; b; c; d] ++ pack_I p3))
    with (pack_I cmd).
  change (firstn 4 (skipn 4 (pack_I cmd ++ pack_I p1 ++ [a; b; c; d]
                               ++ pack_I p3)))
    with (pack_I p1).
  change (firstn 4 (skipn 8 (pack_I cmd ++ pack_I p1 ++ [a; b; c; d]
                               ++ pack_I p3)))
    with [a; b; c; d].
  change (skipn 12 (pack_I cmd ++ pack_I p1 ++ [a; b; c; d] ++ pack_I p3))
    with (pack_I p3).
  now rewrite !le32_pack_I by assumption.
Qed.

Lemma frame_split cmd p1 p2 e rest :
  len p2 = 4 ->
  firstn 16 (frame cmd p1 p2 e ++ rest)
    = pack_I cmd ++ pack_I p1 ++ p2 ++ pack_I (len e) /\
  skipn 16 (frame cmd p1 p2 e ++ rest) = e ++ rest.
Proof.
  intros Hp2. destruct (len_4 p2 Hp2) as (a & b & c & d & ->).
  split; reflexivity.
Qed.

(** X21. A frame packed as the client library packs it is unpacked to the
    same words: when the stream starts with the header of [cmd], [p1],
    [p2], [len e] (words below 2^32, a [p2] field of four bytes) followed
    by the extension [e], one turn of the loop takes the sixteen bytes of
    the header off the stream, serves the frame [cmd], [p1], [p2],
    [len e] with [e] next on the stream, and goes round again unless the
    frame raised. *)
Theorem iteration_serves_the_frame
    (c : PigpioClient) (cmd p1 : Z) (p2 e rest : list byte) :
  0 <= cmd < 4294967296 -> 0 <= p1 < 4294967296 ->
  len e < 4294967296 -> len p2 = 4 ->
  main_conn_in c = frame cmd p1 p2 e ++ rest ->
  iteration c
  = (on_frame cmd p1 p2 (len e) ;;; ret true)
      (set_main_conn_in (e ++ rest) c).
Proof.
  intros Hc Hp1 He Hp2 Hin.
  destruct (frame_split cmd p1 p2 e rest Hp2) as [Hhead Htail].
  pose proof (len_nonneg e) as Hn.
  unfold iteration. unfold Py.bind at 1. unfold recv at 1.
  rewrite Hin. change (Z.to_nat 16) with 16%nat.
  rewrite Hhead, Htail.
  destruct (len_4 p2 Hp2) as (a & b & c0 & d & ->).
  change (pack_I cmd ++ pack_I p1 ++ [a; b; c0; d] ++ pack_I (len e))
    with (byte_of cmd
            :: (tl (pack_I cmd) ++ pack_I p1 ++ [a; b; c0; d]
                  ++ pack_I (len e))).
  cbv iota.
  change (byte_of cmd
            :: (tl (pack_I cmd) ++ pack_I p1 ++ [a; b; c0; d]
                  ++ pack_I (len e)))
    with (pack_I cmd ++ pack_I p1 ++ [a; b; c0; d] ++ pack_I (len e)).
  unfold Py.bind at 1. unfold lift at 1.
  rewrite unpack_header by (assumption || lia).
  reflexivity.
Qed.

Lemma iteration_serves_the_frame_witness :
  let c := PigpioClient_init
             (frame _PI_CMD_SERO 115200 (pack_I 0) (bytes_of "/dev/ttyAMA0"))
             0 demo_hardware in
  iteration c
  = (on_frame _PI_CMD_SERO 115200 (pack_I 0) 12 ;;; ret true)
      (set_main_conn_in (bytes_of "/dev/ttyAMA0") c).
Proof.
  intro c.
  apply (iteration_serves_the_frame c _PI_CMD_SERO 115200 (pack_I 0)
           (bytes_of "/dev/ttyAMA0") []).
  - vm_compute. split; [discriminate | reflexivity].
  - lia.
  - vm_compute. reflexivity.
  - reflexivity.
  - reflexivity.
Defined.

(** X22. Closed and torn connections. On an empty stream a turn of the
    loop logs that the connection is lost and leaves the loop, sending
    nothing. On a stream that ends inside a header (1 to 15 bytes) the
    turn raises [struct.error] after taking these bytes; and a frame
    whose extension is cut short raises [struct.error] as well. In the
    last two cases nothing is sent either, and no binding changes. *)
Theorem closed_and_torn_connections
    (c : PigpioClient) (cmd p1 : Z) (p2 : list byte) (p3 : Z) :
  (main_conn_in c = [] ->
   iteration c
   = Ok false (set_log (log c ++ [Info_connection_lost (id c)]) c)) /\
  ((0 < length (main_conn_in c) < 16)%nat ->
   iteration c = Raise StructError (set_main_conn_in [] c)) /\
  (p3 <> 0 -> len (main_conn_in c) < p3 ->
   exists c',
     on_frame cmd p1 p2 p3 c = Raise StructError c' /\
     main_conn_out c' = main_conn_out c /\
     serial_instances c' = serial_instances c).
Proof.
  split; [|split].
  - intros Hin. unfold iteration, Py.bind at 1. unfold recv at 1.
    rewrite Hin. cbn. unfold Py.bind, gets, logger, modify, ret.
    f_equal. destruct c. cbn in *. now subst.
  - intros Hl. unfold iteration, Py.bind at 1. unfold recv at 1.
    change (Z.to_nat 16) with 16%nat.
    rewrite firstn_all2, skipn_all2 by lia.
    destruct (main_conn_in c) as [|x l] eqn:Hin; [cbn in Hl; lia|].
    cbv iota. unfold Py.bind at 1. unfold lift at 1.
    unfold unpack_II4sI.
    destruct (Z.eqb_spec (len (x :: l)) 16) as [E|_];
      [unfold len in E; lia|reflexivity].
  - intros Hp3 Hshort. pose proof (len_nonneg (main_conn_in c)) as Hn.
    unfold on_frame, Py.bind at 1.
    destruct (Z.eqb_spec p3 0) as [|_]; [contradiction|].
    unfold Py.bind at 1. unfold recv at 1.
    rewrite firstn_all2, skipn_all2 by (unfold len in Hshort; lia).
    unfold Py.bind at 1. unfold lift at 1. unfold unpack_s.
    destruct (Z.eqb_spec (len (main_conn_in c)) p3) as [E|_]; [lia|].
    eexists. split; [reflexivity|]. split; now destruct c.
Qed.

Lemma closed_and_torn_connections_witness :
  iteration (demo_client [])
    = Ok false (set_log [Info_connection_lost 0] (demo_client [])) /\
  iteration (demo_client (bytes_of "abc"))
    = Raise StructError (demo_client []) /\
  (exists c',
     on_frame _PI_CMD_SERW 0 (pack_I 0) 5 (demo_client (bytes_of "abc"))
       = Raise StructError c' /\
     main_conn_out c' = [Words 0 0 0 0]).
Proof.
  split; [|split].
  - destruct (closed_and_torn_connections
                (demo_client []) 0 0 [] 0) as (H & _ & _).
    apply H. reflexivity.
  - destruct (closed_and_torn_connections
                (demo_client (bytes_of "abc")) 0 0 [] 0) as (_ & H & _).
    apply H. vm_compute. lia.
  - destruct (closed_and_torn_connections
                (demo_client (bytes_of "abc")) _PI_CMD_SERW 0 (pack_I 0) 5)
      as (_ & _ & H).
    destruct H as (c' & E & Ho & _).
    + discriminate.
    + vm_compute. reflexivity.
    + exists c'. split; [exact E | exact Ho].
Defined.

(** ** Handles *)

(** X23. A handle addresses the binding it was given for. At every point
    of a run that started from a new client, whatever the stream and the
    hardware, the binding at position [k] of [serial_instances] has the
    handle [k] and is bound to a port of the hardware; so a SERDA for the
    handle of any binding is answered, by the number of bytes between
    the cursor of this binding and the input write index of its port. *)
Theorem handles_address_their_bindings
    (fuel : nat) (stream : list byte) (i : Z) (hw : VirtualHardware)
    (k : nat) (b : PigpioSerialInstance) (p2 : list byte) :
  let c := state_of (run fuel (PigpioClient_init stream i hw)) in
  nth_error (serial_instances c) k = Some b ->
  handle_id b = Z.of_nat k /\
  exists sp c',
    nth_error (serialports (virtual_hardware c)) (serialport b) = Some sp /\
    on_frame _PI_CMD_SERDA (handle_id b) p2 0 c = Ok tt c' /\
    main_conn_out c'
      = main_conn_out c
          ++ [Words 0 0 0 (ring_avail (input_buffer_size sp)
                                      (input_buffer_w_index sp)
                                      (input_buffer_r_index b))].
Proof.
  intros c Hk.
  destruct (run_keeps_client_ok fuel stream i hw) as [Hh Hr].
  fold c in Hh, Hr.
  pose proof (Hh k b Hk) as Hid. split; [exact Hid|].
  assert (Hlt : (serialport b < length (serialports (virtual_hardware c)))%nat).
  { apply Hr. eapply nth_error_In. exact Hk. }
  destruct (nth_error (serialports (virtual_hardware c)) (serialport b))
    as [sp|] eqn:Hsp; [|apply nth_error_None in Hsp; lia].
  exists sp. eexists. split; [reflexivity|].
  rewrite on_frame_plain.
  rewrite (dispatch_serda _ (handle_id b) p2 0 b sp).
  - split; [reflexivity|]. reflexivity.
  - change (serial_instances (at_dispatch _PI_CMD_SERDA (handle_id b) p2 c))
      with (serial_instances c).
    rewrite Hid. apply getitem_nonneg; [lia|]. now rewrite Nat2Z.id.
  - exact Hsp.
Qed.

Lemma handles_address_their_bindings_witness :
  let c := state_of (run 2 (PigpioClient_init
                              (frame _PI_CMD_SERO 115200 (pack_I 0)
                                     (bytes_of "/dev/ttyUSBMotorCard"))
                              0 main_hardware)) in
  exists b sp c',
    nth_error (serial_instances c) 0 = Some b /\
    handle_id b = 0 /\
    nth_error (serialports (virtual_hardware c)) (serialport b) = Some sp /\
    on_frame _PI_CMD_SERDA 0 (pack_I 0) 0 c = Ok tt c' /\
    main_conn_out c' = [Words 0 0 0 0; Words 0 0 0 0].
Proof.
  intros c.
  assert (Hk : nth_error (serial_instances c) 0
               = Some (mkInstance 1 0 0 0)) by (vm_compute; reflexivity).
  destruct (handles_address_their_bindings
              2 (frame _PI_CMD_SERO 115200 (pack_I 0)
                       (bytes_of "/dev/ttyUSBMotorCard"))
              0 main_hardware 0 (mkInstance 1 0 0 0) (pack_I 0) Hk)
    as (Hid & sp & c' & Hsp & E & Ho).
  exists (mkInstance 1 0 0 0), sp, c'.
  repeat split; try assumption.
  rewrite Ho.
  assert (Hsp' : nth_error (serialports (virtual_hardware c)) 1 = Some sp)
    by exact Hsp.
  vm_compute in Hsp'. injection Hsp' as <-. reflexivity.
Defined.

(** ** One answer for one frame *)

Lemma getitem_In {A} (l : list A) i x : getitem l i = inr x -> In x l.
Proof.
  unfold getitem. cbv zeta.
  destruct (_ <? 0); [discriminate|].
  destruct (nth_error l _) eqn:E; [|discriminate].
  intros H. injection H as <-. eapply nth_error_In. exact E.
Qed.

(** A read request sends a header and the bytes, or raises before it
    sends anything. *)
Lemma read_request_answers k b size c :
  match read_request k b size c with
  | Ok _ c' =>
    exists d, main_conn_out c'
              = main_conn_out c ++ [Words 0 0 0 (len d); Bytes d]
  | Raise _ c' => main_conn_out c' = main_conn_out c
  end.
Proof.
  destruct (nth_error (serialports (virtual_hardware c)) (serialport b))
    as [sp|] eqn:Hsp.
  2:{ unfold read_request, Py.bind, on_port. now rewrite Hsp. }
  set (avail := ring_avail (input_buffer_size sp) (input_buffer_w_index sp)
                           (input_buffer_r_index b)).
  assert (Hav : input_dat_avail (input_buffer_r_index b) sp = Ok avail sp)
    by reflexivity.
  assert (Hclamp :
    (if size >? avail
     then on_port (serialport b) (input_dat_avail (input_buffer_r_index b))
     else ret size) c = Ok (Z.min size avail) c).
  { destruct (Z.gtb_spec size avail).
    - rewrite (on_port_read _ _ _ _ _ Hsp Hav). f_equal. lia.
    - unfold ret. f_equal. lia. }
  unfold read_request.
  rewrite (bind_ok _ _ _ _ _ (on_port_read _ _ _ _ _ Hsp Hav)).
  rewrite (bind_ok _ _ _ _ _ Hclamp).
  pose proof (get_input_reads (Z.min size avail) (input_buffer_r_index b) sp)
    as Hst.
  destruct (get_input (Z.min size avail) (input_buffer_r_index b) sp)
    as [[d r'] sp'|e sp'] eqn:Hget; cbn [state_of] in Hst; subst sp'.
  - rewrite (bind_ok _ _ _ _ _ (on_port_read _ _ _ _ _ Hsp Hget)).
    cbv beta iota zeta. cbn [fst snd].
    destruct c as [i hw insts e0 mi mo no lg].
    unfold Py.bind, on_instance, modify, lift, logger, send.
    cbn [serial_instances].
    destruct (nth_error insts k); destruct (decode_utf8 d) as [e|[]];
      cbn; try reflexivity;
      exists d; now rewrite <- app_assoc.
  - unfold Py.bind, on_port. rewrite Hsp, Hget. now destruct c.
Qed.

(** The same for every branch of the dispatch: what is sent comes last,
    after everything that can raise. *)
Lemma dispatch_answers c cmd p1 p2 p3 :
  client_ok c ->
  match dispatch cmd p1 p2 p3 c with
  | Ok _ c' =>
    exists answer,
      main_conn_out c' = main_conn_out c ++ answer /\ answer_shape cmd answer
  | Raise _ c' => main_conn_out c' = main_conn_out c
  end.
Proof.
  intros [Hh Hr].
  destruct c as [i [ports] insts e0 mi mo no lg].
  unfold refs_ok in Hr. cbn in Hr.
  unfold dispatch, answer_shape.
  destruct (Z.eqb_spec cmd _PI_CMD_SERO) as [->|H1].
  { cbn [Z.eqb _PI_CMD_SERO _PI_CMD_SERR Pos.eqb orb].
    run_client.
    destruct e0 as [|b|s]; try reflexivity.
    destruct (decode_ascii b) as [e|name]; try reflexivity.
    run_client.
    destruct (find_port ports 0 name p1) as [ref|] eqn:Ef.
    - run_client. rewrite getitem_last, position_last. run_client.
      destruct (nth_error ports ref) as [sp|]; [|reflexivity].
      run_client.
      rewrite nth_error_app2, Nat.sub_diag by lia. cbn [nth_error].
      eexists. split; [reflexivity|]. eexists. reflexivity.
    - run_client. eexists. split; [reflexivity|]. eexists. reflexivity. }
  destruct (Z.eqb_spec cmd _PI_CMD_SERC) as [->|H2].
  { cbn [Z.eqb _PI_CMD_SERO _PI_CMD_SERC _PI_CMD_SERR Pos.eqb orb].
    run_client.
    destruct (getitem insts p1) as [e|[ref h ri ro]] eqn:Hg; [reflexivity|].
    run_client.
    pose proof (Hr _ (getitem_In _ _ _ Hg)) as Hlt. cbn in Hlt.
    destruct (nth_error ports ref) as [sp|] eqn:Hsp;
      [|apply nth_error_None in Hsp; lia].
    run_client. eexists. split; [reflexivity|]. eexists. reflexivity. }
  destruct (Z.eqb_spec cmd _PI_CMD_SERW) as [->|H3].
  { cbn [Z.eqb _PI_CMD_SERO _PI_CMD_SERC _PI_CMD_SERW _PI_CMD_SERR Pos.eqb
         orb].
    run_client.
    destruct (getitem insts p1) as [e|[ref h ri ro]] eqn:Hg; [reflexivity|].
    run_client.
    destruct (unpack_I_s p2) as [e|[w to_add]]; [reflexivity|].
    run_client.
    destruct (nth_error ports ref) as [sp|]; [|reflexivity].
    destruct (put_output to_add sp) as [[] sp'|e sp']; [|reflexivity].
    run_client.
    destruct (decode_utf8 to_add) as [e|[]]; [reflexivity|].
    run_client. eexists. split; [reflexivity|]. eexists. reflexivity. }
  destruct (Z.eqb_spec cmd _PI_CMD_SERR) as [->|H4].
  { unfold Py.bind at 1. unfold lift at 1.
    destruct (unpack_I p2) as [e|size]; [reflexivity|].
    unfold Py.bind at 1. unfold gets at 1.
    unfold Py.bind at 1. unfold lift at 1. cbn [serial_instances].
    destruct (getitem insts p1) as [e|b] eqn:Hg; [reflexivity|].
    pose proof (read_request_answers (position insts p1) b size
                  (mkClient i (mkVirtualHardware ports) insts e0 mi mo no lg))
      as H.
    destruct (read_request _ _ _ _) as [[] c'|e c']; [|exact H].
    destruct H as [d H]. eexists. split; [exact H|]. now exists d. }
  destruct (Z.eqb_spec cmd _PI_CMD_SERDA) as [->|H5].
  { cbn [Z.eqb _PI_CMD_SERO _PI_CMD_SERC _PI_CMD_SERW _PI_CMD_SERR
         _PI_CMD_SERDA Pos.eqb orb].
    run_client.
    destruct (getitem insts p1) as [e|[ref h ri ro]] eqn:Hg; [reflexivity|].
    run_client.
    destruct (nth_error ports ref) as [sp|]; [|reflexivity].
    cbn. eexists. split; [reflexivity|]. eexists. reflexivity. }
  destruct (Z.eqb_spec cmd _PI_CMD_SERO); [contradiction|].
  destruct (Z.eqb_spec cmd _PI_CMD_SERC); [contradiction|].
  destruct (Z.eqb_spec cmd _PI_CMD_SERW); [contradiction|].
  cbn [orb]. run_client. exists []. now rewrite app_nil_r.
Qed.

(** X24. One answer for one frame. On a client whose handles are
    positions and whose bindings refer to ports, a frame that is served
    is answered by exactly one header, followed by the bytes read for
    SERR, and by nothing at all when the command is none of SERO, SERC,
    SERW, SERR and SERDA; a frame that ends in an exception has sent
    nothing. *)
Theorem one_answer_per_frame
    (c : PigpioClient) (cmd p1 : Z) (p2 : list byte) (p3 : Z) :
  client_ok c ->
  match on_frame cmd p1 p2 p3 c with
  | Ok _ c' =>
    exists answer,
      main_conn_out c' = main_conn_out c ++ answer /\ answer_shape cmd answer
  | Raise _ c' => main_conn_out c' = main_conn_out c
  end.
Proof.
  intros Hok.
  assert (H : (exists c1, on_frame cmd p1 p2 p3 c = Raise StructError c1 /\
                          main_conn_out c1 = main_conn_out c) \/
              (exists p2' c1,
                 on_frame cmd p1 p2 p3 c = dispatch cmd p1 p2' p3 c1 /\
                 main_conn_out c1 = main_conn_out c /\
                 serial_instances c1 = serial_instances c /\
                 virtual_hardware c1 = virtual_hardware c)).
  { destruct (Z.eqb_spec p3 0) as [->|Hp3].
    - right. exists p2, (at_dispatch cmd p1 p2 c).
      split; [apply on_frame_plain|]. now destruct c.
    - unfold on_frame. destruct (Z.eqb_spec p3 0) as [|_]; [contradiction|].
      destruct c as [i hw insts e0 mi mo no lg].
      unfold Py.bind, recv, lift, unpack_s. cbn [main_conn_in].
      destruct (len (firstn (Z.to_nat p3) mi) =? p3).
      + right.
        exists (p2 ++ firstn (Z.to_nat p3) mi),
          (mkClient i hw insts (BytesVal (firstn (Z.to_nat p3) mi))
             (skipn (Z.to_nat p3) mi) mo no
             (lg ++ debug_lines i cmd p1 (p2 ++ firstn (Z.to_nat p3) mi) p3)).
        split; [|repeat split].
        unfold ret, gets, logger, modify. cbn.
        unfold debug_lines. now rewrite app_assoc5.
      + left. eexists. split; reflexivity. }
  destruct H as [(c1 & -> & Ho)|(p2' & c1 & -> & Ho & Hi & Hw)];
    [exact Ho|].
  assert (Hok1 : client_ok c1).
  { apply (client_ok_same c); [exact Hi | now rewrite Hw | exact Hok]. }
  pose proof (dispatch_answers c1 cmd p1 p2' p3 Hok1) as H.
  rewrite Ho in H. exact H.
Qed.

Lemma one_answer_per_frame_witness :
  client_ok (demo_client []) /\
  match on_frame _PI_CMD_SERC 0 (pack_I 0) 0 (demo_client []) with
  | Ok _ c' =>
    exists answer,
      main_conn_out c' = main_conn_out (demo_client []) ++ answer /\
      answer_shape _PI_CMD_SERC answer
  | Raise _ c' => main_conn_out c' = main_conn_out (demo_client [])
  end.
Proof.
  split; [apply demo_client_ok|].
  apply (one_answer_per_frame (demo_client []) _PI_CMD_SERC 0 (pack_I 0) 0).
  apply demo_client_ok.
Defined.

(** ** Writes in pieces *)

(** Two writes in a row, the first of which ends before the end of the
    storage, and one write of both. *)
Lemma ring_put_compose C w (B a b : list byte) :
  0 < C -> 0 <= w -> w + len a < C -> C <= len B ->
  w + len a + len b <> C ->
  exists B1,
    ring_put C w B a = inr (B1, w + len a) /\
    len B1 = len B /\
    ring_put C (w + len a) B1 b = ring_put C w B (a ++ b).
Proof.
  intros HC Hw Ha HL Hne.
  pose proof (len_nonneg a) as Hla. pose proof (len_nonneg b) as Hlb.
  rewrite (ring_put_inside C HC w B a Hw Ha HL).
  set (B1 := firstn (Z.to_nat w) B ++ a ++ skipn (Z.to_nat (w + len a)) B).
  assert (HL1 : len B1 = len B).
  { unfold B1. rewrite !len_app, len_firstn, len_skipn by lia. lia. }
  assert (Hf : firstn (Z.to_nat (w + len a)) B1 = firstn (Z.to_nat w) B ++ a).
  { unfold B1. rewrite app_assoc. apply firstn_app_exact.
    rewrite length_app, length_firstn. unfold len in *. lia. }
  exists B1. split; [reflexivity|]. split; [exact HL1|].
  destruct (Z_lt_ge_dec (w + len a + len b) C) as [Hin|Hout].
  - rewrite (ring_put_inside C HC (w + len a) B1 b) by lia.
    rewrite (ring_put_inside C HC w B (a ++ b)) by (rewrite ?len_app; lia).
    rewrite len_app, Hf, Z.add_assoc. f_equal. rewrite <- !app_assoc.
    do 3 f_equal.
    unfold B1. rewrite app_assoc.
    replace (Z.to_nat (w + len a + len b))
      with (length (firstn (Z.to_nat w) B ++ a) + Z.to_nat (len b))%nat.
    2:{ rewrite length_app, length_firstn. unfold len in *. lia. }
    rewrite skipn_app. 
    rewrite skipn_all2 by lia. cbn [app].
    replace (length (firstn (Z.to_nat w) B ++ a) + Z.to_nat (len b)
             - length (firstn (Z.to_nat w) B ++ a))%nat
      with (Z.to_nat (len b)) by lia.
    rewrite skipn_skipn, length_app, length_firstn.
    unfold len in *. apply (f_equal (fun n => b ++ skipn n B)). lia.
  - unfold ring_put. rewrite len_app, Z.add_assoc.
    rewrite mod__ok by lia.
    destruct (Z.gtb_spec (w + len a + len b) C) as [_|]; [|lia].
    assert (E1 : set_slice_from B1 (w + len a) (slice_to b (C - (w + len a)))
                 = set_slice_from B w (slice_to (a ++ b) (C - w))).
    { rewrite !set_slice_from_inside by lia.
      rewrite !slice_to_inside by (rewrite ?len_app; lia).
      rewrite Hf, <- app_assoc, firstn_app.
      rewrite (@firstn_all2 _ _ a) by (unfold len in *; lia).
      apply (f_equal (fun n => firstn (Z.to_nat w) B ++ a ++ firstn n b)).
      unfold len in *. lia. }
    assert (E2 : slice_from b (C - (w + len a)) = slice_from (a ++ b) (C - w)).
    { rewrite !slice_from_inside by (rewrite ?len_app; lia).
      rewrite skipn_app.
      rewrite (@skipn_all2 _ _ a) by (unfold len in *; lia). cbn [app].
      apply (f_equal (fun n => skipn n b)). unfold len in *. lia. }
    now rewrite E1, E2.
Qed.

Lemma put_input_compose (self : SerialPort) (a b : list byte) :
  input_wf self ->
  input_buffer_w_index self + len a < input_buffer_size self ->
  input_buffer_w_index self + len a + len b <> input_buffer_size self ->
  exists self1,
    put_input a self = Ok tt self1 /\ input_wf self1 /\
    input_buffer_size self1 = input_buffer_size self /\
    input_buffer_w_index self1 = input_buffer_w_index self + len a /\
    put_input b self1 = put_input (a ++ b) self.
Proof.
  intros (Hc & HL & Hw) Ha Hne.
  destruct (ring_put_compose (input_buffer_size self)
              (input_buffer_w_index self) (input_buffer self) a b)
    as (B1 & E1 & HL1 & E2); try lia.
  pose proof (len_nonneg a).
  exists (set_input B1 (input_buffer_w_index self + len a) self).
  unfold put_input at 1. rewrite E1.
  split; [reflexivity|]. split; [|split; [reflexivity|split; [reflexivity|]]].
  { unfold input_wf. cbn. lia. }
  unfold put_input. cbn [input_buffer_size input_buffer_w_index input_buffer
                         set_input].
  rewrite E2.
  destruct (ring_put_cursor (input_buffer_size self) Hc
              (input_buffer_w_index self) (input_buffer self) (a ++ b))
    as [B2 E].
  rewrite E. now destruct self.
Qed.

Lemma put_output_compose (self : SerialPort) (a b : list byte) :
  output_wf self ->
  output_buffer_w_index self + len a < output_buffer_size self ->
  output_buffer_w_index self + len a + len b <> output_buffer_size self ->
  exists self1,
    put_output a self = Ok tt self1 /\
    put_output b self1 = put_output (a ++ b) self.
Proof.
  intros (Hc & HL & Hw) Ha Hne.
  destruct (ring_put_compose (output_buffer_size self)
              (output_buffer_w_index self) (output_buffer self) a b)
    as (B1 & E1 & HL1 & E2); try lia.
  exists (set_output B1 (output_buffer_w_index self + len a) self).
  unfold put_output at 1. rewrite E1.
  split; [reflexivity|].
  unfold put_output. cbn [output_buffer_size output_buffer_w_index
                          output_buffer set_output].
  rewrite E2.
  destruct (ring_put_cursor (output_buffer_size self) Hc
              (output_buffer_w_index self) (output_buffer self) (a ++ b))
    as [B2 E].
  rewrite E. now destruct self.
Qed.

(** One write of nothing leaves the input side as it is. *)
Lemma put_input_nil (self : SerialPort) :
  input_wf self -> put_input [] self = Ok tt self.
Proof.
  intros (Hc & HL & Hw). unfold put_input.
  rewrite (ring_put_inside _ Hc) by (change (len (@nil byte)) with 0; lia).
  change (len (@nil byte)) with 0. rewrite Z.add_0_r.
  cbn [app]. rewrite firstn_skipn. now rewrite set_input_same.
Qed.

Lemma feed_inside (sent : list byte) : forall self : SerialPort,
  input_wf self ->
  input_buffer_w_index self + len sent < input_buffer_size self ->
  motor_card_recv_Thread_run sent self = put_input sent self.
Proof.
  induction sent as [|x rest IH]; intros self Hwf Hlen.
  - cbn [motor_card_recv_Thread_run]. now rewrite put_input_nil.
  - assert (Hl : len (x :: rest) = 1 + len rest).
    { unfold len. cbn [length]. lia. }
    pose proof (len_nonneg rest) as Hr.
    destruct (put_input_compose self [x] rest Hwf)
      as (s1 & E1 & Hwf1 & Hc1 & Hw1 & E2).
    + change (len [x]) with 1. lia.
    + change (len [x]) with 1. lia.
    + cbn [motor_card_recv_Thread_run]. unfold Py.bind. rewrite E1.
      rewrite IH; [exact E2 | exact Hwf1 |].
      rewrite Hc1, Hw1. change (len [x]) with 1. lia.
Qed.

(** X25. Writes compose. When a write of [a] ends before the end of the
    storage and the bytes of [a] and [b] together do not end exactly at
    the end of the storage, putting [a] and then [b] leaves the port as
    one put of [a ++ b] does, on the input side and on the output side,
    also when [b] goes round the end or is longer than the capacity. So
    the bridge, which puts what the card sends one byte at a time, leaves
    the port as one put of all the bytes does, as long as they end before
    the end of the storage. *)
Theorem chunked_writes_compose (self : SerialPort) (a b : list byte) :
  (input_wf self ->
   input_buffer_w_index self + len a < input_buffer_size self ->
   input_buffer_w_index self + len a + len b <> input_buffer_size self ->
   (put_input a ;;; put_input b) self = put_input (a ++ b) self) /\
  (output_wf self ->
   output_buffer_w_index self + len a < output_buffer_size self ->
   output_buffer_w_index self + len a + len b <> output_buffer_size self ->
   (put_output a ;;; put_output b) self = put_output (a ++ b) self) /\
  (input_wf self ->
   input_buffer_w_index self + len a < input_buffer_size self ->
   motor_card_recv_Thread_run a self = put_input a self).
Proof.
  split; [|split].
  - intros Hwf Ha Hne.
    destruct (put_input_compose self a b Hwf Ha Hne)
      as (s1 & E1 & _ & _ & _ & E2).
    unfold Py.bind. now rewrite E1.
  - intros Hwf Ha Hne.
    destruct (put_output_compose self a b Hwf Ha Hne) as (s1 & E1 & E2).
    unfold Py.bind. now rewrite E1.
  - intros Hwf Ha. now apply feed_inside.
Qed.

Lemma chunked_writes_compose_witness :
  let p := SerialPort_init "/dev/ttyAMA0" 115200 8 8 in
  (put_input (bytes_of "abc") ;;; put_input (bytes_of "defghijk")) p
    = put_input (bytes_of "abcdefghijk") p /\
  (put_output (bytes_of "abc") ;;; put_output (bytes_of "de")) p
    = put_output (bytes_of "abcde") p /\
  motor_card_recv_Thread_run (bytes_of "abc") p = put_input (bytes_of "abc") p.
Proof.
  intro p.
  destruct (chunked_writes_compose p (bytes_of "abc") (bytes_of "defghijk"))
    as (Hi & _ & Hf).
  destruct (chunked_writes_compose p (bytes_of "abc") (bytes_of "de"))
    as (_ & Ho & _).
  split; [|split].
  - apply Hi.
    + apply SerialPort_init_wf; lia.
    + vm_compute. reflexivity.
    + vm_compute. discriminate.
  - apply Ho.
    + apply SerialPort_init_wf; lia.
    + vm_compute. reflexivity.
    + vm_compute. discriminate.
  - apply Hf.
    + apply SerialPort_init_wf; lia.
    + vm_compute. reflexivity.
Defined.

(** ** The bridge, byte by byte *)

Lemma nth_error_inserted {A} (l t : list A) (x : A) (w k : nat) :
  (w <= length l)%nat ->
  nth_error (firstn w l ++ x :: t) k =
  if (k <? w)%nat then nth_error l k
  else if (k =? w)%nat then Some x
  else nth_error t (k - w - 1).
Proof.
  intros Hw.
  assert (Hl : length (firstn w l) = w) by (rewrite length_firstn; lia).
  destruct (Nat.ltb_spec k w).
  - rewrite nth_error_app1 by lia. rewrite nth_error_firstn.
    now destruct (Nat.ltb_spec k w); [|lia].
  - rewrite nth_error_app2 by lia. rewrite Hl.
    destruct (Nat.eqb_spec k w) as [->|Hne].
    + now rewrite Nat.sub_diag.
    + destruct (k - w)%nat as [|m] eqn:E; [lia|]. cbn [nth_error].
      f_equal. lia.
Qed.

(** One byte put into the input side: it is at the write index, the other
    positions below the capacity hold what they held, and the storage is
    one element longer when the byte was put at the last position. *)
Lemma put_input_one (self : SerialPort) (x : byte) :
  input_wf self ->
  let C := input_buffer_size self in
  let w := input_buffer_w_index self in
  exists B',
    put_input [x] self = Ok tt (set_input B' ((w + 1) mod C) self) /\
    len B' = len (input_buffer self) + (w + 1) / C /\
    nth_error B' (Z.to_nat w) = Some x /\
    (forall k, (k < Z.to_nat C)%nat -> k <> Z.to_nat w ->
               nth_error B' k = nth_error (input_buffer self) k).
Proof.
  intros (Hc & HL & Hw) C w. fold C in Hc, HL, Hw. fold w in Hw.
  assert (Hwl : (Z.to_nat w <= length (input_buffer self))%nat)
    by (unfold len in HL; lia).
  unfold put_input. fold C w.
  destruct (Z_lt_ge_dec (w + 1) C) as [Hin|Hend].
  - rewrite (ring_put_inside C Hc w (input_buffer self) [x])
      by (change (len [x]) with 1; lia).
    change (len [x]) with 1. cbn [app].
    eexists. split; [now rewrite Z.mod_small by lia|].
    split; [|split].
    + rewrite len_app, len_firstn by lia.
      unfold len at 1. cbn [length]. rewrite Nat2Z.inj_succ.
      fold (len (skipn (Z.to_nat (w + 1)) (input_buffer self))).
      rewrite len_skipn by lia. rewrite Z.div_small by lia. lia.
    + rewrite nth_error_inserted by exact Hwl.
      now rewrite Nat.ltb_irrefl, Nat.eqb_refl.
    + intros k Hk Hne. rewrite nth_error_inserted by exact Hwl.
      destruct (Nat.ltb_spec k (Z.to_nat w)); [reflexivity|].
      destruct (Nat.eqb_spec k (Z.to_nat w)); [contradiction|].
      rewrite nth_error_skipn. f_equal. lia.
  - assert (Hw1 : w + 1 = C) by lia.
    rewrite (ring_put_boundary C Hc w (input_buffer self) [x])
      by (change (len [x]) with 1; lia).
    cbn [app].
    eexists. split; [now rewrite Hw1, Z.mod_same by lia|].
    split; [|split].
    + rewrite len_app, len_firstn by lia.
      unfold len at 1. cbn [length]. rewrite Nat2Z.inj_succ.
      fold (len (skipn (Z.to_nat w) (input_buffer self))).
      rewrite len_skipn by lia. rewrite Hw1, Z.div_same by lia. lia.
    + rewrite nth_error_inserted by exact Hwl.
      now rewrite Nat.ltb_irrefl, Nat.eqb_refl.
    + intros k Hk Hne. rewrite nth_error_inserted by exact Hwl.
      destruct (Nat.ltb_spec k (Z.to_nat w)); [reflexivity|]. lia.
Qed.

(** What the storage holds after any number of bytes put one at a
    time. *)
Lemma feed_invariant (sent : list byte) : forall self : SerialPort,
  input_wf self ->
  let C := input_buffer_size self in
  let w := input_buffer_w_index self in
  exists B',
    motor_card_recv_Thread_run sent self
      = Ok tt (set_input B' ((w + len sent) mod C) self) /\
    len B' = len (input_buffer self) + (w + len sent) / C /\
    (forall j, 0 <= j < len sent -> len sent - j <= C ->
       nth_error B' (Z.to_nat ((w + j) mod C))
       = nth_error sent (Z.to_nat j)) /\
    (forall k, 0 <= k < C ->
       (forall j, 0 <= j < len sent -> (w + j) mod C <> k) ->
       nth_error B' (Z.to_nat k) = nth_error (input_buffer self) (Z.to_nat k)).
Proof.
  induction sent as [|x rest IH]; intros self Hwf C w.
  - destruct Hwf as (Hc & HL & Hw). fold C in Hc, HL, Hw. fold w in Hw.
    exists (input_buffer self). change (len (@nil byte)) with 0.
    rewrite Z.add_0_r, Z.mod_small, Z.div_small by lia.
    split; [cbn; now rewrite set_input_same|].
    split; [lia|]. split; [intros j Hj; lia | reflexivity].
  - pose proof Hwf as (Hc & HL & Hw). fold C in Hc, HL, Hw. fold w in Hw.
    assert (Hl : len (x :: rest) = 1 + len rest).
    { unfold len. cbn [length]. lia. }
    pose proof (len_nonneg rest) as Hr.
    destruct (put_input_one self x Hwf) as (B1 & E1 & HL1 & Hx & Hk1).
    fold C w in E1, HL1, Hx, Hk1.
    set (self1 := set_input B1 ((w + 1) mod C) self) in *.
    assert (Hw1 : 0 <= (w + 1) mod C < C) by (apply Z.mod_pos_bound; lia).
    assert (Hdiv : 0 <= (w + 1) / C) by (apply Z.div_pos; lia).
    assert (Hwf1 : input_wf self1).
    { unfold input_wf, self1. cbn. fold C. lia. }
    destruct (IH self1 Hwf1) as (B' & E2 & HL2 & Hj2 & Hk2).
    change (input_buffer_size self1) with C in *.
    change (input_buffer_w_index self1) with ((w + 1) mod C) in *.
    change (input_buffer self1) with B1 in *.
    assert (Hshift : forall n, ((w + 1) mod C + n) mod C = (w + (1 + n)) mod C).
    { intros n. rewrite Zplus_mod_idemp_l. f_equal. lia. }
    exists B'. rewrite Hl.
    split; [|split; [|split]].
    + cbn [motor_card_recv_Thread_run]. unfold Py.bind. rewrite E1, E2.
      rewrite Hshift. unfold self1. now destruct self.
    + rewrite HL2, HL1.
      assert (Hd : (w + (1 + len rest)) / C
                   = (w + 1) / C + ((w + 1) mod C + len rest) / C).
      { destruct (Z_lt_ge_dec (w + 1) C) as [Hin|Hend].
        - rewrite (Z.mod_small (w + 1)), (Z.div_small (w + 1)) by lia.
          now rewrite Z.add_assoc.
        - replace (w + 1) with C by lia.
          rewrite Z.mod_same, Z.div_same by lia.
          replace (w + (1 + len rest)) with (1 * C + len rest) by lia.
          rewrite Z.div_add_l by lia. reflexivity. }
      lia.
    + intros j Hj Hfit.
      destruct (Z.eq_dec j 0) as [->|Hj0].
      * rewrite Z.add_0_r, Z.mod_small by lia. cbn [Z.to_nat nth_error].
        rewrite Hk2; [exact Hx | lia |].
        intros j' Hj' Heq. rewrite Hshift in Heq.
        destruct (Z_lt_ge_dec (w + (1 + j')) C).
        -- rewrite Z.mod_small in Heq by lia. lia.
        -- rewrite mod_once in Heq by lia. lia.
      * replace (Z.to_nat j) with (S (Z.to_nat (j - 1))) by lia.
        cbn [nth_error].
        rewrite <- (Hj2 (j - 1)) by lia.
        rewrite Hshift. do 3 f_equal. lia.
    + intros k Hk Hfree.
      rewrite Hk2.
      * apply Hk1; [lia|].
        intros Heq. apply (Hfree 0); [lia|].
        rewrite Z.add_0_r, Z.mod_small by lia. lia.
      * exact Hk.
      * intros j' Hj' Heq. rewrite Hshift in Heq.
        apply (Hfree (1 + j')); [lia | exact Heq].
Qed.

(** X26. The bridge feeds a port byte by byte, and no byte is lost that
    way. Whatever the card sends and however long, on a well-formed input
    side every put succeeds, the write index ends at
    [(w + len sent) % size], each of the last [size] bytes sent is at its
    place in the storage, byte [j] at position [(w + j) % size], and the
    storage is one element longer for every time the write index went
    back to [0]. *)
Theorem byte_by_byte_feed (self : SerialPort) (sent : list byte) :
  input_wf self ->
  let C := input_buffer_size self in
  let w := input_buffer_w_index self in
  exists self',
    motor_card_recv_Thread_run sent self = Ok tt self' /\
    input_wf self' /\
    input_buffer_size self' = C /\
    input_buffer_w_index self' = (w + len sent) mod C /\
    len (input_buffer self')
      = len (input_buffer self) + (w + len sent) / C /\
    (forall j, 0 <= j < len sent -> len sent - j <= C ->
       nth_error (input_buffer self') (Z.to_nat ((w + j) mod C))
       = nth_error sent (Z.to_nat j)).
Proof.
  intros Hwf C w.
  destruct (feed_invariant sent self Hwf) as (B' & E & HL' & Hj & _).
  fold C w in E, HL', Hj.
  destruct Hwf as (Hc & HL & Hw). fold C in Hc, HL, Hw. fold w in Hw.
  pose proof (len_nonneg sent) as Hs.
  assert (Hm : 0 <= (w + len sent) mod C < C)
    by (apply Z.mod_pos_bound; lia).
  assert (Hd : 0 <= (w + len sent) / C) by (apply Z.div_pos; lia).
  exists (set_input B' ((w + len sent) mod C) self).
  split; [exact E|].
  split; [unfold input_wf; cbn; fold C; lia|].
  repeat split; assumption.
Qed.

Lemma byte_by_byte_feed_witness :
  let p := SerialPort_init "/dev/ttyUSBMotorCard" 115200 4 4 in
  exists p',
    motor_card_recv_Thread_run (bytes_of "abcdefghij") p = Ok tt p' /\
    input_buffer_w_index p' = 2 /\
    len (input_buffer p') = 6 /\
    nth_error (input_buffer p') 1 = Some "j"%byte.
Proof.
  intro p.
  destruct (byte_by_byte_feed p (bytes_of "abcdefghij"))
    as (p' & E & _ & _ & Hw & HL & Hj).
  - apply SerialPort_init_wf; lia.
  - exists p'. split; [exact E|]. split; [exact Hw|]. split; [exact HL|].
    apply (Hj 9).
    + vm_compute. split; [discriminate | reflexivity].
    + vm_compute. discriminate.
Defined.

(** ** A hardware without ports *)

Lemma getitem_nil {A} (i : Z) : getitem (@nil A) i = inl IndexError.
Proof.
  unfold getitem. cbv zeta. destruct (_ <? 0); [reflexivity|].
  now destruct (Z.to_nat _).
Qed.

Lemma refused_only_same c c' :
  serial_instances c' = serial_instances c ->
  virtual_hardware c' = virtual_hardware c ->
  main_conn_out c' = main_conn_out c ->
  refused_only c -> refused_only c'.
Proof. unfold refused_only. intros -> -> ->. auto. Qed.

Lemma dispatch_without_ports cmd p1 p2 p3 c :
  refused_only c -> refused_only (state_of (dispatch cmd p1 p2 p3 c)).
Proof.
  intros (Hi & Hw & Ho).
  destruct c as [i hw insts e0 mi mo no lg]. cbn in Hi, Hw, Ho. subst insts hw.
  unfold dispatch.
  destruct (cmd =? _PI_CMD_SERO).
  { run_client.
    destruct e0 as [|b|s]; try (now repeat split).
    destruct (decode_ascii b) as [e|name]; try (now repeat split).
    cbn. repeat split. apply Forall_app. split; [exact Ho|]. now constructor. }
  destruct (cmd =? _PI_CMD_SERC).
  { unfold Py.bind, gets, lift. cbn [serial_instances]. rewrite getitem_nil.
    now repeat split. }
  destruct (cmd =? _PI_CMD_SERW).
  { unfold Py.bind, gets, lift. cbn [serial_instances]. rewrite getitem_nil.
    now repeat split. }
  destruct (cmd =? _PI_CMD_SERR).
  { unfold Py.bind, gets, lift. cbn [serial_instances].
    destruct (unpack_I p2); [now repeat split|].
    cbn [serial_instances]. rewrite getitem_nil. now repeat split. }
  destruct (cmd =? _PI_CMD_SERDA).
  { unfold Py.bind, gets, lift. cbn [serial_instances]. rewrite getitem_nil.
    now repeat split. }
  now repeat split.
Qed.

Lemma on_frame_without_ports cmd p1 p2 p3 c :
  refused_only c -> refused_only (state_of (on_frame cmd p1 p2 p3 c)).
Proof.
  intros H. unfold on_frame.
  unfold Py.bind at 1.
  destruct (p3 =? 0).
  - unfold ret at 1.
    unfold Py.bind, gets, logger, modify.
    apply dispatch_without_ports.
    revert H. apply refused_only_same; now destruct c.
  - unfold Py.bind at 1. unfold recv at 1.
    unfold Py.bind at 1. unfold lift at 1.
    destruct (unpack_s p3 _) as [e|e].
    + cbn [state_of]. revert H. apply refused_only_same; now destruct c.
    + unfold Py.bind, modify, ret, gets, logger.
      apply dispatch_without_ports.
      revert H. apply refused_only_same; now destruct c.
Qed.

Lemma iteration_without_ports c :
  refused_only c -> refused_only (state_of (iteration c)).
Proof.
  intros H. unfold iteration. unfold Py.bind at 1. unfold recv at 1.
  assert (H1 : refused_only
                 (set_main_conn_in (skipn (Z.to_nat 16) (main_conn_in c)) c)).
  { revert H. apply refused_only_same; now destruct c. }
  destruct (firstn (Z.to_nat 16) (main_conn_in c)) as [|x raw].
  - unfold Py.bind, gets, logger, modify, ret. cbn [state_of].
    revert H1. apply refused_only_same; now destruct c.
  - unfold Py.bind at 1. unfold lift at 1.
    destruct (unpack_II4sI (x :: raw)) as [e|[[[cmd p1] p2] p3]];
      [exact H1|].
    pose proof (on_frame_without_ports cmd p1 p2 p3 _ H1) as H2.
    unfold Py.bind.
    destruct (on_frame cmd p1 p2 p3 _) as [[] c2|e c2]; exact H2.
Qed.

Lemma loop_without_ports fuel : forall c,
  refused_only c -> refused_only (state_of (loop fuel c)).
Proof.
  induction fuel as [|fuel IH]; intros c H; [exact H|].
  cbn [loop]. unfold Py.bind.
  pose proof (iteration_without_ports c H) as H1.
  destruct (iteration c) as [[|] c1|e c1]; cbn [state_of] in *.
  - now apply IH.
  - exact H1.
  - exact H1.
Qed.

(** X27. Nothing can be opened on a hardware without ports. A new client
    on [VirtualHardware()], the hardware a [PigpiodEmulator] has when none
    is passed to it, never has a binding, whatever the stream and however
    far the run gets; its hardware stays without ports, and all it ever
    sends on the main connection are refusals [{0,0,0,-1}]. *)
Theorem hardware_without_ports (fuel : nat) (stream : list byte) (i : Z) :
  let c :=
    state_of (run fuel (PigpioClient_init stream i VirtualHardware_init)) in
  serial_instances c = [] /\
  virtual_hardware c = VirtualHardware_init /\
  Forall (fun p => p = Words 0 0 0 (-1)) (main_conn_out c).
Proof.
  unfold run, Py.bind, modify.
  apply (loop_without_ports fuel).
  repeat split. constructor.
Qed.
